(** * BentoPose: the single-frame BVH exporter of [js/main.js]

    A shallow embedding of [exportToBVH], [buildBVHHierarchy] and
    [buildBVHMotion], of the JavaScript built-ins they call
    ([String.prototype.repeat], [replace] and [trim],
    [Number.prototype.toFixed]), of the part of the three.js scene graph they
    read and of the browser calls that deliver the download; then the
    properties of the exported document. *)

From Stdlib Require Import ZArith List String Ascii Bool Lia Arith.
From Stdlib Require Import Relations Wellfounded DecimalString.
From Corelib Require Import PrimFloat SpecFloat FloatOps.
Import ListNotations.

Local Open Scope string_scope.

(** ** JavaScript strings *)

Module JSString.

(** The line feed written ["\n"] in the source. *)
Definition LF : string := String (ascii_of_nat 10) EmptyString.

(** [s.repeat(n)]. *)
Fixpoint repeat (s : string) (n : nat) : string :=
  match n with
  | O => EmptyString
  | S n' => s ++ repeat s n'
  end.

(** The string without its first [n] characters. *)
Fixpoint drop (n : nat) (s : string) : string :=
  match n, s with
  | O, _ => s
  | S _, EmptyString => EmptyString
  | S n', String _ s' => drop n' s'
  end.

(** [s.replace(pat, rep)] for a string pattern and a replacement without
    [$] patterns: the first occurrence of [pat], if any, is replaced. *)
Fixpoint replace (pat rep s : string) : string :=
  if String.prefix pat s then rep ++ drop (String.length pat) s
  else match s with
       | EmptyString => EmptyString
       | String c s' => String c (replace pat rep s')
       end.

(** The white space and line terminator code units below 128. *)
Definition isWhiteSpace (c : ascii) : bool :=
  let n := nat_of_ascii c in
  (((9 <=? n) && (n <=? 13)) || (n =? 32))%nat.

Fixpoint trimStart (s : string) : string :=
  match s with
  | EmptyString => EmptyString
  | String c s' => if isWhiteSpace c then trimStart s' else s
  end.

Fixpoint trimEnd (s : string) : string :=
  match s with
  | EmptyString => EmptyString
  | String c s' =>
      match trimEnd s' with
      | EmptyString => if isWhiteSpace c then EmptyString else String c EmptyString
      | t => String c t
      end
  end.

(** [s.trim()]. *)
Definition trim (s : string) : string := trimEnd (trimStart s).

(** [s.split(sep)] for a one-character separator. *)
Fixpoint split (sep : ascii) (s : string) : list string :=
  match s with
  | EmptyString => [EmptyString]
  | String c s' =>
      if Ascii.eqb c sep then EmptyString :: split sep s'
      else match split sep s' with
           | [] => [String c EmptyString]
           | w :: ws => String c w :: ws
           end
  end.

(** [s.startsWith(p)]. *)
Definition startsWith (s p : string) : bool := String.prefix p s.

End JSString.

(** ** JavaScript numbers *)

Module JSNumber.

(** A Number is an IEEE 754 binary64 value. *)
Definition Number := float.

(** Decimal digits of a non-negative integer. *)
Definition decimal (n : Z) : string := NilZero.string_of_uint (N.to_uint (Z.to_N n)).

Definition isDigit (c : ascii) : bool :=
  let n := nat_of_ascii c in ((48 <=? n) && (n <=? 57))%nat.

(** The integer [n] for which [n / 10^f - x] is closest to zero, the larger
    one when there are two, for the positive real [x = m * 2^e]. *)
Definition scaled (m : positive) (e : Z) (f : nat) : Z :=
  let s := (Zpos m * 10 ^ Z.of_nat f)%Z in
  if (0 <=? e)%Z then (s * 2 ^ e)%Z
  else ((2 * s + 2 ^ (- e)) / 2 ^ (1 - e))%Z.

(** Whether the positive real [m * 2^e] is at least [10^21]. *)
Definition atLeast1e21 (m : positive) (e : Z) : bool :=
  if (0 <=? e)%Z then (10 ^ 21 <=? Zpos m * 2 ^ e)%Z
  else (10 ^ 21 * 2 ^ (- e) <=? Zpos m)%Z.

(** Steps 9 and 10 of [Number.prototype.toFixed]: the digits of [n] with a
    decimal point before the last [f] of them, padded with zeros on the
    left so that at least one digit comes before the point. *)
Definition fixedDigits (n : Z) (f : nat) : string :=
  let m := decimal n in
  match f with
  | O => m
  | S _ =>
      let k := String.length m in
      let m := if (k <=? f)%nat then JSString.repeat "0" (f + 1 - k) ++ m else m in
      let k := String.length m in
      String.substring 0 (k - f) m ++ "." ++ JSString.drop (k - f) m
  end.

(** The double nearest to an integer (ties to even). *)
Definition toDouble (v : Z) : spec_float := binary_normalize 53 1024 v 0 false.

Definition sameDouble (a b : spec_float) : bool :=
  match a, b with
  | S754_finite sa ma ea, S754_finite sb mb eb =>
      Bool.eqb sa sb && Pos.eqb ma mb && Z.eqb ea eb
  | _, _ => false
  end.

(** The decimal value with the fewest significant digits that reads back
    as the double [x], whose exact value is the integer [X] of [d] digits;
    among those of that length, the one closest to [X]. *)
Fixpoint shortest (x : spec_float) (X d : Z) (tries : nat) (k : Z) : Z :=
  match tries with
  | O => X
  | S tries' =>
      let p := (10 ^ (d - k))%Z in
      let lo := ((X / p) * p)%Z in
      let hi := (lo + p)%Z in
      let oklo := sameDouble (toDouble lo) x in
      let okhi := sameDouble (toDouble hi) x in
      if oklo && okhi then (if (X - lo <=? hi - X)%Z then lo else hi)
      else if oklo then lo
      else if okhi then hi
      else shortest x X d tries' (k + 1)%Z
  end.

Fixpoint stripZeros (s : string) : string :=
  match s with
  | EmptyString => EmptyString
  | String c s' =>
      match stripZeros s' with
      | EmptyString => if Ascii.eqb c "0" then EmptyString else String c EmptyString
      | t => String c t
      end
  end.

(** [Number::toString] of the finite double [m * 2^e >= 10^21]: always in
    exponential notation, since the value has more than 21 digits. *)
Definition toStringLarge (m : positive) (e : Z) : string :=
  let X := (Zpos m * 2 ^ e)%Z in
  let v := shortest (S754_finite false m e) X (Z.of_nat (String.length (decimal X))) 17 1 in
  let all := decimal v in
  let n := String.length all in
  match stripZeros all with
  | EmptyString => "0"
  | String c EmptyString => String c ("e+" ++ decimal (Z.of_nat (n - 1)))
  | String c rest => String c ("." ++ rest ++ "e+" ++ decimal (Z.of_nat (n - 1)))
  end.

(** [x.toFixed(f)] for [0 <= f <= 100]. *)
Definition toFixed (x : Number) (fractionDigits : nat) : string :=
  match Prim2SF x with
  | S754_nan => "NaN"
  | S754_infinity s => if s then "-Infinity" else "Infinity"
  | S754_zero _ => fixedDigits 0 fractionDigits
  | S754_finite s m e =>
      (if s then "-" else "") ++
      (if atLeast1e21 m e then toStringLarge m e
       else fixedDigits (scaled m e fractionDigits) fractionDigits)
  end.

(** Finite and of magnitude below [10^21]: the range on which [toFixed]
    answers in fixed-point notation. *)
Definition inFixedRange (x : Number) : bool :=
  match Prim2SF x with
  | S754_zero _ => true
  | S754_finite _ m e => negb (atLeast1e21 m e)
  | _ => false
  end.

End JSNumber.

Import JSString JSNumber.

(** ** The three.js objects the exporter reads *)

Module Vector3.
Record t := mk { x : Number; y : Number; z : Number }.
End Vector3.

Module Quaternion.
Record t := mk { x : Number; y : Number; z : Number; w : Number }.
End Quaternion.

Module Euler.
Record t := mk { x : Number; y : Number; z : Number }.
End Euler.

Module Three.

(** A reference to a scene-graph object. *)
Definition ref := nat.

(** The fields of an [Object3D] read by the exporter. [name] is [None] when
    the property is absent; [id] comes from three.js's integer counter;
    [isBone] is set on [Bone] objects only. *)
Record Object3D := {
  id : N;
  name : option string;
  isBone : bool;
  parent : option ref;
  children : list ref;
  position : Vector3.t;
  quaternion : Quaternion.t
}.

(** The store of scene-graph objects: every reference names an object, and
    [parent] and [children] links may form any graph. *)
Definition Scene := ref -> Object3D.

(** The two functions of the imported [THREE] namespace used by the motion
    serializer: [new THREE.Euler().setFromQuaternion(q, order)] and
    [THREE.MathUtils.radToDeg]. *)
Record Library := {
  setFromQuaternion : Quaternion.t -> string -> Euler.t;
  radToDeg : Number -> Number
}.

End Three.

Import Three.

(** ** The browser side of a download *)

Module DOM.

Record Blob := { parts : string; type : string }.

(** The anchor element created for the download. *)
Record Anchor := { href : nat; download : string }.

(** Live object URLs, the next URL to hand out, the children of
    [document.body], and the files saved so far (name and content). *)
Record Browser := {
  objectURLs : list (nat * Blob);
  nextURL : nat;
  body : list Anchor;
  saved : list (string * Blob)
}.

Definition createObjectURL (blob : Blob) (w : Browser) : nat * Browser :=
  (nextURL w,
   {| objectURLs := (nextURL w, blob) :: objectURLs w; nextURL := S (nextURL w);
      body := body w; saved := saved w |}).

Definition appendChild (a : Anchor) (w : Browser) : Browser :=
  {| objectURLs := objectURLs w; nextURL := nextURL w;
     body := body w ++ [a]; saved := saved w |}.

(** Clicking an anchor with a [download] attribute saves the blob its
    [href] names under that file name. *)
Definition click (a : Anchor) (w : Browser) : Browser :=
  match List.find (fun u => Nat.eqb (fst u) (href a)) (objectURLs w) with
  | Some (_, blob) =>
      {| objectURLs := objectURLs w; nextURL := nextURL w;
         body := body w; saved := saved w ++ [(download a, blob)] |}
  | None => w
  end.

(** Removes the child appended last. *)
Definition removeChild (w : Browser) : Browser :=
  {| objectURLs := objectURLs w; nextURL := nextURL w;
     body := List.removelast (body w); saved := saved w |}.

Definition revokeObjectURL (url : nat) (w : Browser) : Browser :=
  {| objectURLs := List.filter (fun u => negb (Nat.eqb (fst u) url)) (objectURLs w);
     nextURL := nextURL w; body := body w; saved := saved w |}.

End DOM.

Import DOM.

(** ** The exporter *)

(** A marker of [boneDots]; the exporter reads [dot.userData.bone]. *)
Record Mesh := { userData_bone : ref }.

Section Exporter.

Variable THREE : Library.
Variable scene : Scene.

(** [buildBVHHierarchy(bone, level)]. The bone graph is not checked for
    cycles, so the recursion is bounded by [fuel]; [None] is a run that
    needs more of it. *)
Fixpoint buildBVHHierarchy (fuel : nat) (bone : ref) (level : nat) : option string :=
  match fuel with
  | O => None
  | S fuel' =>
      let indent := repeat "  " level in
      let str := indent ++ "JOINT " ++
        (match name (scene bone) with
         | Some (String c n) => String c n
         | _ => "Bone_" ++ decimal (Z.of_N (id (scene bone)))
         end) ++ LF in
      let str := str ++ indent ++ "{" ++ LF in
      let str := str ++ indent ++ "  OFFSET "
        ++ toFixed (Vector3.x (position (scene bone))) 6 ++ " "
        ++ toFixed (Vector3.y (position (scene bone))) 6 ++ " "
        ++ toFixed (Vector3.z (position (scene bone))) 6 ++ LF in
      let str := str ++ indent
        ++ "  CHANNELS 6 Xposition Yposition Zposition Xrotation Yrotation Zrotation" ++ LF in
      let children := filter (fun child => isBone (scene child)) (children (scene bone)) in
      let str :=
        if (0 <? List.length children)%nat then
          fold_left
            (fun acc child =>
               match acc with
               | Some str =>
                   match buildBVHHierarchy fuel' child (level + 1) with
                   | Some s => Some (str ++ s)
                   | None => None
                   end
               | None => None
               end)
            children (Some str)
        else
          let str := str ++ indent ++ "  End Site" ++ LF in
          let str := str ++ indent ++ "  {" ++ LF in
          let str := str ++ indent ++ "    OFFSET 0.0 0.0 0.0" ++ LF in
          let str := str ++ indent ++ "  }" ++ LF in
          Some str in
      match str with
      | Some str =>
          let str := str ++ indent ++ "}" ++ LF in
          Some (replace ("HIERARCHY" ++ LF ++ "JOINT") ("HIERARCHY" ++ LF ++ "ROOT") str)
      | None => None
      end
  end.

(** [buildBVHMotion(bones)]. *)
Definition buildBVHMotion (bones : list ref) : string :=
  let motion :=
    fold_left
      (fun motion bone =>
         let pos := position (scene bone) in
         let rot := setFromQuaternion THREE (quaternion (scene bone)) "XYZ" in
         let posValues :=
           toFixed (Vector3.x pos) 6 ++ " " ++ toFixed (Vector3.y pos) 6 ++ " "
           ++ toFixed (Vector3.z pos) 6 in
         let rotValues :=
           toFixed (radToDeg THREE (Euler.x rot)) 6 ++ " "
           ++ toFixed (radToDeg THREE (Euler.y rot)) 6 ++ " "
           ++ toFixed (radToDeg THREE (Euler.z rot)) 6 in
         motion ++ posValues ++ " " ++ rotValues ++ " ")
      bones "" in
  trim motion ++ LF.

(** The test of [bones.find] in [exportToBVH]:
    [!bone.parent || !bone.parent.isBone]. *)
Definition hasNoBoneParent (bone : ref) : bool :=
  match parent (scene bone) with
  | None => true
  | Some p => negb (isBone (scene p))
  end.

(** [exportToBVH()], reading the module's [boneDots] and acting on the
    browser. [None] is a run whose hierarchy needs more fuel. *)
Definition exportToBVH (fuel : nat) (boneDots : list Mesh) (w : Browser) : option Browser :=
  let bones := map userData_bone boneDots in
  match bones with
  | [] => Some w
  | first :: _ =>
      let bvhString := "HIERARCHY" ++ LF in
      let rootBone :=
        match find hasNoBoneParent bones with
        | Some bone => bone
        | None => first
        end in
      match buildBVHHierarchy fuel rootBone 0 with
      | None => None
      | Some hierarchy =>
          let bvhString := bvhString ++ hierarchy in
          let bvhString := bvhString ++ "MOTION" ++ LF in
          let bvhString := bvhString ++ "Frames: 1" ++ LF in
          let bvhString := bvhString ++ "Frame Time: 0.033333" ++ LF in
          let bvhString := bvhString ++ buildBVHMotion bones in
          let blob := {| parts := bvhString; type := "text/plain" |} in
          let (url, w) := createObjectURL blob w in
          let link := {| href := url; download := "animation.bvh" |} in
          let w := appendChild link w in
          let w := click link w in
          let w := removeChild w in
          Some (revokeObjectURL url w)
      end
  end.

End Exporter.

(** ** The second copy of the exporter

    The repository's other source file holds the same exporter; it differs
    from [js/main.js] only in the last line of [buildBVHHierarchy], which
    returns [str] unchanged, and in declaring [fixRootBone], which no
    function calls. *)

Module Variant.

Section Exporter.

Variable THREE : Library.
Variable scene : Scene.

Fixpoint buildBVHHierarchy (fuel : nat) (bone : ref) (level : nat) : option string :=
  match fuel with
  | O => None
  | S fuel' =>
      let indent := repeat "  " level in
      let str := indent ++ "JOINT " ++
        (match name (scene bone) with
         | Some (String c n) => String c n
         | _ => "Bone_" ++ decimal (Z.of_N (id (scene bone)))
         end) ++ LF in
      let str := str ++ indent ++ "{" ++ LF in
      let str := str ++ indent ++ "  OFFSET "
        ++ toFixed (Vector3.x (position (scene bone))) 6 ++ " "
        ++ toFixed (Vector3.y (position (scene bone))) 6 ++ " "
        ++ toFixed (Vector3.z (position (scene bone))) 6 ++ LF in
      let str := str ++ indent
        ++ "  CHANNELS 6 Xposition Yposition Zposition Xrotation Yrotation Zrotation" ++ LF in
      let children := filter (fun child => isBone (scene child)) (children (scene bone)) in
      let str :=
        if (0 <? List.length children)%nat then
          fold_left
            (fun acc child =>
               match acc with
               | Some str =>
                   match buildBVHHierarchy fuel' child (level + 1) with
                   | Some s => Some (str ++ s)
                   | None => None
                   end
               | None => None
               end)
            children (Some str)
        else
          let str := str ++ indent ++ "  End Site" ++ LF in
          let str := str ++ indent ++ "  {" ++ LF in
          let str := str ++ indent ++ "    OFFSET 0.0 0.0 0.0" ++ LF in
          let str := str ++ indent ++ "  }" ++ LF in
          Some str in
      match str with
      | Some str => Some (str ++ indent ++ "}" ++ LF)
      | None => None
      end
  end.

(** [fixRootBone(bvhString)]: replace 'JOINT' with 'ROOT' for the first
    bone. *)
Definition fixRootBone (bvhString : string) : string :=
  replace ("HIERARCHY" ++ LF ++ "JOINT") ("HIERARCHY" ++ LF ++ "ROOT") bvhString.

Definition exportToBVH (fuel : nat) (boneDots : list Mesh) (w : Browser) : option Browser :=
  let bones := map userData_bone boneDots in
  match bones with
  | [] => Some w
  | first :: _ =>
      let bvhString := "HIERARCHY" ++ LF in
      let rootBone :=
        match find (hasNoBoneParent scene) bones with
        | Some bone => bone
        | None => first
        end in
      match buildBVHHierarchy fuel rootBone 0 with
      | None => None
      | Some hierarchy =>
          let bvhString := bvhString ++ hierarchy in
          let bvhString := bvhString ++ "MOTION" ++ LF in
          let bvhString := bvhString ++ "Frames: 1" ++ LF in
          let bvhString := bvhString ++ "Frame Time: 0.033333" ++ LF in
          let bvhString := bvhString ++ buildBVHMotion THREE scene bones in
          let blob := {| parts := bvhString; type := "text/plain" |} in
          let (url, w) := createObjectURL blob w in
          let link := {| href := url; download := "animation.bvh" |} in
          let w := appendChild link w in
          let w := click link w in
          let w := removeChild w in
          Some (revokeObjectURL url w)
      end
  end.

End Exporter.

End Variant.

(** ** Notions used to state the exporter's properties *)

(** The rewrite of [Variant.fixRootBone], which [js/main.js] applies to the
    result of every call of [buildBVHHierarchy]. *)
Definition rootRewrite (s : string) : string :=
  replace ("HIERARCHY" ++ LF ++ "JOINT") ("HIERARCHY" ++ LF ++ "ROOT") s.

Fixpoint concatAll (l : list string) : string :=
  match l with
  | [] => EmptyString
  | s :: l' => s ++ concatAll l'
  end.

(** The text made of the given lines, each ended by a line feed. *)
Definition unlines (ls : list string) : string :=
  concatAll (map (fun l => l ++ LF) ls).

(** All results of [f] on a list, when every one exists. *)
Fixpoint mapM {A B : Type} (f : A -> option B) (l : list A) : option (list B) :=
  match l with
  | [] => Some []
  | a :: l' =>
      match f a, mapM f l' with
      | Some b, Some bs => Some (b :: bs)
      | _, _ => None
      end
  end.

(** The document assembled by [exportToBVH] around a hierarchy block and a
    motion line. *)
Definition document (hierarchy motion : string) : string :=
  "HIERARCHY" ++ LF ++ hierarchy
  ++ "MOTION" ++ LF ++ "Frames: 1" ++ LF ++ "Frame Time: 0.033333" ++ LF
  ++ motion.

(** The browser after a text was offered as the download [animation.bvh]:
    one more file saved, one more URL number used, nothing else changed. *)
Definition downloaded (doc : string) (w : Browser) : Browser :=
  {| objectURLs :=
       filter (fun u => negb (Nat.eqb (fst u) (nextURL w))) (objectURLs w);
     nextURL := S (nextURL w);
     body := removelast (body w ++ [{| href := nextURL w; download := "animation.bvh" |}]);
     saved := saved w ++ [("animation.bvh", {| parts := doc; type := "text/plain" |})] |}.

Section Notions.

Variable THREE : Library.
Variable scene : Scene.

(** The bone-typed children of a bone, in their order in [children]. *)
Definition boneChildren (bone : ref) : list ref :=
  filter (fun child => isBone (scene child)) (children (scene bone)).

(** [child] is a bone-typed child of [bone]. *)
Definition boneChild (bone child : ref) : Prop := In child (boneChildren bone).

(** Reachable from [root] through bone-typed child links. *)
Definition reachable (root bone : ref) : Prop :=
  clos_refl_trans ref boneChild root bone.

(** No infinite descent through bone-typed child links below [bone]. *)
Definition acyclicBelow (bone : ref) : Prop :=
  Acc (fun child parent => boneChild parent child) bone.

(** Below [root] the bones form a tree, as the scene graph keeps them: a
    bone reachable from [root] lists none of its bone children twice, and is
    the [parent] of each of them. *)
Definition treeBelow (root : ref) : Prop :=
  forall p, reachable root p ->
    NoDup (boneChildren p)
    /\ forall c, boneChild p c -> parent (scene c) = Some p.

(** The label of a joint: [bone.name || `Bone_${bone.id}`]. *)
Definition jointLabel (bone : ref) : string :=
  match name (scene bone) with
  | Some (String c n) => String c n
  | _ => "Bone_" ++ decimal (Z.of_N (id (scene bone)))
  end.

(** The numbers behind a joint's OFFSET line: the local position. *)
Definition offsetNumbers (bone : ref) : list Number :=
  let pos := position (scene bone) in
  [Vector3.x pos; Vector3.y pos; Vector3.z pos].

(** The three values of a joint's OFFSET line. *)
Definition offsetValues (bone : ref) : list string :=
  let pos := position (scene bone) in
  [toFixed (Vector3.x pos) 6; toFixed (Vector3.y pos) 6; toFixed (Vector3.z pos) 6].

(** The lines that open a joint block: header, brace, OFFSET, CHANNELS. *)
Definition jointOpen (bone : ref) (level : nat) : string :=
  let indent := repeat "  " level in
  indent ++ "JOINT " ++ jointLabel bone ++ LF
  ++ indent ++ "{" ++ LF
  ++ indent ++ "  OFFSET " ++ String.concat " " (offsetValues bone) ++ LF
  ++ indent ++ "  CHANNELS 6 Xposition Yposition Zposition Xrotation Yrotation Zrotation" ++ LF.

(** The End Site sub-block of a joint at [level]. *)
Definition endSite (level : nat) : string :=
  let indent := repeat "  " level in
  indent ++ "  End Site" ++ LF
  ++ indent ++ "  {" ++ LF
  ++ indent ++ "    OFFSET 0.0 0.0 0.0" ++ LF
  ++ indent ++ "  }" ++ LF.

(** The numbers behind a bone's six motion values: local position, then
    the rotation as XYZ Euler angles in degrees. *)
Definition channelNumbers (bone : ref) : list Number :=
  let pos := position (scene bone) in
  let rot := setFromQuaternion THREE (quaternion (scene bone)) "XYZ" in
  [Vector3.x pos; Vector3.y pos; Vector3.z pos;
   radToDeg THREE (Euler.x rot); radToDeg THREE (Euler.y rot); radToDeg THREE (Euler.z rot)].

(** The six motion values of a bone. *)
Definition channelValues (bone : ref) : list string :=
  map (fun v => toFixed v 6) (channelNumbers bone).

(** The bone's parent is absent, or is not itself a bone. *)
Definition parentAbsentOrNoBone (bone : ref) : Prop :=
  parent (scene bone) = None
  \/ exists p, parent (scene bone) = Some p /\ isBone (scene p) = false.

(** The traversal root chosen by [exportToBVH] ([None] on no bones). *)
Definition rootBone (bones : list ref) : option ref :=
  match find (hasNoBoneParent scene) bones with
  | Some bone => Some bone
  | None => hd_error bones
  end.

End Notions.

(** Two scenes hold the same skeleton and pose for a bone set: the same
    objects are bones, every bone is the same object in both, and so is
    every member of the set. *)
Definition sameSkeleton (scene scene' : Scene) (bones : list ref) : Prop :=
  (forall r, isBone (scene' r) = isBone (scene r))
  /\ (forall r, isBone (scene r) = true -> scene' r = scene r)
  /\ (forall b, In b bones -> scene' b = scene b).

(** The calls of [buildBVHHierarchy]: one joint per call, with the joints of
    the nested calls in order. *)
#[warnings="-register-all"]
Inductive JointTree : Type :=
| Joint (bone : ref) (nested : list JointTree).

Section Traversal.

Variable scene : Scene.

(** The call tree of [buildBVHHierarchy fuel bone]. *)
Fixpoint boneTree (fuel : nat) (bone : ref) : option JointTree :=
  match fuel with
  | O => None
  | S fuel' =>
      match mapM (boneTree fuel') (boneChildren scene bone) with
      | Some nested => Some (Joint bone nested)
      | None => None
      end
  end.

(** The bones of a call tree in the order their joint headers are emitted
    (depth first, parents before children). *)
Fixpoint preorder (t : JointTree) : list ref :=
  match t with
  | Joint bone nested => bone :: flat_map preorder nested
  end.

(** The text of a call tree at a level: the joint's opening lines, then an
    End Site block for a leaf or the nested joints' texts, then the closing
    brace; [js/main.js] passes each block through the root rewrite. *)
Fixpoint render (t : JointTree) (level : nat) : string :=
  match t with
  | Joint bone nested =>
      rootRewrite
        (jointOpen scene bone level
         ++ match nested with
            | [] => endSite level
            | _ => concatAll (map (fun k => render k (level + 1)) nested)
            end
         ++ repeat "  " level ++ "}" ++ LF)
  end.

End Traversal.

(** ** Notions on the text of a document *)

(** The lines of a text. *)
Definition lines (s : string) : list string := split (ascii_of_nat 10) s.

(** Every character of [s] passes the test [p]. *)
Fixpoint allChars (p : ascii -> bool) (s : string) : bool :=
  match s with
  | EmptyString => true
  | String c s' => p c && allChars p s'
  end.

Definition allDigits (s : string) : bool := allChars isDigit s.

(** The character [c] does not occur in [s]. *)
Definition lacks (c : ascii) (s : string) : bool :=
  allChars (fun c' => negb (Ascii.eqb c' c)) s.

Definition notWhiteSpace (c : ascii) : bool := negb (isWhiteSpace c).

(** A token: not empty, and free of white space. *)
Definition isToken (s : string) : bool :=
  negb (String.eqb s "") && allChars notWhiteSpace s.

(** Fixed-point notation with exactly six digits after the point: an optional
    minus sign, one or more digits, a point, six digits. *)
Definition isFixed6 (s : string) : bool :=
  let s := match s with String "-" s' => s' | _ => s end in
  match split "." s with
  | [a; b] =>
      negb (String.eqb a "") && allDigits a && allDigits b
      && Nat.eqb (String.length b) 6
  | _ => false
  end.

(** The values of the OFFSET lines of a text: for every line that reads
    OFFSET after its indentation, the space-separated tokens that follow. *)
Definition offsetTokens (doc : string) : list string :=
  flat_map
    (fun line =>
       let l := trimStart line in
       if startsWith l "OFFSET " then split " " (drop 7 l) else [])
    (lines doc).

(** Lines without line feeds, none of which starts with JOINT. *)
Definition calm (ls : list string) : Prop :=
  Forall (fun l => lacks (ascii_of_nat 10) l = true) ls
  /\ Forall (fun l => startsWith l "JOINT" = false) ls.

(** The last line of a text that ends with a line feed. *)
Definition lastLine (doc : string) : string :=
  nth (List.length (lines doc) - 2) (lines doc) EmptyString.

(** The space-separated tokens of the motion line of a document. *)
Definition motionTokens (doc : string) : list string := split " " (lastLine doc).

(** The [n]th group of six tokens, counting from 0. *)
Definition group (n : nat) (tokens : list string) : list string :=
  firstn 6 (skipn (6 * n) tokens).

Fixpoint eqbList (a b : list string) : bool :=
  match a, b with
  | [], [] => true
  | x :: a', y :: b' => String.eqb x y && eqbList a' b'
  | _, _ => false
  end.

(** ** Sample skeletons *)

Module Samples.

Local Open Scope float_scope.

(** A [THREE] to run the examples with; [radToDeg] multiplies by
    [180 / Math.PI] as three.js does, and every rotation is read as the
    identity. No theorem below depends on this choice. *)
Definition three : Library :=
  {| setFromQuaternion := fun _ _ => Euler.mk 0 0 0;
     radToDeg := fun r => r * 0x1.ca5dc1a63c1f8p+5 |}.

Definition identity : Quaternion.t := Quaternion.mk 0 0 0 1.

Definition object (i : N) (n : option string) (bone : bool) (p : option ref)
    (cs : list ref) (px py pz : Number) : Object3D :=
  {| id := i; name := n; isBone := bone; parent := p; children := cs;
     position := Vector3.mk px py pz; quaternion := identity |}.

(** The scene root: not a bone. *)
Definition sceneRoot (cs : list ref) : Object3D :=
  object 0 (Some "Scene") false None cs 0 0 0.

(** Root R at the origin, its child A at (1,0,0), A's leaf child B at
    (0,1,0); R hangs under the scene root (object 0). *)
Definition chain : Scene := fun r =>
  match r with
  | 1 => object 1 (Some "R") true (Some 0%nat) [2%nat] 0 0 0
  | 2 => object 2 (Some "A") true (Some 1%nat) [3%nat] 1 0 0
  | 3 => object 3 (Some "B") true (Some 2%nat) [] 0 1 0
  | _ => sceneRoot [1%nat]
  end.

(** A single unnamed bone at (1, 0, -2.5). *)
Definition single : Scene := fun r =>
  match r with
  | 1 => object 7 None true (Some 0%nat) [] 1 0 (-2.5)
  | _ => sceneRoot [1%nat]
  end.

(** A bone that lists itself among its children. *)
Definition looped : Scene := fun r =>
  match r with
  | 1 => object 1 (Some "R") true (Some 1%nat) [1%nat] 0 0 0
  | _ => sceneRoot []
  end.

(** Root R with bone children A and B, and a separate root bone X. *)
Definition forest : Scene := fun r =>
  match r with
  | 1 => object 1 (Some "R") true (Some 0%nat) [2%nat; 3%nat] 0 0 0
  | 2 => object 2 (Some "A") true (Some 1%nat) [] 1 0 0
  | 3 => object 3 (Some "B") true (Some 1%nat) [] 0 1 0
  | 4 => object 4 (Some "X") true (Some 0%nat) [] 5 5 5
  | _ => sceneRoot [1%nat; 4%nat]
  end.

(** The chain R, A, B with a mesh under R that is not a bone and whose name
    holds a line feed. *)
Definition meshed : Scene := fun r =>
  match r with
  | 1 => object 1 (Some "R") true (Some 0%nat) [5%nat; 2%nat] 0 0 0
  | 2 => object 2 (Some "A") true (Some 1%nat) [3%nat] 1 0 0
  | 3 => object 3 (Some "B") true (Some 2%nat) [] 0 1 0
  | 5 => object 5 (Some ("Body" ++ LF ++ "JOINT skin")) false (Some 1%nat) [] 0 0 0
  | _ => sceneRoot [1%nat]
  end.


(** A single bone named Far whose position is (1e21, infinity, 0.5). *)
Definition distant : Scene := fun r =>
  match r with
  | 1 => object 1 (Some "Far") true (Some 0%nat) [] 1e21 infinity 0.5
  | _ => sceneRoot [1%nat]
  end.

Definition dots (bones : list ref) : list Mesh := map Build_Mesh bones.

Definition emptyBrowser : Browser :=
  {| objectURLs := []; nextURL := 0; body := []; saved := [] |}.

End Samples.

Import Samples.

(** ** The lines of a hierarchy block *)

Section BlockLines.

Variable scene : Scene.

(** The lines of the block of a call tree at a level, in order. *)
Fixpoint blockLines (t : JointTree) (level : nat) : list string :=
  match t with
  | Joint bone nested =>
      let indent := repeat "  " level in
      List.app
        [indent ++ "JOINT " ++ jointLabel scene bone;
         indent ++ "{";
         indent ++ "  OFFSET " ++ String.concat " " (offsetValues scene bone);
         indent ++ "  CHANNELS 6 Xposition Yposition Zposition Xrotation Yrotation Zrotation"]
        (List.app
           match nested with
           | [] => [indent ++ "  End Site"; indent ++ "  {";
                    indent ++ "    OFFSET 0.0 0.0 0.0"; indent ++ "  }"]
           | _ => flat_map (fun k => blockLines k (level + 1)) nested
           end
           [indent ++ "}"])
  end.

End BlockLines.

(** The number of joints of a call tree that have no nested joint. *)
Fixpoint leaves (t : JointTree) : nat :=
  match t with
  | Joint _ nested =>
      match nested with
      | [] => 1
      | _ => list_sum (map leaves nested)
      end
  end.

(** The number of joints of a call tree. *)
Definition joints (t : JointTree) : nat := List.length (preorder t).

(** The line reads [w] after its indentation. *)
Definition reads (w line : string) : bool := String.eqb (trimStart line) w.

(** The line starts with [w] after its indentation. *)
Definition opens (w line : string) : bool := startsWith (trimStart line) w.

(** How many of the lines pass a test. *)
Definition countLines (p : string -> bool) (ls : list string) : nat :=
  List.length (filter p ls).

(** Live object URLs were all handed out before the next one. *)
Definition urlsInUse (w : Browser) : Prop :=
  Forall (fun u => fst u < nextURL w) (objectURLs w).

(** ** The page around the exporter: markers, lines, selection, keys *)

Module Page.

(** The module's variables and the three.js objects they reach:
    - [objects]: every three.js object, by reference;
    - [materialColor]: [material.color] of a marker or line, as a hex number;
    - [linePositions]: [geometry.attributes.position.array] of a line;
    - [needsUpdate]: [geometry.attributes.position.needsUpdate] of a line;
    - [skeleton]: [skeleton.bones] of a skinned mesh;
    - [nextRef]: the reference the next [new] object gets;
    - [scene]: [scene];
    - [selectedBone]: [selectedBone]; [None] is [null];
    - [currentModel]: [currentModel]; [None] is [undefined];
    - [boneDots]: [boneDots]: each marker with its [userData.bone];
    - [boneLines]: [boneLines];
    - [controlsObject]: the object [transformControls] is attached to;
    - [controlsMode]: the mode of [transformControls];
    - [browser]: the browser side of downloads;
    A marker's [userData.bone] is set when the marker is made and never
    assigned again, so it is kept with the marker in [boneDots]. *)
Record State := {
  objects : Scene;
  materialColor : ref -> Z;
  linePositions : ref -> list Number;
  needsUpdate : ref -> bool;
  skeleton : ref -> list ref;
  nextRef : ref;
  scene : ref;
  selectedBone : option ref;
  currentModel : option ref;
  boneDots : list (ref * ref);
  boneLines : list ref;
  controlsObject : option ref;
  controlsMode : string;
  browser : Browser
}.


Definition with_objects (st : State) (v : Scene) : State :=
  {| objects := v;
     materialColor := materialColor st;
     linePositions := linePositions st;
     needsUpdate := needsUpdate st;
     skeleton := skeleton st;
     nextRef := nextRef st;
     scene := scene st;
     selectedBone := selectedBone st;
     currentModel := currentModel st;
     boneDots := boneDots st;
     boneLines := boneLines st;
     controlsObject := controlsObject st;
     controlsMode := controlsMode st;
     browser := browser st |}.

Definition with_materialColor (st : State) (v : ref -> Z) : State :=
  {| objects := objects st;
     materialColor := v;
     linePositions := linePositions st;
     needsUpdate := needsUpdate st;
     skeleton := skeleton st;
     nextRef := nextRef st;
     scene := scene st;
     selectedBone := selectedBone st;
     currentModel := currentModel st;
     boneDots := boneDots st;
     boneLines := boneLines st;
     controlsObject := controlsObject st;
     controlsMode := controlsMode st;
     browser := browser st |}.

Definition with_linePositions (st : State) (v : ref -> list Number) : State :=
  {| objects := objects st;
     materialColor := materialColor st;
     linePositions := v;
     needsUpdate := needsUpdate st;
     skeleton := skeleton st;
     nextRef := nextRef st;
     scene := scene st;
     selectedBone := selectedBone st;
     currentModel := currentModel st;
     boneDots := boneDots st;
     boneLines := boneLines st;
     controlsObject := controlsObject st;
     controlsMode := controlsMode st;
     browser := browser st |}.

Definition with_needsUpdate (st : State) (v : ref -> bool) : State :=
  {| objects := objects st;
     materialColor := materialColor st;
     linePositions := linePositions st;
     needsUpdate := v;
     skeleton := skeleton st;
     nextRef := nextRef st;
     scene := scene st;
     selectedBone := selectedBone st;
     currentModel := currentModel st;
     boneDots := boneDots st;
     boneLines := boneLines st;
     controlsObject := controlsObject st;
     controlsMode := controlsMode st;
     browser := browser st |}.

Definition with_nextRef (st : State) (v : ref) : State :=
  {| objects := objects st;
     materialColor := materialColor st;
     linePositions := linePositions st;
     needsUpdate := needsUpdate st;
     skeleton := skeleton st;
     nextRef := v;
     scene := scene st;
     selectedBone := selectedBone st;
     currentModel := currentModel st;
     boneDots := boneDots st;
     boneLines := boneLines st;
     controlsObject := controlsObject st;
     controlsMode := controlsMode st;
     browser := browser st |}.

Definition with_selectedBone (st : State) (v : option ref) : State :=
  {| objects := objects st;
     materialColor := materialColor st;
     linePositions := linePositions st;
     needsUpdate := needsUpdate st;
     skeleton := skeleton st;
     nextRef := nextRef st;
     scene := scene st;
     selectedBone := v;
     currentModel := currentModel st;
     boneDots := boneDots st;
     boneLines := boneLines st;
     controlsObject := controlsObject st;
     controlsMode := controlsMode st;
     browser := browser st |}.

Definition with_boneDots (st : State) (v : list (ref * ref)) : State :=
  {| objects := objects st;
     materialColor := materialColor st;
     linePositions := linePositions st;
     needsUpdate := needsUpdate st;
     skeleton := skeleton st;
     nextRef := nextRef st;
     scene := scene st;
     selectedBone := selectedBone st;
     currentModel := currentModel st;
     boneDots := v;
     boneLines := boneLines st;
     controlsObject := controlsObject st;
     controlsMode := controlsMode st;
     browser := browser st |}.

Definition with_boneLines (st : State) (v : list ref) : State :=
  {| objects := objects st;
     materialColor := materialColor st;
     linePositions := linePositions st;
     needsUpdate := needsUpdate st;
     skeleton := skeleton st;
     nextRef := nextRef st;
     scene := scene st;
     selectedBone := selectedBone st;
     currentModel := currentModel st;
     boneDots := boneDots st;
     boneLines := v;
     controlsObject := controlsObject st;
     controlsMode := controlsMode st;
     browser := browser st |}.

Definition with_controlsObject (st : State) (v : option ref) : State :=
  {| objects := objects st;
     materialColor := materialColor st;
     linePositions := linePositions st;
     needsUpdate := needsUpdate st;
     skeleton := skeleton st;
     nextRef := nextRef st;
     scene := scene st;
     selectedBone := selectedBone st;
     currentModel := currentModel st;
     boneDots := boneDots st;
     boneLines := boneLines st;
     controlsObject := v;
     controlsMode := controlsMode st;
     browser := browser st |}.

Definition with_controlsMode (st : State) (v : string) : State :=
  {| objects := objects st;
     materialColor := materialColor st;
     linePositions := linePositions st;
     needsUpdate := needsUpdate st;
     skeleton := skeleton st;
     nextRef := nextRef st;
     scene := scene st;
     selectedBone := selectedBone st;
     currentModel := currentModel st;
     boneDots := boneDots st;
     boneLines := boneLines st;
     controlsObject := controlsObject st;
     controlsMode := v;
     browser := browser st |}.

Definition with_browser (st : State) (v : Browser) : State :=
  {| objects := objects st;
     materialColor := materialColor st;
     linePositions := linePositions st;
     needsUpdate := needsUpdate st;
     skeleton := skeleton st;
     nextRef := nextRef st;
     scene := scene st;
     selectedBone := selectedBone st;
     currentModel := currentModel st;
     boneDots := boneDots st;
     boneLines := boneLines st;
     controlsObject := controlsObject st;
     controlsMode := controlsMode st;
     browser := v |}.

(** How a function of the page ends: it returns, it throws (a [TypeError] on
    reading a property of [undefined] or [null]) in the state reached so far,
    or its hierarchy recursion needs more fuel. *)
Inductive outcome : Type :=
| Returned (st : State)
| Threw (st : State)
| Unfinished.

(** [f] with the value at [r] replaced. *)
Definition update {A : Type} (f : ref -> A) (r : ref) (v : A) : ref -> A :=
  fun r' => if Nat.eqb r' r then v else f r'.

Definition setParent (o : Object3D) (p : option ref) : Object3D :=
  {| id := id o; name := name o; isBone := isBone o; parent := p;
     children := children o; position := position o; quaternion := quaternion o |}.

Definition setChildren (o : Object3D) (cs : list ref) : Object3D :=
  {| id := id o; name := name o; isBone := isBone o; parent := parent o;
     children := cs; position := position o; quaternion := quaternion o |}.

(** [o.position.copy(v)]. *)
Definition setPosition (o : Object3D) (v : Vector3.t) : Object3D :=
  {| id := id o; name := name o; isBone := isBone o; parent := parent o;
     children := children o;
     position := Vector3.mk (Vector3.x v) (Vector3.y v) (Vector3.z v);
     quaternion := quaternion o |}.

(** The list without the first occurrence of [x]: [splice(indexOf(x), 1)]. *)
Fixpoint removeFirst (x : ref) (l : list ref) : list ref :=
  match l with
  | [] => []
  | y :: l' => if Nat.eqb y x then l' else y :: removeFirst x l'
  end.

(** three.js's [this.remove(object)]: a child is unlinked, anything else is
    left alone. *)
Definition Object3D_remove (h : Scene) (this object : ref) : Scene :=
  if existsb (Nat.eqb object) (children (h this)) then
    let h := update h object (setParent (h object) None) in
    update h this (setChildren (h this) (removeFirst object (children (h this))))
  else h.

(** three.js's [this.add(object)]: the object leaves its parent, if it has
    one, and becomes the last child of [this]; adding an object to itself is
    refused. *)
Definition Object3D_add (h : Scene) (this object : ref) : Scene :=
  if Nat.eqb object this then h
  else
    let h := match parent (h object) with
             | Some p => Object3D_remove h p object
             | None => h
             end in
    let h := update h object (setParent (h object) (Some this)) in
    update h this (setChildren (h this) (children (h this) ++ [object])%list).

(** A [new] three.js object: unnamed, no parent, no children, at the origin;
    its [id] comes from three.js's counter, for which the reference
    stands. *)
Definition newObject3D (r : ref) : Object3D :=
  {| id := N.of_nat r; name := Some ""; isBone := false; parent := None;
     children := []; position := Vector3.mk 0%float 0%float 0%float;
     quaternion := Quaternion.mk 0%float 0%float 0%float 1%float |}.

(** The value a [Float32Array] element keeps of a Number: the nearest
    binary32 value. *)
Definition fround (x : Number) : Number :=
  match Prim2SF x with
  | S754_finite s m e => SF2Prim (binary_round 24 128 s m e)
  | _ => x
  end.

(** [positions[i] = v] on a [Float32Array]: out of range it does nothing. *)
Fixpoint writeFloat32 (positions : list Number) (i : nat) (v : Number) : list Number :=
  match positions, i with
  | [], _ => []
  | _ :: ps, O => fround v :: ps
  | p :: ps, S i' => p :: writeFloat32 ps i' v
  end.

(** [z || 0] on a Number: [NaN] and both zeros are falsy and give [+0]. *)
Definition orZero (z : Number) : Number :=
  if (PrimFloat.is_nan z || PrimFloat.is_zero z)%bool then 0%float else z.

Definition white : Z := 16777215.
Definition green : Z := 65280.

(** The body of the [forEach] of [visualizeSkeleton], for one bone. *)
Definition visualizeBone (st : State) (bone : ref) : State :=
  let dot := nextRef st in
  let st := with_nextRef st (S dot) in
  let st := with_objects st (update (objects st) dot (newObject3D dot)) in
  let st := with_materialColor st (update (materialColor st) dot white) in
  let st := with_objects st
              (update (objects st) dot
                 (setPosition (objects st dot) (position (objects st bone)))) in
  let st := with_objects st (Object3D_add (objects st) (scene st) dot) in
  let st := with_boneDots st (boneDots st ++ [(dot, bone)])%list in
  match parent (objects st bone) with
  | Some p =>
      if isBone (objects st p) then
        let points :=
          map fround
            [Vector3.x (position (objects st bone));
             Vector3.y (position (objects st bone));
             orZero (Vector3.z (position (objects st bone)));
             Vector3.x (position (objects st p));
             Vector3.y (position (objects st p));
             orZero (Vector3.z (position (objects st p)))] in
        let line := nextRef st in
        let st := with_nextRef st (S line) in
        let st := with_objects st (update (objects st) line (newObject3D line)) in
        let st := with_linePositions st (update (linePositions st) line points) in
        let st := with_materialColor st (update (materialColor st) line white) in
        let st := with_objects st (Object3D_add (objects st) (scene st) line) in
        with_boneLines st (boneLines st ++ [line])%list
      else st
  | None => st
  end.

(** [visualizeSkeleton(skinnedMesh)]. *)
Definition visualizeSkeleton (st : State) (skinnedMesh : ref) : State :=
  fold_left visualizeBone (skeleton st skinnedMesh) st.

(** [boneDots.find(dot => dot.userData.bone === bone)]. *)
Definition findDot (st : State) (bone : ref) : option (ref * ref) :=
  find (fun dot => Nat.eqb (snd dot) bone) (boneDots st).

(** [selectBone(bone)]. *)
Definition selectBone (st : State) (bone : ref) : outcome :=
  match
    match selectedBone st with
    | Some selected =>
        match findDot st selected with
        | Some dot =>
            Returned (with_materialColor st (update (materialColor st) (fst dot) white))
        | None => Threw st
        end
    | None => Returned st
    end
  with
  | Returned st =>
      let st := with_selectedBone st (Some bone) in
      match findDot st bone with
      | Some dot =>
          let st := with_materialColor st (update (materialColor st) (fst dot) green) in
          Returned (with_controlsObject st (Some bone))
      | None => Threw st
      end
  | other => other
  end.

(** The part of [loadModel()] that runs at once: the previous model, if there
    is one, and the lines leave the scene, and both lists are emptied. The
    load it then starts completes later, in a callback. *)
Definition loadModel (st : State) : State :=
  match currentModel st with
  | Some model =>
      let st := with_objects st (Object3D_remove (objects st) (scene st) model) in
      let st := with_boneDots st [] in
      let st :=
        fold_left
          (fun st line =>
             with_objects st (Object3D_remove (objects st) (scene st) line))
          (boneLines st) st in
      with_boneLines st []
  | None => st
  end.

Section WithThree.

Variable THREE : Library.

(** [object.getWorldPosition(new THREE.Vector3())], read off the objects. *)
Variable getWorldPosition : Scene -> ref -> Vector3.t.

(** [new ColladaExporter().parse(model).data]; [None] when it throws. *)
Variable colladaData : Scene -> option ref -> option string.

(** The two loops of [animate()], which follow the calls that schedule the
    next frame and render this one. *)
Definition animate (st : State) : outcome :=
  let st :=
    fold_left
      (fun st dot =>
         with_objects st
           (update (objects st) (fst dot)
              (setPosition (objects st (fst dot))
                 (getWorldPosition (objects st) (snd dot)))))
      (boneDots st) st in
  fold_left
    (fun acc line =>
       match acc with
       | Returned st =>
           match parent (objects st line) with
           | None => Threw st
           | Some bone =>
               match parent (objects st bone) with
               | Some parentBone =>
                   if isBone (objects st parentBone) then
                     let positions := linePositions st line in
                     let bonePos := getWorldPosition (objects st) bone in
                     let parentPos := getWorldPosition (objects st) parentBone in
                     let positions := writeFloat32 positions 0 (Vector3.x bonePos) in
                     let positions := writeFloat32 positions 1 (Vector3.y bonePos) in
                     let positions := writeFloat32 positions 2 (Vector3.z bonePos) in
                     let positions := writeFloat32 positions 3 (Vector3.x parentPos) in
                     let positions := writeFloat32 positions 4 (Vector3.y parentPos) in
                     let positions := writeFloat32 positions 5 (Vector3.z parentPos) in
                     let st := with_linePositions st
                                 (update (linePositions st) line positions) in
                     Returned (with_needsUpdate st (update (needsUpdate st) line true))
                   else Returned st
               | None => Returned st
               end
           end
       | other => other
       end)
    (boneLines st) (Returned st).

(** [exportToBVH()] on the page: the markers as the exporter reads them. *)
Definition exportToBVH (fuel : nat) (st : State) : outcome :=
  match
    exportToBVH THREE (objects st) fuel
      (map (fun dot => Build_Mesh (snd dot)) (boneDots st)) (browser st)
  with
  | Some w => Returned (with_browser st w)
  | None => Unfinished
  end.

(** [exportToDAE()]. *)
Definition exportToDAE (st : State) : outcome :=
  match colladaData (objects st) (currentModel st) with
  | None => Threw st
  | Some data =>
      let blob := {| parts := data; type := "text/xml" |} in
      let (url, w) := createObjectURL blob (browser st) in
      let link := {| href := url; download := "deformed_model.dae" |} in
      let w := appendChild link w in
      let w := click link w in
      let w := removeChild w in
      Returned (with_browser st (revokeObjectURL url w))
  end.

(** [s.toLowerCase()] on the letters A to Z. *)
Fixpoint toLowerCase (s : string) : string :=
  match s with
  | EmptyString => EmptyString
  | String c s' =>
      let n := nat_of_ascii c in
      String (if ((65 <=? n) && (n <=? 90))%nat then ascii_of_nat (n + 32) else c)
        (toLowerCase s')
  end.

(** The [keydown] listener of [init()], for [event.key]. *)
Definition keydown (fuel : nat) (st : State) (key : string) : outcome :=
  if match selectedBone st with None => true | Some _ => false end
     && negb (String.eqb (toLowerCase key) "b")
  then Returned st
  else if String.eqb (toLowerCase key) "r" then Returned (with_controlsMode st "rotate")
  else if String.eqb (toLowerCase key) "s" then Returned (with_controlsMode st "scale")
  else if String.eqb (toLowerCase key) "t" then Returned (with_controlsMode st "translate")
  else if String.eqb (toLowerCase key) "b" then exportToBVH fuel st
  else Returned st.

End WithThree.

End Page.

(** ** Notions on the page *)

Section PageNotions.

Variable st : Page.State.

(** The color the selection gives a marker: green for the first marker of
    the selected bone, white for every other one. *)
Definition shownColor (dot : ref * ref) : Z :=
  match Page.selectedBone st with
  | Some bone =>
      match Page.findDot st bone with
      | Some first => if Nat.eqb (fst dot) (fst first) then Page.green else Page.white
      | None => Page.white
      end
  | None => Page.white
  end.

(** Every marker has the color the selection gives it. *)
Definition selectionShown : Prop :=
  forall dot, In dot (Page.boneDots st) -> Page.materialColor st (fst dot) = shownColor dot.

(** The bones the markers stand for, in marker order: the exporter's bone
    set. *)
Definition markedBones : list ref := map snd (Page.boneDots st).

(** References not handed out yet name no bone, the scene is not a bone, and
    the scene was handed out. *)
Definition bonesAllocated : Prop :=
  (forall r, Page.nextRef st <= r -> isBone (Page.objects st r) = false)
  /\ isBone (Page.objects st (Page.scene st)) = false
  /\ Page.scene st < Page.nextRef st.

(** The scene has no parent, and every line of [boneLines] was handed out
    and is a child of the scene. *)
Definition linesInScene : Prop :=
  parent (Page.objects st (Page.scene st)) = None
  /\ forall line, In line (Page.boneLines st) ->
       line < Page.nextRef st
       /\ parent (Page.objects st line) = Some (Page.scene st).

End PageNotions.

(** The objects after [this.remove(x)] for each [x] of a list, in order. *)
Definition removeEach (this : ref) (xs : list ref) (h : Scene) : Scene :=
  fold_left (fun h x => Page.Object3D_remove h this x) xs h.

(** ** Sample pages *)

Module PageSamples.

Local Open Scope float_scope.

(** The scene object of a page over [chain]: reference 0, without parent. *)
Definition start (h : Scene) : Page.State :=
  {| Page.objects := h;
     Page.materialColor := fun _ => 0%Z;
     Page.linePositions := fun _ => [];
     Page.needsUpdate := fun _ => false;
     Page.skeleton := fun m => match m with
                              | 8%nat => [4%nat; 5%nat]
                              | _ => [1%nat; 2%nat; 3%nat]
                              end;
     Page.nextRef := 10%nat;
     Page.scene := 0%nat;
     Page.selectedBone := None;
     Page.currentModel := Some 9%nat;
     Page.boneDots := [];
     Page.boneLines := [];
     Page.controlsObject := None;
     Page.controlsMode := "translate";
     Page.browser := emptyBrowser |}.

(** The chain R, A, B under a scene without children yet; references from 4
    on are objects that are not bones. *)
Definition chainPage : Page.State :=
  start (fun r =>
           match r with
           | 1 => object 1 (Some "R") true (Some 9%nat) [2%nat] 0 0 0
           | 2 => object 2 (Some "A") true (Some 1%nat) [3%nat] 1 0 0
           | 3 => object 3 (Some "B") true (Some 2%nat) [] 0 1 0
           | 9 => object 9 (Some "Model") false None [1%nat] 0 0 0
           | _ => object 0 (Some "") false None [] 0 0 0
           end).

(** The page after the skeleton of skinned mesh 9 was visualized. *)
Definition shownPage : Page.State := Page.visualizeSkeleton chainPage 9%nat.

(** The page after the load has completed: the model is in the scene. *)
Definition loadedPage : Page.State :=
  Page.with_objects shownPage (Page.Object3D_add (Page.objects shownPage) 0%nat 9%nat).

(** The page after the marker of bone A was clicked. *)
Definition selectedPage : Page.State :=
  match Page.selectBone shownPage 2%nat with
  | Page.Returned st => st
  | _ => shownPage
  end.

(** A world position that is the local position (every parent at the
    origin, unrotated). *)
Definition localPosition (h : Scene) (r : ref) : Vector3.t := position (h r).

End PageSamples.

(** * Properties *)

(** ** Strings *)

Lemma append_assoc (a b c : string) : (a ++ b) ++ c = a ++ (b ++ c).
Proof. induction a as [|ch a IH]; simpl; [reflexivity | now rewrite IH]. Qed.

Lemma append_nil_r (a : string) : a ++ "" = a.
Proof. induction a as [|ch a IH]; simpl; [reflexivity | now rewrite IH]. Qed.

Lemma length_append (a b : string) :
  String.length (a ++ b) = String.length a + String.length b.
Proof. induction a as [|ch a IH]; simpl; [reflexivity | now rewrite IH]. Qed.

Lemma mapM_ext {A B : Type} (f g : A -> option B) (l : list A) :
  (forall a, In a l -> f a = g a) -> mapM f l = mapM g l.
Proof.
  induction l as [|a l IH]; simpl; intros H; [reflexivity|].
  rewrite (H a (or_introl eq_refl)), IH; [reflexivity|].
  intros b Hb. apply H. now right.
Qed.

Lemma mapM_map {A B C : Type} (f : A -> option B) (g : B -> C) (l : list A) :
  mapM (fun a => option_map g (f a)) l = option_map (map g) (mapM f l).
Proof.
  induction l as [|a l IH]; simpl; [reflexivity|].
  rewrite IH. destruct (f a); simpl; [|reflexivity].
  now destruct (mapM f l).
Qed.

Lemma mapM_length {A B : Type} (f : A -> option B) (l : list A) (bs : list B) :
  mapM f l = Some bs -> List.length bs = List.length l.
Proof.
  revert bs. induction l as [|a l IH]; simpl; intros bs H.
  - now inversion H.
  - destruct (f a); [|discriminate]. destruct (mapM f l); [|discriminate].
    inversion H; subst; simpl. f_equal. now apply IH.
Qed.

Lemma mapM_Forall2 {A B : Type} (f : A -> option B) (l : list A) (bs : list B) :
  mapM f l = Some bs <-> Forall2 (fun a b => f a = Some b) l bs.
Proof.
  revert bs. induction l as [|a l IH]; simpl; intros bs; split; intros H.
  - inversion H. constructor.
  - now inversion H.
  - destruct (f a) eqn:Ea; [|discriminate].
    destruct (mapM f l) eqn:El; [|discriminate].
    inversion H; subst. constructor; [assumption | now apply IH].
  - inversion H as [|a' b l' bs' Hab Hrest]; subst.
    rewrite Hab. apply IH in Hrest. now rewrite Hrest.
Qed.

(** ** The recursion of the hierarchy serializer *)

Section Hierarchy.

Variable scene : Scene.

(** The loop over the bone children appends the nested blocks in order. *)
Lemma fold_blocks (f : ref -> option string) (cs : list ref) (s0 : string) :
  fold_left
    (fun acc child =>
       match acc with
       | Some str => match f child with Some s => Some (str ++ s) | None => None end
       | None => None
       end) cs (Some s0)
  = option_map (fun blocks => s0 ++ concatAll blocks) (mapM f cs).
Proof.
  revert s0. induction cs as [|c cs IH]; intros s0; simpl.
  - now rewrite append_nil_r.
  - destruct (f c) as [s|]; simpl.
    + rewrite IH. destruct (mapM f cs); simpl; [|reflexivity].
      now rewrite append_assoc.
    + clear IH. induction cs as [|c' cs IH]; simpl; [reflexivity | exact IH].
Qed.

(** One call of [buildBVHHierarchy] in terms of its nested calls. *)
Lemma buildBVHHierarchy_step (fuel : nat) (bone : ref) (level : nat) :
  buildBVHHierarchy scene (S fuel) bone level
  = option_map
      (fun blocks =>
         rootRewrite
           (jointOpen scene bone level
            ++ match boneChildren scene bone with
               | [] => endSite level
               | _ => concatAll blocks
               end
            ++ repeat "  " level ++ "}" ++ LF))
      (mapM (fun child => buildBVHHierarchy scene fuel child (level + 1))
            (boneChildren scene bone)).
Proof.
  unfold boneChildren. cbn [buildBVHHierarchy].
  destruct (filter (fun child => isBone (scene child)) (children (scene bone)))
    as [|c cs] eqn:Ecs.
  - cbn [List.length Nat.ltb Nat.leb mapM option_map].
    unfold rootRewrite, jointOpen, endSite, jointLabel, offsetValues.
    cbn [String.concat]. now rewrite !append_assoc.
  - replace (0 <? List.length (c :: cs))%nat with true by reflexivity.
    rewrite fold_blocks.
    destruct (mapM _ (c :: cs)) as [blocks|]; [|reflexivity].
    cbn [option_map]. unfold rootRewrite, jointOpen, jointLabel, offsetValues.
    cbn [String.concat]. now rewrite !append_assoc.
Qed.

Lemma variant_step (fuel : nat) (bone : ref) (level : nat) :
  Variant.buildBVHHierarchy scene (S fuel) bone level
  = option_map
      (fun blocks =>
         jointOpen scene bone level
         ++ match boneChildren scene bone with
            | [] => endSite level
            | _ => concatAll blocks
            end
         ++ repeat "  " level ++ "}" ++ LF)
      (mapM (fun child => Variant.buildBVHHierarchy scene fuel child (level + 1))
            (boneChildren scene bone)).
Proof.
  unfold boneChildren. cbn [Variant.buildBVHHierarchy].
  destruct (filter (fun child => isBone (scene child)) (children (scene bone)))
    as [|c cs] eqn:Ecs.
  - cbn [List.length Nat.ltb Nat.leb mapM option_map].
    unfold jointOpen, endSite, jointLabel, offsetValues.
    cbn [String.concat]. now rewrite !append_assoc.
  - replace (0 <? List.length (c :: cs))%nat with true by reflexivity.
    rewrite fold_blocks.
    destruct (mapM _ (c :: cs)) as [blocks|]; [|reflexivity].
    cbn [option_map]. unfold jointOpen, jointLabel, offsetValues.
    cbn [String.concat]. now rewrite !append_assoc.
Qed.

(** The serializer's text is the rendering of its call tree. *)
Lemma buildBVHHierarchy_render (fuel : nat) :
  forall bone level,
    buildBVHHierarchy scene fuel bone level
    = option_map (fun t => render scene t level) (boneTree scene fuel bone).
Proof.
  induction fuel as [|fuel IH]; intros bone level; [reflexivity|].
  rewrite buildBVHHierarchy_step. cbn [boneTree].
  rewrite (mapM_ext _ (fun c => option_map (fun t => render scene t (level + 1))
                                 (boneTree scene fuel c)))
    by (intros; apply IH).
  rewrite mapM_map.
  destruct (mapM (boneTree scene fuel) (boneChildren scene bone)) as [nested|] eqn:E;
    [|reflexivity].
  cbn. apply mapM_length in E.
  destruct (boneChildren scene bone), nested; try discriminate; reflexivity.
Qed.

End Hierarchy.

(** ** The orchestrator *)

Section Orchestrator.

Variable THREE : Library.
Variable scene : Scene.

Lemma hasNoBoneParent_spec (bone : ref) :
  hasNoBoneParent scene bone = true <-> parentAbsentOrNoBone scene bone.
Proof.
  unfold hasNoBoneParent, parentAbsentOrNoBone.
  destruct (parent (scene bone)) as [p|]; split.
  - intros H. right. exists p. split; [reflexivity | now apply negb_true_iff in H].
  - intros [H | (q & Hq & Hb)]; [discriminate|].
    inversion Hq; subst q. now rewrite Hb.
  - now left.
  - reflexivity.
Qed.

Lemma rootBone_cons (first : ref) (rest : list ref) :
  rootBone scene (first :: rest)
  = Some match find (hasNoBoneParent scene) (first :: rest) with
         | Some bone => bone
         | None => first
         end.
Proof. unfold rootBone. now destruct (find _ _). Qed.

Lemma rootBone_some (bones : list ref) :
  bones <> [] -> exists root, rootBone scene bones = Some root.
Proof.
  destruct bones as [|first rest]; [congruence|].
  intros _. rewrite rootBone_cons. eauto.
Qed.

Lemma rootBone_in (bones : list ref) (root : ref) :
  rootBone scene bones = Some root -> In root bones.
Proof.
  unfold rootBone. destruct (find _ bones) eqn:E.
  - intros H; inversion H; subst. now apply find_some in E.
  - destruct bones; simpl; [discriminate|]. intros H; inversion H. now left.
Qed.

(** The whole export in terms of the chosen root's hierarchy block. *)
Lemma exportToBVH_eq (fuel : nat) (boneDots : list Mesh) (w : Browser) (root : ref) :
  rootBone scene (map userData_bone boneDots) = Some root ->
  exportToBVH THREE scene fuel boneDots w
  = option_map
      (fun hierarchy =>
         downloaded
           (document hierarchy (buildBVHMotion THREE scene (map userData_bone boneDots))) w)
      (buildBVHHierarchy scene fuel root 0).
Proof.
  unfold exportToBVH.
  destruct (map userData_bone boneDots) as [|first rest] eqn:E; [discriminate|].
  rewrite rootBone_cons. intros H.
  assert (H1 : match find (hasNoBoneParent scene) (first :: rest) with
               | Some bone => bone
               | None => first
               end = root) by congruence.
  cbv zeta. rewrite H1.
  destruct (buildBVHHierarchy scene fuel root 0) as [h|]; [|reflexivity].
  cbn [option_map]. f_equal.
  unfold createObjectURL, appendChild, click, removeChild, revokeObjectURL, downloaded.
  cbn [href download objectURLs nextURL body saved find fst].
  rewrite Nat.eqb_refl. cbn [objectURLs nextURL body saved filter fst].
  rewrite Nat.eqb_refl. cbn [negb].
  unfold document. now rewrite !append_assoc.
Qed.

Lemma variant_exportToBVH_eq (fuel : nat) (boneDots : list Mesh) (w : Browser) (root : ref) :
  rootBone scene (map userData_bone boneDots) = Some root ->
  Variant.exportToBVH THREE scene fuel boneDots w
  = option_map
      (fun hierarchy =>
         downloaded
           (document hierarchy (buildBVHMotion THREE scene (map userData_bone boneDots))) w)
      (Variant.buildBVHHierarchy scene fuel root 0).
Proof.
  unfold Variant.exportToBVH.
  destruct (map userData_bone boneDots) as [|first rest] eqn:E; [discriminate|].
  rewrite rootBone_cons. intros H.
  assert (H1 : match find (hasNoBoneParent scene) (first :: rest) with
               | Some bone => bone
               | None => first
               end = root) by congruence.
  cbv zeta. rewrite H1.
  destruct (Variant.buildBVHHierarchy scene fuel root 0) as [h|]; [|reflexivity].
  cbn [option_map]. f_equal.
  unfold createObjectURL, appendChild, click, removeChild, revokeObjectURL, downloaded.
  cbn [href download objectURLs nextURL body saved find fst].
  rewrite Nat.eqb_refl. cbn [objectURLs nextURL body saved filter fst].
  rewrite Nat.eqb_refl. cbn [negb].
  unfold document. now rewrite !append_assoc.
Qed.

End Orchestrator.

(** ** Termination on acyclic skeletons *)

Section Termination.

Variable scene : Scene.

Lemma boneTree_mono (fuel : nat) :
  forall bone t, boneTree scene fuel bone = Some t ->
  forall fuel', fuel <= fuel' -> boneTree scene fuel' bone = Some t.
Proof.
  induction fuel as [|fuel IH]; intros bone t H fuel' Hle; [discriminate|].
  destruct fuel' as [|fuel']; [lia|]. cbn [boneTree] in *.
  destruct (mapM (boneTree scene fuel) (boneChildren scene bone)) as [nested|] eqn:E;
    [|discriminate].
  assert (E' : mapM (boneTree scene fuel') (boneChildren scene bone) = Some nested).
  { apply mapM_Forall2. apply mapM_Forall2 in E.
    eapply Forall2_impl; [|exact E]. intros c k Hc. apply (IH _ _ Hc). lia. }
  now rewrite E'.
Qed.

(** Below a bone without infinite descent the call tree is finite: some
    amount of fuel builds it. *)
Lemma boneTree_terminates (bone : ref) :
  acyclicBelow scene bone -> exists fuel t, boneTree scene fuel bone = Some t.
Proof.
  induction 1 as [bone _ IH].
  assert (Hcs : forall cs, (forall c, In c cs -> boneChild scene bone c) ->
                exists fuel nested, mapM (boneTree scene fuel) cs = Some nested).
  { induction cs as [|c cs IHcs]; intros Hin.
    - exists 0, []. reflexivity.
    - destruct (IH c (Hin c (or_introl eq_refl))) as (f1 & t & Ht).
      destruct IHcs as (f2 & ts & Hts); [intros; apply Hin; now right|].
      exists (Nat.max f1 f2), (t :: ts). cbn [mapM].
      rewrite (boneTree_mono _ _ _ Ht) by lia.
      assert (E : mapM (boneTree scene (Nat.max f1 f2)) cs = Some ts).
      { apply mapM_Forall2. apply mapM_Forall2 in Hts.
        eapply Forall2_impl; [|exact Hts]. intros c' k Hc.
        apply (boneTree_mono _ _ _ Hc). lia. }
      now rewrite E. }
  destruct (Hcs (boneChildren scene bone)) as (fuel & nested & E); [now intros|].
  exists (S fuel), (Joint bone nested). cbn [boneTree]. now rewrite E.
Qed.

Lemma buildBVHHierarchy_terminates (bone : ref) :
  acyclicBelow scene bone ->
  exists fuel0 t, forall fuel level, fuel0 <= fuel ->
    boneTree scene fuel bone = Some t
    /\ buildBVHHierarchy scene fuel bone level = Some (render scene t level).
Proof.
  intros Hacc. destruct (boneTree_terminates bone Hacc) as (fuel0 & t & Ht).
  exists fuel0, t. intros fuel level Hle.
  pose proof (boneTree_mono _ _ _ Ht fuel Hle) as Ht'.
  split; [assumption|]. now rewrite buildBVHHierarchy_render, Ht'.
Qed.

(** A bone among its own descendants exhausts any amount of fuel. *)
Lemma looped_never_returns (fuel : nat) (level : nat) :
  buildBVHHierarchy looped fuel 1 level = None.
Proof.
  revert level. induction fuel as [|fuel IH]; intros level; [reflexivity|].
  rewrite buildBVHHierarchy_step.
  change (boneChildren looped 1) with [1]. cbn [mapM]. now rewrite IH.
Qed.

End Termination.

(** ** Sample skeletons are acyclic *)

Ltac no_more_children :=
  constructor; intros c Hc; unfold boneChild, boneChildren in Hc;
  cbn in Hc; repeat (destruct Hc as [<- | Hc]); try contradiction.

Lemma chain_acyclic (bone : ref) : acyclicBelow chain bone.
Proof.
  assert (H3 : acyclicBelow chain 3) by no_more_children.
  assert (H2 : acyclicBelow chain 2) by (no_more_children; exact H3).
  assert (H1 : acyclicBelow chain 1) by (no_more_children; exact H2).
  destruct bone as [|[|[|[|bone]]]]; try assumption; no_more_children; exact H1.
Qed.

(** ** The document and its root *)

(** C5. With no bone markers the export returns at once: the browser is left
    as it was, so no document is made and nothing is saved; this holds
    whatever the fuel, in both copies of the exporter. *)
Theorem export_of_no_bones_is_a_noop (THREE : Library) (scene : Scene)
    (fuel : nat) (w : Browser) :
  exportToBVH THREE scene fuel [] w = Some w
  /\ Variant.exportToBVH THREE scene fuel [] w = Some w.
Proof. split; reflexivity. Qed.

(** C6. For a non-empty bone set the hierarchy is built from one root: the
    first bone, in bone-set order, whose parent is absent or is not itself a
    bone, and the first bone of the set when no bone is such. *)
Theorem root_is_first_bone_without_bone_parent (THREE : Library) (scene : Scene)
    (boneDots : list Mesh) (w : Browser) :
  boneDots <> [] ->
  let bones := map userData_bone boneDots in
  exists root,
    ((exists before after,
         bones = (before ++ root :: after)%list
         /\ parentAbsentOrNoBone scene root
         /\ forall bone, In bone before -> ~ parentAbsentOrNoBone scene bone)
     \/ ((forall bone, In bone bones -> ~ parentAbsentOrNoBone scene bone)
         /\ hd_error bones = Some root))
    /\ forall fuel,
         exportToBVH THREE scene fuel boneDots w
         = option_map
             (fun hierarchy =>
                downloaded (document hierarchy (buildBVHMotion THREE scene bones)) w)
             (buildBVHHierarchy scene fuel root 0).
Proof.
  intros Hne bones.
  assert (Hb : bones <> []) by (subst bones; destruct boneDots; [congruence | discriminate]).
  destruct (rootBone_some scene bones Hb) as (root & Hroot).
  exists root. split; [|intros fuel; now apply exportToBVH_eq].
  assert (Hfalse : forall bone, hasNoBoneParent scene bone = false ->
                     ~ parentAbsentOrNoBone scene bone).
  { intros bone Hf Hp. apply hasNoBoneParent_spec in Hp. congruence. }
  unfold rootBone in Hroot.
  destruct (find (hasNoBoneParent scene) bones) as [b|] eqn:E.
  - left. inversion Hroot; subst b. clear Hroot Hb.
    induction bones as [|b0 bs IH]; [discriminate|]. cbn [find] in E.
    destruct (hasNoBoneParent scene b0) eqn:E0.
    + inversion E; subst b0. exists [], bs.
      repeat split; [now apply hasNoBoneParent_spec | intros ? []].
    + destruct (IH E) as (before & after & -> & Hr & Hbefore).
      exists (b0 :: before), after. repeat split; [assumption|].
      intros bone [<- | Hin]; [now apply Hfalse | now apply Hbefore].
  - right. split; [|assumption].
    intros bone Hin. apply Hfalse. exact (find_none _ _ E bone Hin).
Qed.

(** The selection on the chain R, A, B listed as A, R, B. *)
Lemma root_is_first_bone_without_bone_parent_witness :
  dots [2; 1; 3] <> []
  /\ exists root,
       ((exists before after,
            [2; 1; 3] = (before ++ root :: after)%list
            /\ parentAbsentOrNoBone chain root
            /\ forall bone, In bone before -> ~ parentAbsentOrNoBone chain bone)
        \/ ((forall bone, In bone [2; 1; 3] -> ~ parentAbsentOrNoBone chain bone)
            /\ hd_error [2; 1; 3] = Some root))
       /\ forall fuel,
            exportToBVH three chain fuel (dots [2; 1; 3]) emptyBrowser
            = option_map
                (fun hierarchy =>
                   downloaded
                     (document hierarchy (buildBVHMotion three chain [2; 1; 3]))
                     emptyBrowser)
                (buildBVHHierarchy chain fuel root 0).
Proof.
  split; [discriminate|].
  apply (root_is_first_bone_without_bone_parent three chain (dots [2; 1; 3]) emptyBrowser).
  discriminate.
Defined.

(** C4. For a non-empty bone set the export equals, for every amount of
    fuel, the download of exactly this text: the line HIERARCHY, the
    hierarchy block of the selected root, the lines MOTION, Frames: 1 and
    Frame Time: 0.033333, and the motion line; when there is no infinite
    descent below the root, enough fuel produces that document. *)
Theorem document_structure (THREE : Library) (scene : Scene)
    (boneDots : list Mesh) (w : Browser) :
  boneDots <> [] ->
  let bones := map userData_bone boneDots in
  exists root,
    rootBone scene bones = Some root
    /\ (forall fuel,
          exportToBVH THREE scene fuel boneDots w
          = option_map
              (fun hierarchy =>
                 downloaded
                   ("HIERARCHY" ++ LF ++ hierarchy
                    ++ "MOTION" ++ LF ++ "Frames: 1" ++ LF
                    ++ "Frame Time: 0.033333" ++ LF
                    ++ buildBVHMotion THREE scene bones) w)
              (buildBVHHierarchy scene fuel root 0))
    /\ (acyclicBelow scene root ->
        exists fuel0 hierarchy, forall fuel, fuel0 <= fuel ->
          buildBVHHierarchy scene fuel root 0 = Some hierarchy
          /\ exportToBVH THREE scene fuel boneDots w
             = Some (downloaded
                       ("HIERARCHY" ++ LF ++ hierarchy
                        ++ "MOTION" ++ LF ++ "Frames: 1" ++ LF
                        ++ "Frame Time: 0.033333" ++ LF
                        ++ buildBVHMotion THREE scene bones) w)).
Proof.
  intros Hne bones.
  assert (Hb : bones <> []) by (subst bones; destruct boneDots; [congruence | discriminate]).
  destruct (rootBone_some scene bones Hb) as (root & Hroot).
  exists root. split; [assumption|]. split.
  - intros fuel. now rewrite (exportToBVH_eq THREE scene fuel boneDots w root Hroot).
  - intros Hacc.
    destruct (buildBVHHierarchy_terminates scene root Hacc) as (fuel0 & t & Ht).
    exists fuel0, (render scene t 0). intros fuel Hle.
    destruct (Ht fuel 0 Hle) as [_ Hb0]. split; [assumption|].
    rewrite (exportToBVH_eq THREE scene fuel boneDots w root Hroot), Hb0. reflexivity.
Qed.

(** The document of the chain R, A, B. *)
Lemma document_structure_witness :
  dots [1; 2; 3] <> []
  /\ exists root,
       rootBone chain [1; 2; 3] = Some root
       /\ (forall fuel,
             exportToBVH three chain fuel (dots [1; 2; 3]) emptyBrowser
             = option_map
                 (fun hierarchy =>
                    downloaded
                      ("HIERARCHY" ++ LF ++ hierarchy
                       ++ "MOTION" ++ LF ++ "Frames: 1" ++ LF
                       ++ "Frame Time: 0.033333" ++ LF
                       ++ buildBVHMotion three chain [1; 2; 3]) emptyBrowser)
                 (buildBVHHierarchy chain fuel root 0))
       /\ (acyclicBelow chain root ->
           exists fuel0 hierarchy, forall fuel, fuel0 <= fuel ->
             buildBVHHierarchy chain fuel root 0 = Some hierarchy
             /\ exportToBVH three chain fuel (dots [1; 2; 3]) emptyBrowser
                = Some (downloaded
                          ("HIERARCHY" ++ LF ++ hierarchy
                           ++ "MOTION" ++ LF ++ "Frames: 1" ++ LF
                           ++ "Frame Time: 0.033333" ++ LF
                           ++ buildBVHMotion three chain [1; 2; 3]) emptyBrowser)).
Proof.
  split; [discriminate|].
  apply (document_structure three chain (dots [1; 2; 3]) emptyBrowser).
  discriminate.
Defined.

(** ** The root rewrite never reaches the header keyword *)

Lemma rootRewrite_indent (level : nat) (s : string) :
  rootRewrite (repeat "  " level ++ "JOINT " ++ s)
  = repeat "  " level ++ "JOINT " ++ rootRewrite s.
Proof.
  induction level as [|level IH].
  - reflexivity.
  - cbn [repeat]. rewrite append_assoc.
    change (rootRewrite ("  " ++ ?x)) with (String " " (String " " (rootRewrite x))).
    now rewrite IH.
Qed.

(** ** Splitting a text at a character *)

Lemma split_cons (sep : ascii) (s : string) :
  split sep s = hd "" (split sep s) :: tl (split sep s).
Proof.
  destruct s as [|c s]; [reflexivity|]. cbn [split].
  destruct (Ascii.eqb c sep); [reflexivity|]. now destruct (split sep s).
Qed.

Lemma split_lacks_append (sep : ascii) (a b : string) :
  lacks sep a = true ->
  split sep (a ++ b) = (a ++ hd "" (split sep b)) :: tl (split sep b).
Proof.
  induction a as [|c a IH]; unfold lacks; cbn [allChars append]; intros H.
  - apply split_cons.
  - apply andb_true_iff in H as [Hc Ha]. apply negb_true_iff in Hc.
    cbn [split]. rewrite Hc, (IH Ha). reflexivity.
Qed.

Lemma split_lacks_sep (sep : ascii) (a b : string) :
  lacks sep a = true ->
  split sep (a ++ String sep b) = a :: split sep b.
Proof.
  intros H. rewrite (split_lacks_append _ _ _ H). cbn [split].
  rewrite Ascii.eqb_refl. cbn [hd tl]. now rewrite append_nil_r.
Qed.

Lemma split_lacks (sep : ascii) (a : string) :
  lacks sep a = true -> split sep a = [a].
Proof.
  intros H. rewrite <- (append_nil_r a) at 1.
  rewrite (split_lacks_append _ _ _ H). cbn. now rewrite append_nil_r.
Qed.

Lemma second_line_joint (rest : string) :
  exists text,
    nth 1 (lines ("HIERARCHY" ++ LF ++ "JOINT " ++ rest)) "" = "JOINT " ++ text.
Proof.
  unfold lines, LF.
  change ("HIERARCHY" ++ String (ascii_of_nat 10) "" ++ "JOINT " ++ rest)
    with ("HIERARCHY" ++ String (ascii_of_nat 10) ("JOINT " ++ rest)).
  rewrite split_lacks_sep by reflexivity.
  rewrite (split_lacks_append _ "JOINT " rest) by reflexivity.
  cbn [nth]. eauto.
Qed.

(** ** The header line of a joint block *)

Section Header.

Variable scene : Scene.

(** Every block starts with its indentation, the keyword JOINT and the
    label; the rewrite applied by [js/main.js] acts on what follows the
    keyword only. *)
Lemma buildBVHHierarchy_header (fuel : nat) (bone : ref) (level : nat) (s : string) :
  buildBVHHierarchy scene fuel bone level = Some s ->
  exists rest,
    s = repeat "  " level ++ "JOINT " ++ rootRewrite (jointLabel scene bone ++ LF ++ rest).
Proof.
  destruct fuel as [|fuel]; [discriminate|].
  rewrite buildBVHHierarchy_step.
  destruct (mapM _ _) as [blocks|]; [|discriminate].
  cbn [option_map]. intros H; inversion H as [Hs]. clear H Hs.
  unfold jointOpen. rewrite !append_assoc, rootRewrite_indent. eauto.
Qed.

Lemma variant_header (fuel : nat) (bone : ref) (level : nat) (s : string) :
  Variant.buildBVHHierarchy scene fuel bone level = Some s ->
  exists rest,
    s = repeat "  " level ++ "JOINT " ++ jointLabel scene bone ++ LF ++ rest.
Proof.
  destruct fuel as [|fuel]; [discriminate|].
  rewrite variant_step.
  destruct (mapM _ _) as [blocks|]; [|discriminate].
  cbn [option_map]. intros H; inversion H as [Hs]. clear H Hs.
  unfold jointOpen. rewrite !append_assoc. eauto.
Qed.


End Header.

Lemma document_joint (x motion : string) :
  document ("JOINT " ++ x) motion
  = "HIERARCHY" ++ LF ++ "JOINT "
    ++ (x ++ "MOTION" ++ LF ++ "Frames: 1" ++ LF ++ "Frame Time: 0.033333" ++ LF ++ motion).
Proof. unfold document. now rewrite !append_assoc. Qed.

(** Applied to the whole document, as its comment intends, [fixRootBone]
    does turn the first keyword into ROOT. *)
Lemma fixRootBone_on_document (x motion : string) :
  Variant.fixRootBone (document ("JOINT " ++ x) motion)
  = "HIERARCHY" ++ LF ++ "ROOT "
    ++ (x ++ "MOTION" ++ LF ++ "Frames: 1" ++ LF ++ "Frame Time: 0.033333" ++ LF ++ motion).
Proof. rewrite document_joint. reflexivity. Qed.

(** C1, as the code has it. The specification asks for ROOT at the start of the
    second line; in both copies of the exporter the second line of every exported
    document starts with JOINT: [js/main.js] applies the rewrite to each
    hierarchy block, which starts with JOINT and not with the HIERARCHY
    line, and the second copy never calls [fixRootBone]. *)
Theorem second_line_keeps_joint_keyword (THREE : Library) (scene : Scene)
    (fuel : nat) (boneDots : list Mesh) (w : Browser) :
  boneDots <> [] ->
  (forall w', exportToBVH THREE scene fuel boneDots w = Some w' ->
     exists doc text,
       w' = downloaded doc w
       /\ nth 1 (lines doc) "" = "JOINT " ++ text
       /\ startsWith (nth 1 (lines doc) "") "ROOT " = false)
  /\ (forall w', Variant.exportToBVH THREE scene fuel boneDots w = Some w' ->
        exists doc text,
          w' = downloaded doc w
          /\ nth 1 (lines doc) "" = "JOINT " ++ text
          /\ startsWith (nth 1 (lines doc) "") "ROOT " = false).
Proof.
  intros Hne.
  assert (Hb : map userData_bone boneDots <> [])
    by (destruct boneDots; [congruence | discriminate]).
  destruct (rootBone_some scene _ Hb) as (root & Hroot).
  split; intros w'.
  - rewrite (exportToBVH_eq THREE scene fuel boneDots w root Hroot).
    destruct (buildBVHHierarchy scene fuel root 0) as [h|] eqn:Eh; [|discriminate].
    cbn [option_map]. intros H; inversion H; subst w'; clear H.
    destruct (buildBVHHierarchy_header scene _ _ _ _ Eh) as (rest & ->).
    change (repeat "  " 0 ++ "JOINT " ++ ?x) with ("JOINT " ++ x).
    rewrite document_joint.
    destruct (second_line_joint
                (rootRewrite (jointLabel scene root ++ LF ++ rest)
                 ++ "MOTION" ++ LF ++ "Frames: 1" ++ LF ++ "Frame Time: 0.033333" ++ LF
                 ++ buildBVHMotion THREE scene (map userData_bone boneDots)))
      as (text & Htext).
    eexists; exists text. split; [reflexivity|]. split; [exact Htext|].
    rewrite Htext. reflexivity.
  - rewrite (variant_exportToBVH_eq THREE scene fuel boneDots w root Hroot).
    destruct (Variant.buildBVHHierarchy scene fuel root 0) as [h|] eqn:Eh; [|discriminate].
    cbn [option_map]. intros H; inversion H; subst w'; clear H.
    destruct (variant_header scene _ _ _ _ Eh) as (rest & ->).
    change (repeat "  " 0 ++ "JOINT " ++ ?x) with ("JOINT " ++ x).
    rewrite document_joint.
    destruct (second_line_joint
                ((jointLabel scene root ++ LF ++ rest)
                 ++ "MOTION" ++ LF ++ "Frames: 1" ++ LF ++ "Frame Time: 0.033333" ++ LF
                 ++ buildBVHMotion THREE scene (map userData_bone boneDots)))
      as (text & Htext).
    eexists; exists text. split; [reflexivity|]. split; [exact Htext|].
    rewrite Htext. reflexivity.
Qed.

(** The export of the chain R, A, B returns, with JOINT on its second line. *)
Lemma second_line_keeps_joint_keyword_witness :
  dots [1; 2; 3] <> []
  /\ exists w',
       exportToBVH three chain 4 (dots [1; 2; 3]) emptyBrowser = Some w'
       /\ exists doc text,
            w' = downloaded doc emptyBrowser
            /\ nth 1 (lines doc) "" = "JOINT " ++ text
            /\ startsWith (nth 1 (lines doc) "") "ROOT " = false.
Proof.
  split; [discriminate|].
  eexists. split; [reflexivity|].
  apply (second_line_keeps_joint_keyword three chain 4 (dots [1; 2; 3]) emptyBrowser);
    [discriminate | reflexivity].
Defined.

(** The skeleton of the specification's scenario (R, its child A, A's leaf
    B): the export returns, and the second line of its document is
    [JOINT R]. *)
Lemma chain_second_line :
  option_map (fun w => map (fun f => nth 1 (lines (parts (snd f))) "") (saved w))
    (exportToBVH three chain 4 (dots [1; 2; 3]) emptyBrowser)
  = Some ["JOINT R"].
Proof. vm_compute. reflexivity. Qed.

(** ** Digits and fixed-point notation *)

Lemma allChars_append (p : ascii -> bool) (a b : string) :
  allChars p (a ++ b) = allChars p a && allChars p b.
Proof.
  induction a as [|c a IH]; cbn [append allChars]; [reflexivity|].
  now rewrite IH, andb_assoc.
Qed.

Lemma allChars_impl (p q : ascii -> bool) (s : string) :
  (forall c, p c = true -> q c = true) -> allChars p s = true -> allChars q s = true.
Proof.
  intros Hpq. induction s as [|c s IH]; cbn [allChars]; [reflexivity|].
  intros H. apply andb_true_iff in H as [Hc Hs].
  now rewrite (Hpq c Hc), (IH Hs).
Qed.

Lemma allChars_drop (p : ascii -> bool) (n : nat) (s : string) :
  allChars p s = true -> allChars p (drop n s) = true.
Proof.
  revert s. induction n as [|n IH]; intros [|c s]; cbn [drop allChars]; intros H;
    try assumption.
  apply andb_true_iff in H as [_ Hs]. now apply IH.
Qed.

Lemma allChars_substring0 (p : ascii -> bool) (n : nat) (s : string) :
  allChars p s = true -> allChars p (String.substring 0 n s) = true.
Proof.
  revert s. induction n as [|n IH]; intros [|c s]; cbn [String.substring allChars]; intros H;
    try reflexivity.
  apply andb_true_iff in H as [Hc Hs]. now rewrite Hc, (IH s Hs).
Qed.

Lemma allChars_repeat (p : ascii -> bool) (s : string) (n : nat) :
  allChars p s = true -> allChars p (repeat s n) = true.
Proof.
  intros H. induction n as [|n IH]; cbn [repeat]; [reflexivity|].
  now rewrite allChars_append, H, IH.
Qed.

Lemma length_drop (n : nat) (s : string) :
  String.length (drop n s) = String.length s - n.
Proof.
  revert s. induction n as [|n IH]; intros [|c s]; cbn [drop String.length];
    try reflexivity; try lia.
  now rewrite IH.
Qed.

Lemma length_substring0 (n : nat) (s : string) :
  n <= String.length s -> String.length (String.substring 0 n s) = n.
Proof.
  revert s. induction n as [|n IH]; intros [|c s]; cbn [String.substring String.length];
    intros H; try reflexivity; try lia.
  rewrite IH; lia.
Qed.

Lemma length_repeat1 (c : ascii) (n : nat) :
  String.length (repeat (String c "") n) = n.
Proof. induction n as [|n IH]; cbn; [reflexivity | now rewrite IH]. Qed.

Lemma digits_of_uint (d : Decimal.uint) :
  allDigits (NilEmpty.string_of_uint d) = true.
Proof. induction d; cbn; try reflexivity; assumption. Qed.

Lemma decimal_digits (n : Z) : allDigits (decimal n) = true.
Proof.
  unfold decimal, NilZero.string_of_uint.
  destruct (N.to_uint (Z.to_N n)) eqn:E; try reflexivity;
    rewrite <- E; apply digits_of_uint.
Qed.

Lemma decimal_nonempty (n : Z) : 1 <= String.length (decimal n).
Proof.
  unfold decimal, NilZero.string_of_uint.
  destruct (N.to_uint (Z.to_N n)); cbn; lia.
Qed.

(** [fixedDigits n 6] is a non-empty run of digits, a point, and six
    digits. *)
Lemma fixedDigits_shape (n : Z) :
  exists a b,
    fixedDigits n 6 = a ++ "." ++ b
    /\ allDigits a = true /\ 1 <= String.length a
    /\ allDigits b = true /\ String.length b = 6.
Proof.
  unfold fixedDigits.
  set (m := if (String.length (decimal n) <=? 6)%nat
            then repeat "0" (6 + 1 - String.length (decimal n)) ++ decimal n
            else decimal n).
  assert (Hd : allDigits m = true).
  { subst m. destruct (_ <=? 6)%nat; [|apply decimal_digits].
    unfold allDigits. rewrite allChars_append.
    rewrite allChars_repeat by reflexivity. apply decimal_digits. }
  assert (Hl : 7 <= String.length m).
  { subst m. pose proof (decimal_nonempty n).
    destruct (String.length (decimal n) <=? 6)%nat eqn:E.
    - apply Nat.leb_le in E. rewrite length_append, length_repeat1. lia.
    - apply Nat.leb_gt in E. lia. }
  exists (String.substring 0 (String.length m - 6) m), (drop (String.length m - 6) m).
  split; [reflexivity|]. split; [now apply allChars_substring0|].
  split; [rewrite length_substring0; lia|].
  split; [now apply allChars_drop|]. rewrite length_drop. lia.
Qed.

Lemma digit_is_not_minus (c : ascii) (s : string) :
  isDigit c = true ->
  match String c s with
  | String "-" s' => s'
  | _ => String c s
  end = String c s.
Proof.
  destruct c as [[] [] [] [] [] [] [] []]; try reflexivity; discriminate.
Qed.

Lemma digits_lack_point (s : string) : allDigits s = true -> lacks "." s = true.
Proof.
  apply allChars_impl. intros c.
  destruct c as [[] [] [] [] [] [] [] []]; try reflexivity; discriminate.
Qed.

Lemma isFixed6_unsigned (a b : string) :
  allDigits a = true -> 1 <= String.length a ->
  allDigits b = true -> String.length b = 6 ->
  isFixed6 (a ++ "." ++ b) = true.
Proof.
  intros Ha Hla Hb Hlb. unfold isFixed6.
  destruct a as [|c a]; [cbn in Hla; lia|].
  assert (Hc : isDigit c = true).
  { unfold allDigits in Ha. cbn [allChars] in Ha. now apply andb_true_iff in Ha. }
  cbn [append]. rewrite (digit_is_not_minus c _ Hc).
  change (String c (a ++ String "." b)) with (String c a ++ String "." b).
  rewrite split_lacks_sep by now apply digits_lack_point.
  rewrite split_lacks by now apply digits_lack_point.
  rewrite Ha, Hb, Hlb. reflexivity.
Qed.

Lemma isFixed6_signed (a b : string) :
  allDigits a = true -> 1 <= String.length a ->
  allDigits b = true -> String.length b = 6 ->
  isFixed6 ("-" ++ a ++ "." ++ b) = true.
Proof.
  intros Ha Hla Hb Hlb. unfold isFixed6. cbn [append].
  rewrite split_lacks_sep by now apply digits_lack_point.
  rewrite split_lacks by now apply digits_lack_point.
  rewrite Ha, Hb, Hlb. destruct a; [cbn in Hla; lia | reflexivity].
Qed.

(** On a finite number of magnitude below [10^21], [toFixed(6)] answers in
    fixed-point notation with six digits after the point. *)
Lemma toFixed_isFixed6 (x : Number) :
  inFixedRange x = true -> isFixed6 (toFixed x 6) = true.
Proof.
  unfold inFixedRange, toFixed. destruct (Prim2SF x) as [s|s| |s m e]; try discriminate.
  - intros _. destruct (fixedDigits_shape 0) as (a & b & -> & Ha & Hla & Hb & Hlb).
    now apply isFixed6_unsigned.
  - intros H. apply negb_true_iff in H. rewrite H.
    destruct (fixedDigits_shape (scaled m e 6)) as (a & b & -> & Ha & Hla & Hb & Hlb).
    destruct s; [now apply isFixed6_signed | now apply isFixed6_unsigned].
Qed.

(** ** The values printed by [toFixed] are tokens *)

Lemma digit_notWhiteSpace (c : ascii) : isDigit c = true -> notWhiteSpace c = true.
Proof. destruct c as [[] [] [] [] [] [] [] []]; try reflexivity; discriminate. Qed.

Lemma digits_notWhiteSpace (s : string) :
  allDigits s = true -> allChars notWhiteSpace s = true.
Proof. apply allChars_impl, digit_notWhiteSpace. Qed.

Lemma isToken_intro (s : string) :
  1 <= String.length s -> allChars notWhiteSpace s = true -> isToken s = true.
Proof.
  intros Hl Hs. unfold isToken. rewrite Hs.
  destruct s; [cbn in Hl; lia | reflexivity].
Qed.

Lemma isToken_elim (s : string) :
  isToken s = true -> 1 <= String.length s /\ allChars notWhiteSpace s = true.
Proof.
  unfold isToken. intros H. apply andb_true_iff in H as [Hn Hs].
  split; [|assumption]. destruct s; [discriminate | cbn; lia].
Qed.

Lemma isToken_append (a b : string) :
  allChars notWhiteSpace a = true -> isToken b = true -> isToken (a ++ b) = true.
Proof.
  intros Ha Hb. apply isToken_elim in Hb as [Hl Hb]. apply isToken_intro.
  - rewrite length_append. lia.
  - now rewrite allChars_append, Ha, Hb.
Qed.

Lemma allChars_stripZeros (p : ascii -> bool) (s : string) :
  allChars p s = true -> allChars p (stripZeros s) = true.
Proof.
  induction s as [|c s IH]; cbn [stripZeros allChars]; [reflexivity|].
  intros H. apply andb_true_iff in H as [Hc Hs]. specialize (IH Hs).
  destruct (stripZeros s) as [|c' t].
  - destruct (Ascii.eqb c "0"); cbn [allChars]; [reflexivity | now rewrite Hc].
  - cbn [allChars] in *. now rewrite Hc, IH.
Qed.

Lemma fixedDigits_token (n : Z) (f : nat) : isToken (fixedDigits n f) = true.
Proof.
  unfold fixedDigits. destruct f as [|f].
  - apply isToken_intro; [apply decimal_nonempty|].
    apply digits_notWhiteSpace, decimal_digits.
  - set (m := if (String.length (decimal n) <=? S f)%nat
              then repeat "0" (S f + 1 - String.length (decimal n)) ++ decimal n
              else decimal n).
    assert (Hm : allChars notWhiteSpace m = true).
    { subst m. destruct (_ <=? S f)%nat.
      - rewrite allChars_append, allChars_repeat by reflexivity.
        apply digits_notWhiteSpace, decimal_digits.
      - apply digits_notWhiteSpace, decimal_digits. }
    apply isToken_append; [now apply allChars_substring0|].
    apply isToken_intro; [cbn; lia|].
    change ("." ++ ?x) with (String "." x). cbn [allChars].
    now rewrite allChars_drop.
Qed.

Lemma toStringLarge_token (m : positive) (e : Z) : isToken (toStringLarge m e) = true.
Proof.
  unfold toStringLarge.
  set (all := decimal (shortest _ _ _ _ _)).
  pose proof (allChars_stripZeros notWhiteSpace all
                (digits_notWhiteSpace _ (decimal_digits _))) as H.
  destruct (stripZeros all) as [|c rest]; [reflexivity|].
  cbn [allChars] in H. apply andb_true_iff in H as [Hc Hrest].
  set (ex := decimal (Z.of_nat (String.length all - 1))).
  assert (Hex : allChars notWhiteSpace ex = true)
    by apply digits_notWhiteSpace, decimal_digits.
  destruct rest as [|c' rest'].
  - apply isToken_intro; [cbn; lia|]. cbn [allChars append]. now rewrite Hc, Hex.
  - apply isToken_intro; [cbn; lia|].
    change ("." ++ ?x) with (String "." x). cbn [allChars].
    rewrite Hc, allChars_append, Hrest.
    change ("e+" ++ ex) with (String "e" (String "+" ex)). cbn [allChars].
    now rewrite Hex.
Qed.

(** Whatever the number, [toFixed] prints one token. *)
Lemma toFixed_token (x : Number) (f : nat) : isToken (toFixed x f) = true.
Proof.
  unfold toFixed. destruct (Prim2SF x) as [s|s| |s m e].
  - apply fixedDigits_token.
  - now destruct s.
  - reflexivity.
  - apply isToken_append; [now destruct s|].
    destruct (atLeast1e21 m e); [apply toStringLarge_token | apply fixedDigits_token].
Qed.

(** ** Joining, trimming and splitting tokens *)

Lemma concatAll_app (l1 l2 : list string) :
  concatAll (l1 ++ l2)%list = concatAll l1 ++ concatAll l2.
Proof.
  induction l1 as [|a l1 IH]; cbn [concatAll List.app append]; [reflexivity|].
  now rewrite IH, append_assoc.
Qed.

Lemma trimEnd_token_space (t : string) :
  allChars notWhiteSpace t = true -> trimEnd (t ++ " ") = t.
Proof.
  induction t as [|c t IH]; cbn [append allChars trimEnd]; [reflexivity|].
  intros H. apply andb_true_iff in H as [Hc Ht]. rewrite (IH Ht).
  unfold notWhiteSpace in Hc. apply negb_true_iff in Hc. rewrite Hc.
  now destruct t.
Qed.

Lemma trimEnd_append (a b : string) :
  1 <= String.length (trimEnd b) -> trimEnd (a ++ b) = a ++ trimEnd b.
Proof.
  intros Hb. induction a as [|c a IH]; cbn [append trimEnd]; [reflexivity|].
  rewrite IH. destruct (a ++ trimEnd b) eqn:E; [|reflexivity].
  apply (f_equal String.length) in E. rewrite length_append in E. cbn in E. lia.
Qed.

Lemma trimStart_token (t rest : string) :
  isToken t = true -> trimStart (t ++ rest) = t ++ rest.
Proof.
  intros H. apply isToken_elim in H as [Hl Ht].
  destruct t as [|c t]; [cbn in Hl; lia|].
  cbn [allChars] in Ht. apply andb_true_iff in Ht as [Hc _].
  unfold notWhiteSpace in Hc. apply negb_true_iff in Hc.
  cbn [append trimStart]. now rewrite Hc.
Qed.

Lemma concat_tokens_nonempty (t : string) (ts : list string) :
  isToken t = true -> 1 <= String.length (String.concat " " (t :: ts)).
Proof.
  intros H. apply isToken_elim in H as [Hl _].
  destruct ts; cbn [String.concat]; [assumption|].
  rewrite length_append. lia.
Qed.

(** Tokens each followed by a space, trimmed, are the tokens joined by single
    spaces. *)
Lemma trim_tokens (t : string) (ts : list string) :
  Forall (fun s => isToken s = true) (t :: ts) ->
  trim (concatAll (map (fun s => s ++ " ") (t :: ts))) = String.concat " " (t :: ts).
Proof.
  intros H. unfold trim.
  assert (Ht : isToken t = true) by now inversion H.
  cbn [map concatAll]. rewrite append_assoc, (trimStart_token _ _ Ht).
  rewrite <- append_assoc. change ((t ++ " ") ++ concatAll (map (fun s => s ++ " ") ts))
    with (concatAll (map (fun s => s ++ " ") (t :: ts))).
  clear Ht. revert t H. induction ts as [|t2 ts IH]; intros t H.
  - cbn [map concatAll String.concat]. rewrite append_nil_r.
    apply trimEnd_token_space. inversion H as [|? ? Ht _]; subst.
    now apply isToken_elim in Ht.
  - assert (H2 : Forall (fun s => isToken s = true) (t2 :: ts)) by now inversion H.
    specialize (IH t2 H2).
    change (concatAll (map (fun s => s ++ " ") (t :: t2 :: ts)))
      with ((t ++ " ") ++ concatAll (map (fun s => s ++ " ") (t2 :: ts))).
    rewrite trimEnd_append, IH.
    + cbn [String.concat]. now rewrite append_assoc.
    + rewrite IH. apply concat_tokens_nonempty. now inversion H2.
Qed.

Lemma token_lacks (c : ascii) (t : string) :
  isWhiteSpace c = true -> isToken t = true -> lacks c t = true.
Proof.
  intros Hc Ht. apply isToken_elim in Ht as [_ Ht]. revert Ht.
  apply allChars_impl. intros c' Hc'. unfold notWhiteSpace in Hc'.
  destruct (Ascii.eqb c' c) eqn:E; [|reflexivity].
  apply Ascii.eqb_eq in E. subst c'. rewrite Hc in Hc'. discriminate.
Qed.

(** Splitting joined tokens at the spaces gives the tokens back. *)
Lemma split_concat_tokens (t : string) (ts : list string) :
  Forall (fun s => isToken s = true) (t :: ts) ->
  split " " (String.concat " " (t :: ts)) = t :: ts.
Proof.
  revert t. induction ts as [|t2 ts IH]; intros t H.
  - cbn [String.concat]. apply split_lacks, token_lacks; [reflexivity | now inversion H].
  - change (String.concat " " (t :: t2 :: ts))
      with (t ++ " " ++ String.concat " " (t2 :: ts)).
    change (" " ++ ?x) with (String " " x).
    rewrite split_lacks_sep by (apply token_lacks; [reflexivity | now inversion H]).
    rewrite IH; [reflexivity | now inversion H].
Qed.

Lemma concat_tokens_lacks (c : ascii) (ts : list string) :
  isWhiteSpace c = true -> Ascii.eqb " " c = false ->
  Forall (fun s => isToken s = true) ts ->
  lacks c (String.concat " " ts) = true.
Proof.
  intros Hc Hsp H. induction ts as [|t ts IH]; [reflexivity|].
  assert (Ht : lacks c t = true) by (apply token_lacks; [assumption | now inversion H]).
  destruct ts as [|t2 ts]; [exact Ht|].
  change (String.concat " " (t :: t2 :: ts))
    with (t ++ " " ++ String.concat " " (t2 :: ts)).
  unfold lacks in *. rewrite !allChars_append, Ht, IH by now inversion H.
  cbn [allChars]. now rewrite Hsp.
Qed.

Lemma split_append_sep (sep : ascii) (a b : string) :
  split sep (a ++ String sep b) = (split sep a ++ split sep b)%list.
Proof.
  induction a as [|c a IH]; cbn [append split].
  - now rewrite Ascii.eqb_refl.
  - rewrite IH. destruct (Ascii.eqb c sep); [reflexivity|].
    rewrite (split_cons sep a). reflexivity.
Qed.

(** The last line of a text that ends with a line, a line feed, a second
    line without line feeds, and a line feed, is that second line. *)
Lemma lastLine_append (a line : string) :
  lacks (ascii_of_nat 10) line = true ->
  lastLine (a ++ LF ++ line ++ LF) = line.
Proof.
  intros H. unfold lastLine, lines, LF.
  change (a ++ String (ascii_of_nat 10) "" ++ line ++ String (ascii_of_nat 10) "")
    with (a ++ String (ascii_of_nat 10) (line ++ String (ascii_of_nat 10) "")).
  rewrite split_append_sep, (split_lacks_sep _ _ _ H).
  cbn [split]. rewrite length_app. cbn [List.length].
  replace (List.length (split (ascii_of_nat 10) a) + 2 - 2)
    with (List.length (split (ascii_of_nat 10) a)) by lia.
  rewrite app_nth2 by lia. now rewrite Nat.sub_diag.
Qed.

(** ** The motion line *)

Section Motion.

Variable THREE : Library.
Variable scene : Scene.

Lemma channelValues_tokens (bones : list ref) :
  Forall (fun s => isToken s = true) (flat_map (channelValues THREE scene) bones).
Proof.
  apply Forall_flat_map, Forall_forall. intros bone _.
  unfold channelValues. apply Forall_map, Forall_forall. intros v _.
  apply toFixed_token.
Qed.

Lemma channelValues_length (bones : list ref) :
  List.length (flat_map (channelValues THREE scene) bones) = 6 * List.length bones.
Proof.
  induction bones as [|b bones IH]; [reflexivity|].
  cbn [flat_map]. rewrite length_app, IH.
  unfold channelValues, channelNumbers. cbn [map List.length]. lia.
Qed.

Lemma channelValues_cons (b : ref) (bones : list ref) :
  exists t ts, flat_map (channelValues THREE scene) (b :: bones) = t :: ts.
Proof.
  cbn [flat_map]. unfold channelValues at 1, channelNumbers. cbn [map List.app]. eauto.
Qed.

(** The loop of [buildBVHMotion] appends, bone after bone, the six values
    of the bone, each followed by a space. *)
Lemma buildBVHMotion_loop (bones : list ref) (motion : string) :
  fold_left
    (fun motion bone =>
       let pos := position (scene bone) in
       let rot := setFromQuaternion THREE (quaternion (scene bone)) "XYZ" in
       let posValues :=
         toFixed (Vector3.x pos) 6 ++ " " ++ toFixed (Vector3.y pos) 6 ++ " "
         ++ toFixed (Vector3.z pos) 6 in
       let rotValues :=
         toFixed (radToDeg THREE (Euler.x rot)) 6 ++ " "
         ++ toFixed (radToDeg THREE (Euler.y rot)) 6 ++ " "
         ++ toFixed (radToDeg THREE (Euler.z rot)) 6 in
       motion ++ posValues ++ " " ++ rotValues ++ " ")
    bones motion
  = motion
    ++ concatAll (map (fun s => s ++ " ") (flat_map (channelValues THREE scene) bones)).
Proof.
  revert motion. induction bones as [|b bones IH]; intros motion.
  - cbn. now rewrite append_nil_r.
  - cbn [fold_left flat_map]. rewrite IH, map_app, concatAll_app.
    unfold channelValues at 2, channelNumbers. cbn [map concatAll].
    rewrite !append_assoc. reflexivity.
Qed.

(** The motion line of a non-empty bone set: the values of all bones, in
    bone-set order, joined by single spaces. *)
Lemma buildBVHMotion_line (bones : list ref) :
  bones <> [] ->
  buildBVHMotion THREE scene bones
  = String.concat " " (flat_map (channelValues THREE scene) bones) ++ LF.
Proof.
  intros Hne. unfold buildBVHMotion. rewrite buildBVHMotion_loop.
  change ("" ++ ?x) with x.
  pose proof (channelValues_tokens bones) as Htok.
  destruct bones as [|b bones]; [congruence|].
  destruct (channelValues_cons b bones) as (t & ts & E). rewrite E in *.
  now rewrite trim_tokens.
Qed.

Lemma document_motionTokens (hierarchy : string) (bones : list ref) :
  bones <> [] ->
  motionTokens (document hierarchy (buildBVHMotion THREE scene bones))
  = flat_map (channelValues THREE scene) bones.
Proof.
  intros Hne. rewrite (buildBVHMotion_line bones Hne).
  pose proof (channelValues_tokens bones) as Htok.
  unfold motionTokens, document.
  replace ("HIERARCHY" ++ LF ++ hierarchy ++ "MOTION" ++ LF ++ "Frames: 1" ++ LF
           ++ "Frame Time: 0.033333" ++ LF
           ++ String.concat " " (flat_map (channelValues THREE scene) bones) ++ LF)
    with (("HIERARCHY" ++ LF ++ hierarchy ++ "MOTION" ++ LF ++ "Frames: 1" ++ LF
           ++ "Frame Time: 0.033333")
          ++ LF ++ String.concat " " (flat_map (channelValues THREE scene) bones) ++ LF)
    by (now rewrite !append_assoc).
  rewrite lastLine_append by (apply concat_tokens_lacks; [reflexivity | reflexivity | exact Htok]).
  destruct bones as [|b bones]; [congruence|].
  destruct (channelValues_cons b bones) as (t & ts & E). rewrite E in *.
  now apply split_concat_tokens.
Qed.

Lemma group_of_bone (bones : list ref) (n : nat) (bone : ref) :
  nth_error bones n = Some bone ->
  group n (flat_map (channelValues THREE scene) bones) = channelValues THREE scene bone.
Proof.
  unfold group. revert bones. induction n as [|n IH]; intros [|b bones] H; try discriminate.
  - inversion H; subst b. cbn [flat_map]. unfold channelValues at 1, channelNumbers.
    cbn [map List.app Nat.mul skipn firstn]. reflexivity.
  - cbn [nth_error] in H. replace (6 * S n) with (6 + 6 * n) by lia.
    cbn [flat_map]. unfold channelValues at 1, channelNumbers.
    cbn [map List.app Nat.add skipn]. now apply IH.
Qed.

End Motion.

(** C2, as stated, fails: with the bone set listed as A, R, B (R the parent
    of A, A the parent of B) the hierarchy emits R first, and the first group
    of six motion values is that of A, not that of R. *)
Lemma motion_groups_miss_traversal_order :
  exists w' doc t,
    exportToBVH three chain 4 (dots [2; 1; 3]) emptyBrowser = Some w'
    /\ w' = downloaded doc emptyBrowser
    /\ rootBone chain [2; 1; 3] = Some 1
    /\ boneTree chain 4 1 = Some t
    /\ preorder t = [1; 2; 3]
    /\ group 0 (motionTokens doc) = channelValues three chain 2
    /\ eqbList (group 0 (motionTokens doc)) (channelValues three chain 1) = false.
Proof.
  eexists. eexists. eexists.
  split; [vm_compute; reflexivity|].
  split; [reflexivity|].
  split; [reflexivity|].
  split; [reflexivity|].
  split; [reflexivity|].
  split; vm_compute; reflexivity.
Qed.

(** C2, amended. For a non-empty bone set the motion line of the exported
    document has exactly 6 times as many space-separated tokens as there are
    bones, and the Nth group of six is the position and rotation of the Nth
    bone in bone-set order; it therefore belongs to the Nth joint of the
    hierarchy traversal whenever the traversal emits the bones in bone-set
    order. *)
Theorem motion_groups_follow_bone_set_order (THREE : Library) (scene : Scene)
    (fuel : nat) (boneDots : list Mesh) (w w' : Browser) :
  boneDots <> [] ->
  exportToBVH THREE scene fuel boneDots w = Some w' ->
  let bones := map userData_bone boneDots in
  exists doc root t,
    w' = downloaded doc w
    /\ rootBone scene bones = Some root
    /\ boneTree scene fuel root = Some t
    /\ List.length (motionTokens doc) = 6 * List.length bones
    /\ (forall n bone, nth_error bones n = Some bone ->
          group n (motionTokens doc) = channelValues THREE scene bone)
    /\ (preorder t = bones ->
        forall n bone, nth_error (preorder t) n = Some bone ->
          group n (motionTokens doc) = channelValues THREE scene bone).
Proof.
  intros Hne Hex bones.
  assert (Hb : bones <> []) by (subst bones; destruct boneDots; [congruence | discriminate]).
  destruct (rootBone_some scene bones Hb) as (root & Hroot).
  rewrite (exportToBVH_eq THREE scene fuel boneDots w root Hroot) in Hex.
  rewrite buildBVHHierarchy_render in Hex.
  destruct (boneTree scene fuel root) as [t|] eqn:Et; [|discriminate].
  cbn [option_map] in Hex. inversion Hex as [Hw]. clear Hex Hw.
  eexists. exists root, t. split; [reflexivity|].
  fold bones. rewrite (document_motionTokens THREE scene _ bones Hb).
  split; [exact Hroot|]. split; [exact Et|].
  split; [apply channelValues_length|].
  split; [intros n bone; apply group_of_bone|].
  intros -> n bone. apply group_of_bone.
Qed.

(** The motion line of the chain R, A, B. *)
Lemma motion_groups_follow_bone_set_order_witness :
  dots [1; 2; 3] <> []
  /\ exists w',
       exportToBVH three chain 4 (dots [1; 2; 3]) emptyBrowser = Some w'
       /\ exists doc root t,
            w' = downloaded doc emptyBrowser
            /\ rootBone chain [1; 2; 3] = Some root
            /\ boneTree chain 4 root = Some t
            /\ List.length (motionTokens doc) = 6 * List.length [1; 2; 3]
            /\ (forall n bone, nth_error [1; 2; 3] n = Some bone ->
                  group n (motionTokens doc) = channelValues three chain bone)
            /\ (preorder t = [1; 2; 3] ->
                forall n bone, nth_error (preorder t) n = Some bone ->
                  group n (motionTokens doc) = channelValues three chain bone).
Proof.
  split; [discriminate|].
  eexists. split; [reflexivity|].
  apply (motion_groups_follow_bone_set_order three chain 4 (dots [1; 2; 3]) emptyBrowser);
    [discriminate | reflexivity].
Defined.

(** ** Number formatting in the document *)

Lemma toFixed_all_fixed6 (vs : list Number) :
  forallb inFixedRange vs = true ->
  forallb isFixed6 (map (fun v => toFixed v 6) vs) = true.
Proof.
  induction vs as [|v vs IH]; cbn [forallb map]; [reflexivity|].
  intros H. apply andb_true_iff in H as [Hv Hvs].
  now rewrite (toFixed_isFixed6 v Hv), (IH Hvs).
Qed.

(** C3, as stated, fails: the OFFSET line of an End Site block is the
    literal 0.0 0.0 0.0, one digit after the point; and [toFixed] leaves
    fixed-point notation on numbers that are not finite or reach 10^21. *)
Lemma end_site_offsets_are_not_fixed6 :
  exists w1 doc1 w2 doc2,
    exportToBVH three single 1 (dots [1]) emptyBrowser = Some w1
    /\ w1 = downloaded doc1 emptyBrowser
    /\ offsetTokens doc1 = ["1.000000"; "0.000000"; "-2.500000"; "0.0"; "0.0"; "0.0"]
    /\ forallb isFixed6 (offsetTokens doc1) = false
    /\ exportToBVH three distant 1 (dots [1]) emptyBrowser = Some w2
    /\ w2 = downloaded doc2 emptyBrowser
    /\ offsetTokens doc2 = ["1e+21"; "Infinity"; "0.500000"; "0.0"; "0.0"; "0.0"]
    /\ map isFixed6 (firstn 3 (motionTokens doc2)) = [false; false; true].
Proof.
  eexists. eexists. eexists. eexists.
  split; [vm_compute; reflexivity|].
  split; [reflexivity|].
  split; [vm_compute; reflexivity|].
  split; [vm_compute; reflexivity|].
  split; [vm_compute; reflexivity|].
  split; [reflexivity|].
  split; vm_compute; reflexivity.
Qed.

(** C3, amended. In an exported document the hierarchy is the rendering of
    the call tree, whose joints carry the OFFSET values [toFixed(6)] of the
    bone's position, and the motion tokens are the [toFixed(6)] values of
    every bone's position and rotation; such a value is in fixed-point
    notation with exactly six digits after the point whenever its number is
    finite and of magnitude below 10^21, be it positive, negative or zero.
    The OFFSET line of an End Site block is the literal 0.0 0.0 0.0 and is
    not in that notation. *)
Theorem joint_offsets_and_motion_values_are_fixed6 (THREE : Library) (scene : Scene)
    (fuel : nat) (boneDots : list Mesh) (w w' : Browser) :
  boneDots <> [] ->
  exportToBVH THREE scene fuel boneDots w = Some w' ->
  let bones := map userData_bone boneDots in
  exists doc t,
    w' = downloaded doc w
    /\ doc = document (render scene t 0) (buildBVHMotion THREE scene bones)
    /\ motionTokens doc
       = flat_map (fun bone => map (fun v => toFixed v 6) (channelNumbers THREE scene bone))
           bones
    /\ (forall bone,
          offsetValues scene bone = map (fun v => toFixed v 6) (offsetNumbers scene bone))
    /\ (forall v, inFixedRange v = true -> isFixed6 (toFixed v 6) = true)
    /\ (forall bone, forallb inFixedRange (offsetNumbers scene bone) = true ->
          forallb isFixed6 (offsetValues scene bone) = true)
    /\ (forall bone, forallb inFixedRange (channelNumbers THREE scene bone) = true ->
          forallb isFixed6 (channelValues THREE scene bone) = true)
    /\ (forall level,
          endSite level
          = repeat "  " level ++ "  End Site" ++ LF
            ++ repeat "  " level ++ "  {" ++ LF
            ++ repeat "  " level ++ "    OFFSET 0.0 0.0 0.0" ++ LF
            ++ repeat "  " level ++ "  }" ++ LF)
    /\ forallb isFixed6 (split " " "0.0 0.0 0.0") = false.
Proof.
  intros Hne Hex bones.
  assert (Hb : bones <> []) by (subst bones; destruct boneDots; [congruence | discriminate]).
  destruct (rootBone_some scene bones Hb) as (root & Hroot).
  rewrite (exportToBVH_eq THREE scene fuel boneDots w root Hroot) in Hex.
  rewrite buildBVHHierarchy_render in Hex.
  destruct (boneTree scene fuel root) as [t|] eqn:Et; [|discriminate].
  cbn [option_map] in Hex. inversion Hex as [Hw]. clear Hex Hw.
  eexists. exists t. split; [reflexivity|]. split; [reflexivity|].
  fold bones. rewrite (document_motionTokens THREE scene _ bones Hb).
  split; [reflexivity|]. split; [reflexivity|].
  split; [exact toFixed_isFixed6|].
  split; [intros bone; apply toFixed_all_fixed6|].
  split; [intros bone; apply toFixed_all_fixed6|].
  split; reflexivity.
Qed.

(** A bone at (1, 0, -2.5): a positive, a zero and a negative value. *)
Lemma joint_offsets_and_motion_values_are_fixed6_witness :
  dots [1] <> []
  /\ exists w',
       exportToBVH three single 1 (dots [1]) emptyBrowser = Some w'
       /\ forallb inFixedRange (channelNumbers three single 1) = true
       /\ channelValues three single 1
          = ["1.000000"; "0.000000"; "-2.500000"; "0.000000"; "0.000000"; "0.000000"]
       /\ exists doc t,
            w' = downloaded doc emptyBrowser
            /\ doc = document (render single t 0) (buildBVHMotion three single [1])
            /\ motionTokens doc
               = flat_map (fun bone => map (fun v => toFixed v 6)
                                         (channelNumbers three single bone)) [1]
            /\ (forall bone,
                  offsetValues single bone
                  = map (fun v => toFixed v 6) (offsetNumbers single bone))
            /\ (forall v, inFixedRange v = true -> isFixed6 (toFixed v 6) = true)
            /\ (forall bone, forallb inFixedRange (offsetNumbers single bone) = true ->
                  forallb isFixed6 (offsetValues single bone) = true)
            /\ (forall bone, forallb inFixedRange (channelNumbers three single bone) = true ->
                  forallb isFixed6 (channelValues three single bone) = true)
            /\ (forall level,
                  endSite level
                  = repeat "  " level ++ "  End Site" ++ LF
                    ++ repeat "  " level ++ "  {" ++ LF
                    ++ repeat "  " level ++ "    OFFSET 0.0 0.0 0.0" ++ LF
                    ++ repeat "  " level ++ "  }" ++ LF)
            /\ forallb isFixed6 (split " " "0.0 0.0 0.0") = false.
Proof.
  split; [discriminate|].
  eexists. split; [reflexivity|].
  split; [reflexivity|]. split; [reflexivity|].
  apply (joint_offsets_and_motion_values_are_fixed6 three single 1 (dots [1]) emptyBrowser);
    [discriminate | reflexivity].
Defined.

(** ** The joints of the hierarchy are the bones reachable from the root *)

Section Reachability.

Variable scene : Scene.

Lemma boneTree_inv (fuel : nat) (bone : ref) (t : JointTree) :
  boneTree scene fuel bone = Some t ->
  exists nested,
    t = Joint bone nested
    /\ Forall2 (fun child k => boneTree scene (fuel - 1) child = Some k)
         (boneChildren scene bone) nested.
Proof.
  destruct fuel as [|fuel]; [discriminate|]. cbn [boneTree Nat.sub].
  rewrite Nat.sub_0_r.
  destruct (mapM _ _) as [nested|] eqn:E; [|discriminate].
  intros H; inversion H; subst t. exists nested. split; [reflexivity|].
  now apply mapM_Forall2.
Qed.

Lemma Forall2_in_right {A B : Type} (R : A -> B -> Prop) (l : list A) (l' : list B) (b : B) :
  Forall2 R l l' -> In b l' -> exists a, In a l /\ R a b.
Proof.
  induction 1 as [|a0 b0 l l' Hab _ IH]; intros Hin; [contradiction|].
  destruct Hin as [<- | Hin].
  - exists a0. split; [now left | assumption].
  - destruct (IH Hin) as (a & Ha & Hr). exists a. split; [now right | assumption].
Qed.

Lemma Forall2_in_left {A B : Type} (R : A -> B -> Prop) (l : list A) (l' : list B) (a : A) :
  Forall2 R l l' -> In a l -> exists b, In b l' /\ R a b.
Proof.
  induction 1 as [|a0 b0 l l' Hab _ IH]; intros Hin; [contradiction|].
  destruct Hin as [<- | Hin].
  - exists b0. split; [now left | assumption].
  - destruct (IH Hin) as (b & Hb & Hr). exists b. split; [now right | assumption].
Qed.

Lemma preorder_is_reachable (fuel : nat) :
  forall root t bone,
    boneTree scene fuel root = Some t ->
    In bone (preorder t) -> reachable scene root bone.
Proof.
  induction fuel as [|fuel IH]; intros root t bone Ht Hin; [discriminate|].
  destruct (boneTree_inv _ _ _ Ht) as (nested & -> & Hnested).
  cbn [Nat.sub] in Hnested. rewrite Nat.sub_0_r in Hnested.
  cbn [preorder] in Hin. destruct Hin as [<- | Hin]; [apply rt_refl|].
  apply in_flat_map in Hin as (k & Hk & Hin).
  destruct (Forall2_in_right _ _ _ _ Hnested Hk) as (child & Hchild & Hck).
  apply rt_trans with child; [now apply rt_step | now apply (IH child k)].
Qed.

Lemma reachable_in_preorder (root bone : ref) :
  reachable scene root bone ->
  forall fuel t, boneTree scene fuel root = Some t -> In bone (preorder t).
Proof.
  intros H. apply clos_rt_rt1n in H.
  induction H as [root | root child bone Hstep _ IH]; intros fuel t Ht;
    destruct (boneTree_inv _ _ _ Ht) as (nested & -> & Hnested); cbn [preorder].
  - now left.
  - right. destruct (Forall2_in_left _ _ _ _ Hnested Hstep) as (k & Hk & Hck).
    apply in_flat_map. exists k. split; [assumption|]. now apply (IH _ _ Hck).
Qed.

Lemma fewer_joints_than_bones (root : ref) (t : JointTree) (bones : list ref) :
  (forall bone, In bone (preorder t) <-> reachable scene root bone) ->
  (forall bone, reachable scene root bone -> In bone bones) ->
  NoDup (preorder t) ->
  (exists bone, In bone bones /\ ~ reachable scene root bone) ->
  List.length (preorder t) < List.length bones.
Proof.
  intros Hiff Hin Hnodup (bone & Hbone & Hnot).
  assert (Hle : List.length (bone :: preorder t) <= List.length bones).
  { apply NoDup_incl_length.
    - constructor; [|assumption]. intros H. apply Hnot. now apply Hiff.
    - intros b [<- | Hb]; [assumption|]. now apply Hin, Hiff. }
  cbn [List.length] in Hle. lia.
Qed.

End Reachability.

(** ** When no name holds a line feed, the rewrite of [js/main.js] is idle *)

Abbreviation lf := (ascii_of_nat 10) (only parsing).

Lemma prefix_cons (a b : ascii) (p s : string) :
  String.prefix (String a p) (String b s)
  = if Ascii.eqb a b then String.prefix p s else false.
Proof.
  cbn [String.prefix]. destruct (ascii_dec a b) as [->|Hne].
  - now rewrite Ascii.eqb_refl.
  - apply Ascii.eqb_neq in Hne. now rewrite Hne.
Qed.

Lemma lacks_cons (c a : ascii) (s : string) :
  lacks c (String a s) = true -> Ascii.eqb a c = false /\ lacks c s = true.
Proof.
  unfold lacks. cbn [allChars]. intros H. apply andb_true_iff in H as [Ha Hs].
  split; [now apply negb_true_iff in Ha | assumption].
Qed.

(** A pattern with a line feed in it matches at the start of a text only if
    the text's first line is the pattern's. *)
Lemma prefix_across (p1 p2 x rest : string) :
  lacks lf p1 = true -> lacks lf x = true ->
  String.prefix p2 rest = false ->
  String.prefix (p1 ++ String lf p2) (x ++ String lf rest) = false.
Proof.
  revert x. induction p1 as [|a p1 IH]; intros x Hp Hx Hrest.
  - destruct x as [|c x]; cbn [append]; rewrite prefix_cons.
    + now rewrite Ascii.eqb_refl.
    + apply lacks_cons in Hx as [Hc _]. rewrite Ascii.eqb_sym. now rewrite Hc.
  - apply lacks_cons in Hp as [Ha Hp].
    destruct x as [|c x]; cbn [append]; rewrite prefix_cons.
    + now rewrite Ha.
    + apply lacks_cons in Hx as [_ Hx]. destruct (Ascii.eqb a c); [|reflexivity].
      now apply IH.
Qed.

Lemma prefix_within_line (p l rest : string) :
  lacks lf p = true -> String.prefix p l = false ->
  String.prefix p (l ++ String lf rest) = false.
Proof.
  revert l. induction p as [|a p IH]; intros l Hp Hl.
  - destruct l; discriminate.
  - apply lacks_cons in Hp as [Ha Hp].
    destruct l as [|c l]; cbn [append]; rewrite prefix_cons.
    + now rewrite Ha.
    + rewrite prefix_cons in Hl. destruct (Ascii.eqb a c); [now apply IH | reflexivity].
Qed.

Lemma rootRewrite_line (x rest : string) :
  lacks lf x = true ->
  rootRewrite rest = rest -> startsWith rest "JOINT" = false ->
  rootRewrite (x ++ LF ++ rest) = x ++ LF ++ rest.
Proof.
  unfold rootRewrite.
  set (pat := "HIERARCHY" ++ LF ++ "JOINT"). set (rep := "HIERARCHY" ++ LF ++ "ROOT").
  intros Hx Hrest Hstart.
  assert (Hp : forall y, lacks lf y = true ->
                 String.prefix pat (y ++ String lf rest) = false).
  { intros y Hy. exact (prefix_across "HIERARCHY" "JOINT" y rest eq_refl Hy Hstart). }
  change (LF ++ rest) with (String lf rest).
  induction x as [|c x IH].
  - specialize (Hp "" eq_refl). cbn [append] in *. cbn [replace].
    now rewrite Hp, Hrest.
  - specialize (IH (proj2 (lacks_cons _ _ _ Hx))).
    specialize (Hp (String c x) Hx). cbn [append] in *. cbn [replace].
    now rewrite Hp, IH.
Qed.

Lemma unlines_cons (l : string) (ls : list string) :
  unlines (l :: ls) = l ++ LF ++ unlines ls.
Proof. unfold unlines. cbn [map concatAll]. now rewrite append_assoc. Qed.

Lemma unlines_app (l1 l2 : list string) :
  unlines (l1 ++ l2)%list = unlines l1 ++ unlines l2.
Proof. unfold unlines. now rewrite map_app, concatAll_app. Qed.

Lemma unlines_concat (lss : list (list string)) :
  concatAll (map unlines lss) = unlines (List.concat lss).
Proof.
  induction lss as [|ls lss IH]; cbn [map concatAll List.concat]; [reflexivity|].
  now rewrite unlines_app, IH.
Qed.

(** The rewrite finds nothing in a text whose lines, after the first, do not
    start with JOINT. *)
Lemma rootRewrite_unlines (ls : list string) :
  Forall (fun l => lacks lf l = true) ls ->
  Forall (fun l => startsWith l "JOINT" = false) ls ->
  forall x, lacks lf x = true ->
    rootRewrite (x ++ LF ++ unlines ls) = x ++ LF ++ unlines ls.
Proof.
  induction ls as [|l ls IH]; intros Hfree Hquiet x Hx.
  - apply rootRewrite_line; [assumption | reflexivity | reflexivity].
  - inversion Hfree as [|? ? Hl Hfree']; inversion Hquiet as [|? ? Hq Hquiet']; subst.
    rewrite unlines_cons. apply rootRewrite_line; [assumption | now apply IH |].
    unfold startsWith, LF in *. change (String lf "" ++ ?r) with (String lf r).
    now apply prefix_within_line.
Qed.

Lemma calm_app (a b : list string) : calm a -> calm b -> calm (a ++ b)%list.
Proof. intros [Ha1 Ha2] [Hb1 Hb2]. split; now apply Forall_app. Qed.

Lemma calm_concat (lss : list (list string)) : Forall calm lss -> calm (List.concat lss).
Proof.
  induction 1 as [|ls lss Hls _ IH]; cbn [List.concat]; [split; constructor|].
  now apply calm_app.
Qed.

Lemma lacks_append (c : ascii) (a b : string) :
  lacks c a = true -> lacks c b = true -> lacks c (a ++ b) = true.
Proof. unfold lacks. intros Ha Hb. now rewrite allChars_append, Ha, Hb. Qed.

Lemma lacks_indent (level : nat) (x : string) :
  lacks lf x = true -> lacks lf (repeat "  " level ++ x) = true.
Proof.
  intros Hx. apply lacks_append; [|assumption].
  unfold lacks. now apply allChars_repeat.
Qed.


Lemma calm_single (l : string) :
  lacks lf l = true -> startsWith l "JOINT" = false -> calm [l].
Proof. intros Hl Hq. split; constructor; solve [assumption | constructor]. Qed.

(** A line at a positive level starts with a space. *)
Lemma calm_line (level : nat) (x : string) :
  lacks lf x = true ->
  (level = 0 -> startsWith x "JOINT" = false) ->
  calm [repeat "  " level ++ x].
Proof.
  intros Hx Hq. apply calm_single.
  - now apply lacks_indent.
  - destruct level; [now apply Hq | reflexivity].
Qed.

Section Copies.

Variable scene : Scene.

(** No object of the scene has a line feed in the label it would get. *)
Hypothesis names_on_one_line : forall bone, lacks lf (jointLabel scene bone) = true.

Lemma offset_line_lacks_lf (bone : ref) :
  lacks lf (String.concat " " (offsetValues scene bone)) = true.
Proof.
  apply concat_tokens_lacks; [reflexivity | reflexivity |].
  unfold offsetValues. repeat constructor; apply toFixed_token.
Qed.

Lemma jointOpen_unlines (bone : ref) (level : nat) :
  jointOpen scene bone level
  = unlines
      [repeat "  " level ++ "JOINT " ++ jointLabel scene bone;
       repeat "  " level ++ "{";
       repeat "  " level ++ "  OFFSET " ++ String.concat " " (offsetValues scene bone);
       repeat "  " level
       ++ "  CHANNELS 6 Xposition Yposition Zposition Xrotation Yrotation Zrotation"].
Proof.
  unfold jointOpen, unlines. cbn [map concatAll]. now rewrite !append_assoc, append_nil_r.
Qed.

Lemma endSite_unlines (level : nat) :
  endSite level
  = unlines
      [repeat "  " level ++ "  End Site"; repeat "  " level ++ "  {";
       repeat "  " level ++ "    OFFSET 0.0 0.0 0.0"; repeat "  " level ++ "  }"].
Proof.
  unfold endSite, unlines. cbn [map concatAll]. now rewrite !append_assoc, append_nil_r.
Qed.

Lemma closing_unlines (level : nat) :
  repeat "  " level ++ "}" ++ LF = unlines [repeat "  " level ++ "}"].
Proof. unfold unlines. cbn [map concatAll]. now rewrite !append_assoc, append_nil_r. Qed.

Lemma header_lacks_lf (bone : ref) (level : nat) :
  lacks lf (repeat "  " level ++ "JOINT " ++ jointLabel scene bone) = true.
Proof. apply lacks_indent, lacks_append; [reflexivity | apply names_on_one_line]. Qed.

(** A block of the second copy is its header line followed by lines
    that do not start with JOINT; a block below the top level has no line
    that starts with JOINT at all. *)
Lemma variant_lines (fuel : nat) :
  forall bone level s,
    Variant.buildBVHHierarchy scene fuel bone level = Some s ->
    exists ls,
      s = unlines ((repeat "  " level ++ "JOINT " ++ jointLabel scene bone) :: ls)
      /\ calm ls.
Proof.
  induction fuel as [|fuel IH]; intros bone level s Hs; [discriminate|].
  rewrite variant_step in Hs.
  destruct (mapM _ _) as [blocks|] eqn:E; [|discriminate].
  cbn [option_map] in Hs. inversion Hs as [Hs']. clear Hs Hs'.
  assert (Hblocks : exists lss, blocks = map unlines lss /\ Forall calm lss).
  { apply mapM_Forall2 in E. clear -E IH names_on_one_line.
    induction E as [|c blk cs blocks Hc _ IHE].
    - exists []. split; [reflexivity | constructor].
    - destruct IHE as (lss & -> & Hlss).
      destruct (IH _ _ _ Hc) as (ls & -> & Hls).
      eexists (_ :: lss). split; [reflexivity|]. constructor; [|assumption].
      apply (calm_app [_] ls); [|assumption].
      rewrite Nat.add_1_r.
      apply calm_single; [apply header_lacks_lf | reflexivity]. }
  destruct Hblocks as (lss & -> & Hlss).
  rewrite jointOpen_unlines, closing_unlines, unlines_concat.
  assert (Hinner : exists inner,
             match boneChildren scene bone with
             | [] => endSite level
             | _ :: _ => unlines (List.concat lss)
             end = unlines inner /\ calm inner).
  { destruct (boneChildren scene bone).
    - rewrite endSite_unlines. eexists. split; [reflexivity|].
      apply (calm_app [_]); [apply calm_line; reflexivity|].
      apply (calm_app [_]); [apply calm_line; reflexivity|].
      apply (calm_app [_]); apply calm_line; reflexivity.
    - eexists. split; [reflexivity|]. now apply calm_concat. }
  destruct Hinner as (inner & -> & Hin).
  rewrite <- !unlines_app. cbn [List.app].
  eexists. split; [reflexivity|].
  apply (calm_app [_]); [apply calm_line; reflexivity|].
  apply (calm_app [_]);
    [apply calm_line; [apply lacks_append; [reflexivity | apply offset_line_lacks_lf]
                      | reflexivity]|].
  apply (calm_app [_]); [apply calm_line; reflexivity|].
  apply calm_app; [assumption|]. apply calm_line; reflexivity.
Qed.

(** With names on one line each, the rewrite in [js/main.js] changes no
    block: both copies serialize every hierarchy alike. *)
Lemma copies_agree (fuel : nat) :
  forall bone level,
    buildBVHHierarchy scene fuel bone level
    = Variant.buildBVHHierarchy scene fuel bone level.
Proof.
  induction fuel as [|fuel IH]; intros bone level; [reflexivity|].
  rewrite buildBVHHierarchy_step.
  rewrite (mapM_ext _ (fun c => Variant.buildBVHHierarchy scene fuel c (level + 1)))
    by (intros; apply IH).
  pose proof (variant_lines (S fuel) bone level) as Hl.
  rewrite variant_step in *.
  destruct (mapM _ _) as [blocks|]; [|reflexivity].
  cbn [option_map] in *. f_equal.
  destruct (Hl _ eq_refl) as (ls & -> & Hfree & Hquiet).
  rewrite unlines_cons. apply rootRewrite_unlines; [assumption | assumption |].
  apply header_lacks_lf.
Qed.

End Copies.

(** One call of [buildBVHHierarchy]: the text of the block before the rewrite,
    which the rewrite leaves alone when names are on one line each. *)
Lemma buildBVHHierarchy_text (scene : Scene) (fuel : nat) (bone : ref) (level : nat)
    (s : string) :
  buildBVHHierarchy scene fuel bone level = Some s ->
  exists blocks,
    Forall2
      (fun child block =>
         buildBVHHierarchy scene (fuel - 1) child (level + 1) = Some block)
      (boneChildren scene bone) blocks
    /\ s = rootRewrite
             (jointOpen scene bone level
              ++ match boneChildren scene bone with
                 | [] => endSite level
                 | _ => concatAll blocks
                 end
              ++ repeat "  " level ++ "}" ++ LF)
    /\ ((forall b, lacks lf (jointLabel scene b) = true) ->
        s = jointOpen scene bone level
            ++ match boneChildren scene bone with
               | [] => endSite level
               | _ => concatAll blocks
               end
            ++ repeat "  " level ++ "}" ++ LF).
Proof.
  destruct fuel as [|fuel]; [discriminate|]. intros Hs.
  pose proof Hs as Hs'. rewrite buildBVHHierarchy_step in Hs'.
  cbn [Nat.sub]. rewrite Nat.sub_0_r.
  destruct (mapM _ _) as [blocks|] eqn:E; [|discriminate].
  cbn [option_map] in Hs'. inversion Hs' as [Hs'']. clear Hs'.
  exists blocks. split; [now apply mapM_Forall2|]. split; [reflexivity|].
  intros Hnames. rewrite Hs''.
  rewrite (copies_agree scene Hnames), variant_step in Hs.
  rewrite (mapM_ext _ (fun c => buildBVHHierarchy scene fuel c (level + 1))) in Hs
    by (intros; symmetry; apply (copies_agree scene Hnames)).
  rewrite E in Hs. cbn [option_map] in Hs. congruence.
Qed.

(** ** The rewrite and the header's label *)















(** C7. A joint whose bone has no bone-typed child consists of its opening
    lines, one End Site sub-block whose offset line is OFFSET 0.0 0.0 0.0,
    and the closing brace; a joint whose bone has bone-typed children
    consists of its opening lines, one nested joint block per bone child in
    the children's order, and the closing brace, with no End Site block of
    its own. [js/main.js] passes that text through its rewrite, which changes
    nothing when names are on one line each. *)
Theorem leaf_joints_end_with_end_site (scene : Scene) (fuel : nat) (bone : ref)
    (level : nat) (s : string) :
  buildBVHHierarchy scene fuel bone level = Some s ->
  let indent := repeat "  " level in
  exists text,
    s = rootRewrite text
    /\ ((forall b, lacks (ascii_of_nat 10) (jointLabel scene b) = true) -> s = text)
    /\ ((boneChildren scene bone = []
         /\ text = jointOpen scene bone level
                   ++ indent ++ "  End Site" ++ LF
                   ++ indent ++ "  {" ++ LF
                   ++ indent ++ "    OFFSET 0.0 0.0 0.0" ++ LF
                   ++ indent ++ "  }" ++ LF
                   ++ indent ++ "}" ++ LF)
        \/ (boneChildren scene bone <> []
            /\ exists blocks,
                 Forall2
                   (fun child block =>
                      buildBVHHierarchy scene (fuel - 1) child (level + 1) = Some block)
                   (boneChildren scene bone) blocks
                 /\ text = jointOpen scene bone level ++ concatAll blocks
                           ++ indent ++ "}" ++ LF)).
Proof.
  intros Hs indent.
  destruct (buildBVHHierarchy_text scene _ _ _ _ Hs) as (blocks & Hblocks & Hrw & Hid).
  eexists. split; [exact Hrw|]. split; [exact Hid|].
  destruct (boneChildren scene bone) as [|c cs] eqn:Ecs.
  - left. split; [reflexivity|]. unfold endSite. now rewrite !append_assoc.
  - right. split; [discriminate|]. exists blocks. split; [assumption | reflexivity].
Qed.

(** The leaf B of the chain, at level 2. *)
Lemma leaf_joints_end_with_end_site_witness :
  exists s,
    buildBVHHierarchy chain 1 3 2 = Some s
    /\ boneChildren chain 3 = []
    /\ let indent := repeat "  " 2 in
       exists text,
         s = rootRewrite text
         /\ ((forall b, lacks (ascii_of_nat 10) (jointLabel chain b) = true) -> s = text)
         /\ ((boneChildren chain 3 = []
              /\ text = jointOpen chain 3 2
                        ++ indent ++ "  End Site" ++ LF
                        ++ indent ++ "  {" ++ LF
                        ++ indent ++ "    OFFSET 0.0 0.0 0.0" ++ LF
                        ++ indent ++ "  }" ++ LF
                        ++ indent ++ "}" ++ LF)
             \/ (boneChildren chain 3 <> []
                 /\ exists blocks,
                      Forall2
                        (fun child block =>
                           buildBVHHierarchy chain (1 - 1) child (2 + 1) = Some block)
                        (boneChildren chain 3) blocks
                      /\ text = jointOpen chain 3 2 ++ concatAll blocks
                                ++ indent ++ "}" ++ LF)).
Proof.
  eexists. split; [reflexivity|]. split; [reflexivity|].
  apply (leaf_joints_end_with_end_site chain 1 3 2). reflexivity.
Defined.

(** * Further properties of the exporter *)

(** ** The hierarchy returns exactly on skeletons without infinite descent *)

Lemma buildBVHHierarchy_returns_acyclic (scene : Scene) (fuel : nat) :
  forall bone level s,
    buildBVHHierarchy scene fuel bone level = Some s -> acyclicBelow scene bone.
Proof.
  induction fuel as [|fuel IH]; intros bone level s Hs; [discriminate|].
  rewrite buildBVHHierarchy_step in Hs.
  destruct (mapM _ _) as [blocks|] eqn:E; [|discriminate].
  apply mapM_Forall2 in E. constructor. intros child Hchild.
  destruct (Forall2_in_left _ _ _ _ E Hchild) as (block & _ & Hblock).
  exact (IH _ _ _ Hblock).
Qed.

(** X1. [buildBVHHierarchy] returns a string for a bone exactly when there
    is no infinite descent through bone-typed children below it: on a bone
    that reaches a cycle of bone children the recursion never returns, at
    any level of indentation. *)
Theorem hierarchy_returns_iff_acyclic (scene : Scene) (bone : ref) (level : nat) :
  (exists fuel s, buildBVHHierarchy scene fuel bone level = Some s)
  <-> acyclicBelow scene bone.
Proof.
  split.
  - intros (fuel & s & Hs). exact (buildBVHHierarchy_returns_acyclic _ _ _ _ _ Hs).
  - intros Hacc.
    destruct (buildBVHHierarchy_terminates scene bone Hacc) as (fuel & t & Ht).
    exists fuel, (render scene t level). now apply Ht.
Qed.

(** ** The motion line, character by character *)

(** X2. The motion line is the values of all bones, six per bone in bone-set
    order, joined by single spaces and ended by one line feed; every value is
    a non-empty token without white space, so the line has no leading, no
    trailing and no doubled space. For no bones it is the bare line feed. *)
Theorem motion_line_format (THREE : Library) (scene : Scene) (bones : list ref) :
  buildBVHMotion THREE scene bones
  = String.concat " " (flat_map (channelValues THREE scene) bones) ++ LF
  /\ Forall (fun v => isToken v = true) (flat_map (channelValues THREE scene) bones)
  /\ lacks (ascii_of_nat 10)
       (String.concat " " (flat_map (channelValues THREE scene) bones)) = true
  /\ (bones = [] -> buildBVHMotion THREE scene bones = LF).
Proof.
  split; [|split; [apply channelValues_tokens|split]].
  - destruct bones as [|b bones]; [reflexivity|].
    apply buildBVHMotion_line. discriminate.
  - apply concat_tokens_lacks; [reflexivity | reflexivity | apply channelValues_tokens].
  - intros ->. reflexivity.
Qed.

(** ** What an export leaves behind in the browser *)

Lemma filter_fresh_url (w : Browser) :
  urlsInUse w ->
  filter (fun u => negb (Nat.eqb (fst u) (nextURL w))) (objectURLs w) = objectURLs w.
Proof.
  unfold urlsInUse. induction (objectURLs w) as [|u us IH]; intros H; [reflexivity|].
  inversion H as [|? ? Hu Hus]; subst. cbn [filter].
  replace (Nat.eqb (fst u) (nextURL w)) with false
    by (symmetry; apply Nat.eqb_neq; lia).
  cbn [negb]. now rewrite IH.
Qed.

Lemma downloaded_frame (doc : string) (w : Browser) :
  urlsInUse w ->
  objectURLs (downloaded doc w) = objectURLs w
  /\ body (downloaded doc w) = body w
  /\ urlsInUse (downloaded doc w).
Proof.
  intros H. unfold downloaded. cbn [objectURLs body].
  rewrite (filter_fresh_url w H), removelast_last.
  split; [reflexivity|]. split; [reflexivity|].
  unfold urlsInUse in *. cbn [objectURLs nextURL].
  eapply Forall_impl; [|exact H]. cbn. intros u Hu. lia.
Qed.

(** X3. In a browser whose live object URLs were all handed out earlier, an
    export that returns leaves the page and the URL registry as they were:
    the anchor it appended is removed again and the object URL it created is
    revoked. For a non-empty marker list exactly one file, named
    animation.bvh and of type text/plain, is added to the saved files. *)
Theorem export_cleans_up (THREE : Library) (scene : Scene) (fuel : nat)
    (boneDots : list Mesh) (w w' : Browser) :
  urlsInUse w ->
  exportToBVH THREE scene fuel boneDots w = Some w' ->
  objectURLs w' = objectURLs w
  /\ body w' = body w
  /\ urlsInUse w'
  /\ (boneDots <> [] ->
      exists doc,
        saved w' = (saved w ++ [("animation.bvh", {| parts := doc; type := "text/plain" |})])%list
        /\ nextURL w' = S (nextURL w)).
Proof.
  intros Hw Hex. destruct boneDots as [|d ds].
  - inversion Hex; subst w'. repeat split; try assumption. congruence.
  - assert (Hb : map userData_bone (d :: ds) <> []) by discriminate.
    destruct (rootBone_some scene _ Hb) as (root & Hroot).
    rewrite (exportToBVH_eq THREE scene fuel (d :: ds) w root Hroot) in Hex.
    destruct (buildBVHHierarchy scene fuel root 0) as [h|]; [|discriminate].
    cbn [option_map] in Hex. inversion Hex as [Hw']. clear Hex.
    destruct (downloaded_frame
                (document h (buildBVHMotion THREE scene (map userData_bone (d :: ds)))) w Hw)
      as (H1 & H2 & H3).
    repeat split; try assumption. intros _. eexists. split; reflexivity.
Qed.

(** The export of the chain R, A, B into an empty browser. *)
Lemma export_cleans_up_witness :
  urlsInUse emptyBrowser
  /\ exists w',
       exportToBVH three chain 4 (dots [1; 2; 3]) emptyBrowser = Some w'
       /\ objectURLs w' = objectURLs emptyBrowser
       /\ body w' = body emptyBrowser
       /\ urlsInUse w'
       /\ (dots [1; 2; 3] <> [] ->
           exists doc,
             saved w'
             = (saved emptyBrowser
                ++ [("animation.bvh", {| parts := doc; type := "text/plain" |})])%list
             /\ nextURL w' = S (nextURL emptyBrowser)).
Proof.
  split; [constructor|].
  eexists. split; [reflexivity|].
  apply (export_cleans_up three chain 4 (dots [1; 2; 3]) emptyBrowser);
    [constructor | reflexivity].
Defined.

(** ** The hierarchy block, line by line *)

Lemma JointTree_induction (P : JointTree -> Prop) :
  (forall bone nested, Forall P nested -> P (Joint bone nested)) ->
  forall t, P t.
Proof.
  intros H. fix IH 1. intros [bone nested]. apply H.
  induction nested as [|k nested IHn]; constructor; [apply IH | exact IHn].
Qed.

Lemma lines_unlines (ls : list string) :
  Forall (fun l => lacks lf l = true) ls ->
  lines (unlines ls) = (ls ++ [""])%list.
Proof.
  unfold lines. induction 1 as [|l ls Hl _ IH]; [reflexivity|].
  rewrite unlines_cons. unfold LF. change (String lf "" ++ ?r) with (String lf r).
  rewrite (split_lacks_sep _ _ _ Hl), IH. reflexivity.
Qed.

Lemma repeat_succ (level : nat) : repeat "  " (level + 1) = repeat "  " level ++ "  ".
Proof.
  induction level as [|level IH]; [reflexivity|].
  cbn [Nat.add repeat]. now rewrite IH, append_assoc.
Qed.

Lemma trimStart_indent (level : nat) (x : string) :
  trimStart (repeat "  " level ++ x) = trimStart x.
Proof. induction level as [|level IH]; [reflexivity | exact IH]. Qed.

Lemma length_flat_map_sum {A B : Type} (f : A -> list B) (l : list A) :
  List.length (flat_map f l) = list_sum (map (fun a => List.length (f a)) l).
Proof.
  induction l as [|a l IH]; [reflexivity|].
  cbn [flat_map map list_sum]. now rewrite length_app, IH.
Qed.

Lemma joints_Joint (bone : ref) (nested : list JointTree) :
  joints (Joint bone nested) = 1 + list_sum (map joints nested).
Proof. unfold joints. cbn [preorder List.length]. now rewrite length_flat_map_sum. Qed.

Lemma countLines_app (p : string -> bool) (a b : list string) :
  countLines p (a ++ b)%list = countLines p a + countLines p b.
Proof. unfold countLines. now rewrite filter_app, length_app. Qed.

Lemma countLines_flat_map {A : Type} (p : string -> bool) (f : A -> list string)
    (g : A -> nat) (l : list A) :
  Forall (fun a => countLines p (f a) = g a) l ->
  countLines p (flat_map f l) = list_sum (map g l).
Proof.
  induction 1 as [|a l Ha _ IH]; [reflexivity|].
  cbn [flat_map map list_sum]. now rewrite countLines_app, Ha, IH.
Qed.

Section Lines.

Variable scene : Scene.

(** The number of lines that pass a test whose answer depends only on the
    kind of the line: [h] on a header, [o] on an opening brace, [v] on a
    joint's OFFSET line, [c] on a CHANNELS line, [e] on an End Site line, [z]
    on an End Site's OFFSET line, [x] on a closing brace. *)
Lemma countLines_block (p : string -> bool) (h o v c e z x : bool) :
  (forall bone level, p (repeat "  " level ++ "JOINT " ++ jointLabel scene bone) = h) ->
  (forall level, p (repeat "  " level ++ "{") = o) ->
  (forall bone level,
     p (repeat "  " level ++ "  OFFSET " ++ String.concat " " (offsetValues scene bone)) = v) ->
  (forall level,
     p (repeat "  " level
        ++ "  CHANNELS 6 Xposition Yposition Zposition Xrotation Yrotation Zrotation") = c) ->
  (forall level, p (repeat "  " level ++ "  End Site") = e) ->
  (forall level, p (repeat "  " level ++ "    OFFSET 0.0 0.0 0.0") = z) ->
  (forall level, p (repeat "  " level ++ "}") = x) ->
  forall t level,
    countLines p (blockLines scene t level)
    = joints t * (Nat.b2n h + Nat.b2n o + Nat.b2n v + Nat.b2n c + Nat.b2n x)
      + leaves t * (Nat.b2n e + Nat.b2n o + Nat.b2n z + Nat.b2n x).
Proof.
  intros Hh Ho Hv Hc He Hz Hx.
  assert (Ho2 : forall level, p (repeat "  " level ++ "  {") = o).
  { intros level. specialize (Ho (level + 1)).
    now rewrite repeat_succ, append_assoc in Ho. }
  assert (Hx2 : forall level, p (repeat "  " level ++ "  }") = x).
  { intros level. specialize (Hx (level + 1)).
    now rewrite repeat_succ, append_assoc in Hx. }
  induction t as [bone nested IH] using JointTree_induction. intros level.
  rewrite joints_Joint. cbn [blockLines leaves].
  rewrite !countLines_app. unfold countLines at 1 3. cbn [filter].
  rewrite Hh, Ho, Hv, Hc, Hx.
  destruct nested as [|k nested].
  - unfold countLines. cbn [filter map list_sum].
    rewrite He, Ho2, Hz, Hx2.
    destruct h, o, v, c, e, z, x; cbn; lia.
  - rewrite (countLines_flat_map p _
               (fun k => joints k * (Nat.b2n h + Nat.b2n o + Nat.b2n v + Nat.b2n c + Nat.b2n x)
                         + leaves k * (Nat.b2n e + Nat.b2n o + Nat.b2n z + Nat.b2n x)))
      by (eapply Forall_impl; [|exact IH]; intros t Ht; apply Ht).
    set (J := Nat.b2n h + Nat.b2n o + Nat.b2n v + Nat.b2n c + Nat.b2n x).
    set (L := Nat.b2n e + Nat.b2n o + Nat.b2n z + Nat.b2n x).
    assert (Hsum : forall l : list JointTree,
               list_sum (map (fun k => joints k * J + leaves k * L) l)
               = list_sum (map joints l) * J + list_sum (map leaves l) * L).
    { induction l as [|a l IHl]; [reflexivity|]. cbn [map].
      change (list_sum (?a0 :: ?l0)) with (a0 + list_sum l0). rewrite IHl. lia. }
    rewrite Hsum. subst J L.
    destruct h, o, v, c, x; cbn [Nat.b2n List.length]; lia.
Qed.

(** Every line of a block starts with the indentation of its level. *)
Lemma blockLines_indented (t : JointTree) :
  forall level line,
    In line (blockLines scene t level) -> exists rest, line = repeat "  " level ++ rest.
Proof.
  induction t as [bone nested IH] using JointTree_induction. intros level line Hin.
  cbn [blockLines] in Hin. apply in_app_or in Hin as [Hin | Hin].
  - cbn [In] in Hin. repeat (destruct Hin as [<- | Hin]; [eauto|]). contradiction.
  - apply in_app_or in Hin as [Hin | Hin].
    + destruct nested as [|k nested].
      * cbn [In] in Hin. repeat (destruct Hin as [<- | Hin]; [eauto|]). contradiction.
      * apply in_flat_map in Hin as (k' & Hk' & Hin).
        rewrite Forall_forall in IH. destruct (IH k' Hk' _ _ Hin) as (rest & ->).
        exists ("  " ++ rest). now rewrite repeat_succ, append_assoc.
    + cbn [In] in Hin. destruct Hin as [<- | []]. eauto.
Qed.

Lemma length_blockLines (t : JointTree) (level : nat) :
  List.length (blockLines scene t level) = 5 * joints t + 4 * leaves t.
Proof.
  pose proof (countLines_block (fun _ => true) true true true true true true true
                ltac:(reflexivity) ltac:(reflexivity) ltac:(reflexivity) ltac:(reflexivity)
                ltac:(reflexivity) ltac:(reflexivity) ltac:(reflexivity) t level) as H.
  unfold countLines in H. rewrite forallb_filter_id in H by
    (apply forallb_forall; reflexivity).
  rewrite H. cbn [Nat.b2n]. lia.
Qed.

Lemma header_line_lacks_lf (bone : ref) (level : nat) :
  lacks lf (jointLabel scene bone) = true ->
  lacks lf (repeat "  " level ++ "JOINT " ++ jointLabel scene bone) = true.
Proof. intros H. apply lacks_indent, lacks_append; [reflexivity | exact H]. Qed.

(** From here on the labels of the bones of the call tree are on one line
    each; nothing is asked of any other object of the scene. *)
Lemma blockLines_tail_calm (t : JointTree) :
  Forall (fun b => lacks lf (jointLabel scene b) = true) (preorder t) ->
  forall level,
    calm (tl (blockLines scene t level)) /\ calm (blockLines scene t (level + 1)).
Proof.
  induction t as [bone nested IH] using JointTree_induction. intros Hnames level.
  cbn [preorder] in Hnames. inversion Hnames as [|? ? Hbone Hrest]; subst.
  apply Forall_flat_map in Hrest.
  assert (Hnested : Forall (fun k => forall level,
                                calm (tl (blockLines scene k level))
                                /\ calm (blockLines scene k (level + 1))) nested).
  { rewrite Forall_forall in *. intros k Hk. apply (IH k Hk), (Hrest k Hk). }
  assert (Hbody : forall l,
             calm (List.app
                     [repeat "  " l ++ "{";
                      repeat "  " l ++ "  OFFSET "
                      ++ String.concat " " (offsetValues scene bone);
                      repeat "  " l
                      ++ "  CHANNELS 6 Xposition Yposition Zposition Xrotation Yrotation Zrotation"]
                     (List.app
                        match nested with
                        | [] => [repeat "  " l ++ "  End Site"; repeat "  " l ++ "  {";
                                 repeat "  " l ++ "    OFFSET 0.0 0.0 0.0";
                                 repeat "  " l ++ "  }"]
                        | _ => flat_map (fun k => blockLines scene k (l + 1)) nested
                        end
                        [repeat "  " l ++ "}"]))).
  { intros l.
    apply (calm_app [_]); [apply calm_line; reflexivity|].
    apply (calm_app [_]);
      [apply calm_line; [apply lacks_append; [reflexivity | apply offset_line_lacks_lf]
                        | reflexivity]|].
    apply (calm_app [_]); [apply calm_line; reflexivity|].
    apply calm_app; [|apply calm_line; reflexivity].
    destruct nested as [|k nested].
    - apply (calm_app [_]); [apply calm_line; reflexivity|].
      apply (calm_app [_]); [apply calm_line; reflexivity|].
      apply (calm_app [_]); apply calm_line; reflexivity.
    - rewrite flat_map_concat_map. apply calm_concat.
      apply Forall_map. eapply Forall_impl; [|exact Hnested].
      intros k' Hk'. apply Hk'. }
  split.
  - cbn [blockLines List.app tl]. apply Hbody.
  - cbn [blockLines]. apply (calm_app [_]); [|apply Hbody].
    rewrite Nat.add_1_r.
    apply calm_single; [now apply header_line_lacks_lf | reflexivity].
Qed.

Lemma blockLines_lack_lf (t : JointTree) (level : nat) :
  Forall (fun b => lacks lf (jointLabel scene b) = true) (preorder t) ->
  Forall (fun l => lacks lf l = true) (blockLines scene t level).
Proof.
  intros Hnames. destruct (blockLines_tail_calm t Hnames level) as [[Hfree _] _].
  destruct t as [bone nested]. cbn [blockLines List.app tl] in *.
  constructor; [|exact Hfree].
  apply header_line_lacks_lf. now inversion Hnames.
Qed.

(** With the labels of its bones on one line each, the text of a call tree
    is its lines. *)
Lemma render_blockLines (t : JointTree) :
  Forall (fun b => lacks lf (jointLabel scene b) = true) (preorder t) ->
  forall level, render scene t level = unlines (blockLines scene t level).
Proof.
  induction t as [bone nested IH] using JointTree_induction. intros Hnames level.
  pose proof (blockLines_tail_calm (Joint bone nested) Hnames level) as [[Hfree Hquiet] _].
  cbn [preorder] in Hnames. inversion Hnames as [|? ? Hbone Hrest]; subst.
  apply Forall_flat_map in Hrest.
  cbn [render]. cbn [blockLines List.app tl] in Hfree, Hquiet.
  assert (Htext :
            jointOpen scene bone level
            ++ match nested with
               | [] => endSite level
               | _ => concatAll (map (fun k => render scene k (level + 1)) nested)
               end
            ++ repeat "  " level ++ "}" ++ LF
            = unlines (blockLines scene (Joint bone nested) level)).
  { cbn [blockLines]. rewrite !unlines_app.
    rewrite jointOpen_unlines, closing_unlines. f_equal. f_equal.
    destruct nested as [|k nested]; [apply endSite_unlines|].
    rewrite flat_map_concat_map, <- unlines_concat, map_map.
    f_equal. apply map_ext_Forall.
    rewrite Forall_forall in *. intros k' Hk'. apply (IH k' Hk'), (Hrest k' Hk'). }
  rewrite Htext. cbn [blockLines List.app]. rewrite unlines_cons.
  apply rootRewrite_unlines; [exact Hfree | exact Hquiet | now apply header_line_lacks_lf].
Qed.

(** The text returned by [buildBVHHierarchy] for a bone, split into lines, is
    the lines of the call tree followed by the empty text after the last line
    feed, when the labels of the bones reachable from the bone are on one
    line each. *)
Lemma buildBVHHierarchy_lines (fuel : nat) (bone : ref) (level : nat) (s : string) :
  (forall b, reachable scene bone b -> lacks lf (jointLabel scene b) = true) ->
  buildBVHHierarchy scene fuel bone level = Some s ->
  exists t,
    boneTree scene fuel bone = Some t
    /\ s = unlines (blockLines scene t level)
    /\ lines s = (blockLines scene t level ++ [""])%list.
Proof.
  intros Hnames. rewrite buildBVHHierarchy_render.
  destruct (boneTree scene fuel bone) as [t|] eqn:Et; [|discriminate].
  cbn [option_map]. intros H; inversion H; subst s. exists t.
  assert (Ht : Forall (fun b => lacks lf (jointLabel scene b) = true) (preorder t)).
  { apply Forall_forall. intros b Hb.
    apply Hnames. exact (preorder_is_reachable scene fuel bone t b Et Hb). }
  split; [reflexivity|].
  rewrite (render_blockLines t Ht).
  split; [reflexivity|]. now apply lines_unlines, blockLines_lack_lf.
Qed.

End Lines.

(** In the chain with a mesh, the bones reachable from a bone have their
    names on one line each; the mesh has not. *)
Lemma meshed_names_on_one_line (root b : ref) :
  (root = 1 \/ root = 3) ->
  reachable meshed root b -> lacks lf (jointLabel meshed b) = true.
Proof.
  intros [-> | ->] Hb.
  - pose proof (reachable_in_preorder meshed 1 b Hb 3 _ eq_refl) as Hin.
    assert (H : b = 1 \/ b = 2 \/ b = 3) by (cbn in Hin; intuition congruence).
    destruct H as [-> | [-> | ->]]; reflexivity.
  - pose proof (reachable_in_preorder meshed 3 b Hb 1 _ eq_refl) as Hin.
    assert (H : b = 3) by (cbn in Hin; intuition congruence).
    subst b. reflexivity.
Qed.

Ltac line_kind :=
  intros; unfold opens, reads; rewrite trimStart_indent;
  first [ reflexivity
        | match goal with
          | |- context [jointLabel ?sc ?b] => destruct (jointLabel sc b); reflexivity
          end ].

(** X4. When no bone the call emits (the bone itself and the bones reachable
    from it through bone-typed child links) has a line feed in its label,
    the text returned by [buildBVHHierarchy] has as many lines that read
    JOINT after their indentation as the recursion made calls (one per bone
    emitted), and as many End Site lines as there are emitted bones without
    a bone child. Nothing is asked of the names of other objects. *)
Theorem hierarchy_joint_and_end_site_lines (scene : Scene) (fuel : nat) (bone : ref)
    (level : nat) (s : string) :
  (forall b, reachable scene bone b ->
             lacks (ascii_of_nat 10) (jointLabel scene b) = true) ->
  buildBVHHierarchy scene fuel bone level = Some s ->
  exists t,
    boneTree scene fuel bone = Some t
    /\ countLines (opens "JOINT ") (lines s) = List.length (preorder t)
    /\ countLines (reads "End Site") (lines s) = leaves t.
Proof.
  intros Hnames Hs.
  destruct (buildBVHHierarchy_lines scene _ _ _ _ Hnames Hs) as (t & Ht & _ & ->).
  exists t. split; [assumption|]. rewrite !countLines_app. split.
  - rewrite (countLines_block scene (opens "JOINT ") true false false false false false false)
      by line_kind.
    fold (joints t). cbn. lia.
  - rewrite (countLines_block scene (reads "End Site") false false false false true false false)
      by line_kind.
    cbn. lia.
Qed.

(** The chain R, A, B beside a mesh with a line feed in its name: three
    JOINT lines and one End Site line. *)
Lemma hierarchy_joint_and_end_site_lines_witness :
  (forall b, reachable meshed 1 b ->
             lacks (ascii_of_nat 10) (jointLabel meshed b) = true)
  /\ exists s,
       buildBVHHierarchy meshed 3 1 0 = Some s
       /\ exists t,
            boneTree meshed 3 1 = Some t
            /\ countLines (opens "JOINT ") (lines s) = List.length (preorder t)
            /\ countLines (reads "End Site") (lines s) = leaves t.
Proof.
  split; [exact (fun b => meshed_names_on_one_line 1 b (or_introl eq_refl))|].
  eexists. split; [reflexivity|].
  apply (hierarchy_joint_and_end_site_lines meshed 3 1 0);
    [exact (fun b => meshed_names_on_one_line 1 b (or_introl eq_refl)) | reflexivity].
Defined.

(** X5. When no bone the call emits (the bone itself and the bones reachable
    from it through bone-typed child links) has a line feed in its label,
    the braces of the text returned by [buildBVHHierarchy] balance: the
    lines that read an opening brace are as many as those that read a
    closing brace, one pair per emitted bone and one more per End Site
    block. Nothing is asked of the names of other objects. *)
Theorem hierarchy_braces_balance (scene : Scene) (fuel : nat) (bone : ref)
    (level : nat) (s : string) :
  (forall b, reachable scene bone b ->
             lacks (ascii_of_nat 10) (jointLabel scene b) = true) ->
  buildBVHHierarchy scene fuel bone level = Some s ->
  exists t,
    boneTree scene fuel bone = Some t
    /\ countLines (reads "{") (lines s) = List.length (preorder t) + leaves t
    /\ countLines (reads "}") (lines s) = countLines (reads "{") (lines s).
Proof.
  intros Hnames Hs.
  destruct (buildBVHHierarchy_lines scene _ _ _ _ Hnames Hs) as (t & Ht & _ & ->).
  exists t. split; [assumption|]. rewrite !countLines_app.
  rewrite (countLines_block scene (reads "{") false true false false false false false)
    by line_kind.
  rewrite (countLines_block scene (reads "}") false false false false false false true)
    by line_kind.
  fold (joints t). cbn. lia.
Qed.

(** The chain R, A, B beside a mesh with a line feed in its name: four
    opening and four closing braces. *)
Lemma hierarchy_braces_balance_witness :
  (forall b, reachable meshed 1 b ->
             lacks (ascii_of_nat 10) (jointLabel meshed b) = true)
  /\ exists s,
       buildBVHHierarchy meshed 3 1 0 = Some s
       /\ exists t,
            boneTree meshed 3 1 = Some t
            /\ countLines (reads "{") (lines s) = List.length (preorder t) + leaves t
            /\ countLines (reads "}") (lines s) = countLines (reads "{") (lines s).
Proof.
  split; [exact (fun b => meshed_names_on_one_line 1 b (or_introl eq_refl))|].
  eexists. split; [reflexivity|].
  apply (hierarchy_braces_balance meshed 3 1 0);
    [exact (fun b => meshed_names_on_one_line 1 b (or_introl eq_refl)) | reflexivity].
Defined.

(** X6. When no bone the call emits (the bone itself and the bones reachable
    from it through bone-typed child links) has a line feed in its label,
    the text returned by [buildBVHHierarchy] at a level consists of five
    lines per emitted bone and four more per End Site block, each ended by a
    line feed and each starting with the two-spaces-per-level indentation of
    that level. Nothing is asked of the names of other objects. *)
Theorem hierarchy_lines_indented (scene : Scene) (fuel : nat) (bone : ref)
    (level : nat) (s : string) :
  (forall b, reachable scene bone b ->
             lacks (ascii_of_nat 10) (jointLabel scene b) = true) ->
  buildBVHHierarchy scene fuel bone level = Some s ->
  exists t body,
    boneTree scene fuel bone = Some t
    /\ s = unlines body
    /\ lines s = (body ++ [""])%list
    /\ List.length body = 5 * List.length (preorder t) + 4 * leaves t
    /\ forall line, In line body -> exists rest, line = repeat "  " level ++ rest.
Proof.
  intros Hnames Hs.
  destruct (buildBVHHierarchy_lines scene _ _ _ _ Hnames Hs) as (t & Ht & Htext & Hlines).
  exists t, (blockLines scene t level). split; [assumption|].
  split; [assumption|]. split; [assumption|]. split.
  - apply length_blockLines.
  - apply blockLines_indented.
Qed.

(** The leaf B of the chain at level 2: nine lines behind four spaces. *)
Lemma hierarchy_lines_indented_witness :
  (forall b, reachable meshed 3 b ->
             lacks (ascii_of_nat 10) (jointLabel meshed b) = true)
  /\ exists s,
       buildBVHHierarchy meshed 1 3 2 = Some s
       /\ exists t body,
            boneTree meshed 1 3 = Some t
            /\ s = unlines body
            /\ lines s = (body ++ [""])%list
            /\ List.length body = 5 * List.length (preorder t) + 4 * leaves t
            /\ forall line, In line body -> exists rest, line = repeat "  " 2 ++ rest.
Proof.
  split; [exact (fun b => meshed_names_on_one_line 3 b (or_intror eq_refl))|].
  eexists. split; [reflexivity|].
  apply (hierarchy_lines_indented meshed 1 3 2);
    [exact (fun b => meshed_names_on_one_line 3 b (or_intror eq_refl)) | reflexivity].
Defined.

Import PageSamples.

(** * The page around the exporter *)

(** ** Selecting a bone *)

Lemma selectBone_cases (st : Page.State) (bone : ref) :
  (exists selected, Page.selectedBone st = Some selected
                    /\ Page.findDot st selected = None
                    /\ Page.selectBone st bone = Page.Threw st)
  \/ (exists st1,
        ((Page.selectedBone st = None /\ st1 = st)
         \/ (exists selected dot,
               Page.selectedBone st = Some selected
               /\ Page.findDot st selected = Some dot
               /\ st1 = Page.with_materialColor st
                          (Page.update (Page.materialColor st) (fst dot) Page.white)))
        /\ ((Page.findDot st bone = None
             /\ Page.selectBone st bone
                = Page.Threw (Page.with_selectedBone st1 (Some bone)))
            \/ (exists dot,
                  Page.findDot st bone = Some dot
                  /\ Page.selectBone st bone
                     = Page.Returned
                         (Page.with_controlsObject
                            (Page.with_materialColor
                               (Page.with_selectedBone st1 (Some bone))
                               (Page.update (Page.materialColor st1) (fst dot) Page.green))
                            (Some bone))))).
Proof.
  unfold Page.selectBone.
  destruct (Page.selectedBone st) as [selected|] eqn:Esel.
  - destruct (Page.findDot st selected) as [dot|] eqn:Edot.
    + right. eexists. split; [right; exists selected, dot; repeat split; first [assumption | reflexivity]|].
      change (Page.findDot (Page.with_selectedBone (Page.with_materialColor st _) _) bone)
        with (Page.findDot st bone).
      destruct (Page.findDot st bone) as [dot2|]; [right | left; split; reflexivity].
      exists dot2. split; reflexivity.
    + left. exists selected. repeat split; first [assumption | reflexivity].
  - right. exists st. split; [left; split; reflexivity|].
    change (Page.findDot (Page.with_selectedBone st _) bone) with (Page.findDot st bone).
    destruct (Page.findDot st bone) as [dot2|]; [right | left; split; reflexivity].
    exists dot2. split; reflexivity.
Qed.

Lemma findDot_in (st : Page.State) (bone : ref) (dot : ref * ref) :
  Page.findDot st bone = Some dot -> In dot (Page.boneDots st) /\ snd dot = bone.
Proof.
  unfold Page.findDot. intros H. apply find_some in H as [Hin Heq].
  split; [assumption | now apply Nat.eqb_eq].
Qed.

(** X7. When every marker has the color the selection gives it (green for
    the first marker of the selected bone, white for all others), a
    [selectBone] that returns keeps it so: the bone is selected, the
    transform controls are attached to it, its first marker is green and
    every other marker is white; the markers themselves are the same. *)
Theorem selectBone_shows_selection (st st' : Page.State) (bone : ref) :
  selectionShown st ->
  Page.selectBone st bone = Page.Returned st' ->
  selectionShown st'
  /\ Page.selectedBone st' = Some bone
  /\ Page.controlsObject st' = Some bone
  /\ Page.boneDots st' = Page.boneDots st
  /\ exists dot,
       Page.findDot st' bone = Some dot
       /\ Page.materialColor st' (fst dot) = Page.green
       /\ forall other, In other (Page.boneDots st') -> fst other <> fst dot ->
            Page.materialColor st' (fst other) = Page.white.
Proof.
  intros Hshown Hsel.
  destruct (selectBone_cases st bone) as [(sel & _ & _ & Hthrow) | (st1 & Hst1 & Hout)];
    [congruence|].
  destruct Hout as [[_ Hthrow] | (dot & Hdot & Hret)]; [congruence|].
  rewrite Hret in Hsel. inversion Hsel as [Hst']. clear Hsel Hret.
  assert (Hwhite : forall other, In other (Page.boneDots st) -> fst other <> fst dot ->
                     Page.materialColor st1 (fst other) = Page.white).
  { intros other Hin Hne. specialize (Hshown other Hin). unfold shownColor in Hshown.
    destruct Hst1 as [[Hnone ->] | (sel & d1 & Hsome & Hd1 & ->)].
    - now rewrite Hnone in Hshown.
    - cbn [Page.materialColor Page.with_materialColor]. unfold Page.update.
      rewrite Hsome, Hd1 in Hshown.
      destruct (Nat.eqb (fst other) (fst d1)); [reflexivity | exact Hshown]. }
  assert (Hdots : Page.boneDots st1 = Page.boneDots st).
  { destruct Hst1 as [[_ ->] | (sel & d1 & _ & _ & ->)]; reflexivity. }
  assert (Hfind : forall b, Page.findDot st1 b = Page.findDot st b).
  { intros b. unfold Page.findDot. now rewrite Hdots. }
  assert (Hcolor : forall other, In other (Page.boneDots st) ->
            Page.materialColor
              (Page.with_controlsObject
                 (Page.with_materialColor (Page.with_selectedBone st1 (Some bone))
                    (Page.update (Page.materialColor st1) (fst dot) Page.green))
                 (Some bone)) (fst other)
            = if Nat.eqb (fst other) (fst dot) then Page.green else Page.white).
  { intros other Hin. cbn [Page.materialColor Page.with_controlsObject Page.with_materialColor].
    unfold Page.update. destruct (Nat.eqb (fst other) (fst dot)) eqn:E; [reflexivity|].
    apply Hwhite; [assumption | now apply Nat.eqb_neq]. }
  split; [|split; [reflexivity|split; [reflexivity|split; [exact Hdots|]]]].
  - intros other Hin. cbn [Page.boneDots Page.with_controlsObject Page.with_materialColor
                             Page.with_selectedBone] in Hin.
    rewrite Hdots in Hin. rewrite (Hcolor other Hin). unfold shownColor.
    cbn [Page.selectedBone Page.with_controlsObject Page.with_materialColor
           Page.with_selectedBone].
    change (Page.findDot _ bone) with (Page.findDot st1 bone).
    now rewrite Hfind, Hdot.
  - exists dot. change (Page.findDot _ bone) with (Page.findDot st1 bone).
    rewrite Hfind. split; [exact Hdot|].
    destruct (findDot_in _ _ _ Hdot) as [Hin _]. split.
    + rewrite (Hcolor dot Hin). now rewrite Nat.eqb_refl.
    + intros other Ho Hne.
      cbn [Page.boneDots Page.with_controlsObject Page.with_materialColor
             Page.with_selectedBone] in Ho.
      rewrite Hdots in Ho. rewrite (Hcolor other Ho).
      apply Nat.eqb_neq in Hne. now rewrite Hne.
Qed.

Lemma shownPage_selectionShown : selectionShown shownPage.
Proof.
  intros dot Hin. vm_compute in Hin.
  destruct Hin as [<- | [<- | [<- | []]]]; vm_compute; reflexivity.
Qed.

(** Selecting A on the visualized chain. *)
Lemma selectBone_shows_selection_witness :
  selectionShown shownPage
  /\ exists st',
       Page.selectBone shownPage 2 = Page.Returned st'
       /\ selectionShown st'
       /\ Page.selectedBone st' = Some 2
       /\ Page.controlsObject st' = Some 2
       /\ Page.boneDots st' = Page.boneDots shownPage
       /\ exists dot,
            Page.findDot st' 2 = Some dot
            /\ Page.materialColor st' (fst dot) = Page.green
            /\ forall other, In other (Page.boneDots st') -> fst other <> fst dot ->
                 Page.materialColor st' (fst other) = Page.white.
Proof.
  split; [exact shownPage_selectionShown|].
  eexists. split; [reflexivity|].
  apply (selectBone_shows_selection shownPage _ 2);
    [exact shownPage_selectionShown | reflexivity].
Defined.

(** X8. [selectBone] throws exactly when the bone selected before has no
    marker or the bone passed in has none; in the second case the bone
    without a marker has already become the selected one. Either way the
    state it throws in has a selected bone without a marker, so every later
    [selectBone], for whatever bone, throws again and changes nothing. *)
Theorem failed_selection_is_permanent (st st' : Page.State) (bone : ref) :
  Page.selectBone st bone = Page.Threw st' ->
  ((exists selected, Page.selectedBone st = Some selected
                     /\ Page.findDot st selected = None /\ st' = st)
   \/ (Page.findDot st bone = None /\ Page.selectedBone st' = Some bone))
  /\ Page.boneDots st' = Page.boneDots st
  /\ Page.controlsObject st' = Page.controlsObject st
  /\ forall later, Page.selectBone st' later = Page.Threw st'.
Proof.
  intros Hthrow.
  assert (Hstuck : forall s selected,
             Page.selectedBone s = Some selected -> Page.findDot s selected = None ->
             forall later, Page.selectBone s later = Page.Threw s).
  { intros s selected Hs Hf later. unfold Page.selectBone. now rewrite Hs, Hf. }
  destruct (selectBone_cases st bone) as [(sel & Hsel & Hnone & Hout) | (st1 & Hst1 & Hout)].
  - rewrite Hout in Hthrow. inversion Hthrow; subst st'.
    split; [left; exists sel; repeat split; assumption|].
    split; [reflexivity|]. split; [reflexivity|]. exact (Hstuck st sel Hsel Hnone).
  - destruct Hout as [[Hnone Hout] | (dot & _ & Hout)]; [|congruence].
    rewrite Hout in Hthrow. inversion Hthrow as [Hst']. clear Hthrow Hout.
    assert (Hdots : Page.boneDots st1 = Page.boneDots st
                    /\ Page.controlsObject st1 = Page.controlsObject st).
    { destruct Hst1 as [[_ ->] | (sel & d1 & _ & _ & ->)]; split; reflexivity. }
    destruct Hdots as [Hdots Hctl].
    split; [right; split; [assumption | reflexivity]|].
    split; [exact Hdots|]. split; [exact Hctl|].
    apply (Hstuck _ bone); [reflexivity|].
    unfold Page.findDot in *. cbn [Page.boneDots Page.with_selectedBone].
    now rewrite Hdots.
Qed.

(** Selecting a bone that has no marker on the visualized chain. *)
Lemma failed_selection_is_permanent_witness :
  exists st',
    Page.selectBone shownPage 7 = Page.Threw st'
    /\ ((exists selected, Page.selectedBone shownPage = Some selected
                          /\ Page.findDot shownPage selected = None /\ st' = shownPage)
        \/ (Page.findDot shownPage 7 = None /\ Page.selectedBone st' = Some 7))
    /\ Page.boneDots st' = Page.boneDots shownPage
    /\ Page.controlsObject st' = Page.controlsObject shownPage
    /\ forall later, Page.selectBone st' later = Page.Threw st'.
Proof.
  eexists. split; [reflexivity|].
  apply (failed_selection_is_permanent shownPage _ 7). reflexivity.
Defined.

(** ** Markers and lines *)

Ltac page_fields :=
  cbn [Page.objects Page.materialColor Page.linePositions Page.needsUpdate
       Page.skeleton Page.nextRef Page.scene Page.selectedBone Page.currentModel
       Page.boneDots Page.boneLines Page.controlsObject Page.controlsMode
       Page.browser Page.with_objects Page.with_materialColor
       Page.with_linePositions Page.with_needsUpdate Page.with_nextRef
       Page.with_selectedBone Page.with_boneDots Page.with_boneLines
       Page.with_controlsObject Page.with_controlsMode Page.with_browser] in *.

Ltac visualize_cases :=
  unfold Page.visualizeBone; page_fields;
  match goal with
  | |- context [match ?x with Some _ => _ | None => _ end] => destruct x
  end;
  try match goal with
      | |- context [if ?b then _ else _] => destruct b
      end;
  page_fields.

Lemma fold_left_cons {A B : Type} (f : A -> B -> A) (x : B) (l : list B) (a : A) :
  fold_left f (x :: l) a = fold_left f l (f a x).
Proof. reflexivity. Qed.

Lemma visualizeBone_frame (st : Page.State) (bone : ref) :
  Page.boneDots (Page.visualizeBone st bone)
  = (Page.boneDots st ++ [(Page.nextRef st, bone)])%list
  /\ Page.selectedBone (Page.visualizeBone st bone) = Page.selectedBone st
  /\ Page.currentModel (Page.visualizeBone st bone) = Page.currentModel st
  /\ Page.scene (Page.visualizeBone st bone) = Page.scene st
  /\ Page.skeleton (Page.visualizeBone st bone) = Page.skeleton st
  /\ Page.browser (Page.visualizeBone st bone) = Page.browser st
  /\ Page.controlsObject (Page.visualizeBone st bone) = Page.controlsObject st
  /\ Page.controlsMode (Page.visualizeBone st bone) = Page.controlsMode st.
Proof. visualize_cases; repeat split; reflexivity. Qed.

Lemma visualizeBones_frame (bones : list ref) :
  forall st,
    map snd (Page.boneDots (fold_left Page.visualizeBone bones st))
    = (map snd (Page.boneDots st) ++ bones)%list
    /\ Page.selectedBone (fold_left Page.visualizeBone bones st) = Page.selectedBone st
    /\ Page.currentModel (fold_left Page.visualizeBone bones st) = Page.currentModel st
    /\ Page.scene (fold_left Page.visualizeBone bones st) = Page.scene st
    /\ Page.skeleton (fold_left Page.visualizeBone bones st) = Page.skeleton st
    /\ Page.browser (fold_left Page.visualizeBone bones st) = Page.browser st
    /\ Page.controlsObject (fold_left Page.visualizeBone bones st) = Page.controlsObject st
    /\ Page.controlsMode (fold_left Page.visualizeBone bones st) = Page.controlsMode st.
Proof.
  induction bones as [|b bones IH]; intros st.
  - cbn [fold_left]. rewrite app_nil_r. repeat split; reflexivity.
  - rewrite !fold_left_cons.
    destruct (IH (Page.visualizeBone st b)) as (H1 & H2 & H3 & H4 & H5 & H6 & H7 & H8).
    destruct (visualizeBone_frame st b) as (F1 & F2 & F3 & F4 & F5 & F6 & F7 & F8).
    repeat split; [rewrite H1, F1, map_app, <- app_assoc; reflexivity | congruence..].
Qed.

(** ** Changing the model *)

Lemma removeFirst_keeps (x c : ref) (l : list ref) :
  In c l -> c <> x -> In c (Page.removeFirst x l).
Proof.
  induction l as [|y l IH]; intros Hin Hne; [contradiction|].
  cbn [Page.removeFirst]. destruct (Nat.eqb y x) eqn:E.
  - apply Nat.eqb_eq in E. destruct Hin as [-> | Hin]; [congruence | assumption].
  - destruct Hin as [-> | Hin]; [now left | right; now apply IH].
Qed.

Lemma removeFirst_absent (x : ref) (l : list ref) :
  existsb (Nat.eqb x) l = false -> Page.removeFirst x l = l.
Proof.
  induction l as [|y l IH]; cbn [existsb Page.removeFirst]; intros H; [reflexivity|].
  apply orb_false_iff in H as [Hy Hl]. rewrite Nat.eqb_sym in Hy.
  now rewrite Hy, (IH Hl).
Qed.

Lemma children_after_remove (h : Scene) (this object : ref) :
  children (Page.Object3D_remove h this object this)
  = Page.removeFirst object (children (h this)).
Proof.
  unfold Page.Object3D_remove.
  destruct (existsb (Nat.eqb object) (children (h this))) eqn:E.
  - unfold Page.update at 1. rewrite Nat.eqb_refl. cbn [children Page.setChildren].
    unfold Page.update. destruct (Nat.eqb this object) eqn:E2; [|reflexivity].
    apply Nat.eqb_eq in E2. subst object. reflexivity.
  - now rewrite removeFirst_absent.
Qed.

Lemma removeLines_objects (ls : list ref) :
  forall st,
    let st' :=
      fold_left
        (fun st line =>
           Page.with_objects st
             (Page.Object3D_remove (Page.objects st) (Page.scene st) line))
        ls st in
    Page.objects st' = removeEach (Page.scene st) ls (Page.objects st)
    /\ Page.scene st' = Page.scene st
    /\ Page.boneDots st' = Page.boneDots st
    /\ Page.selectedBone st' = Page.selectedBone st
    /\ Page.controlsObject st' = Page.controlsObject st
    /\ Page.materialColor st' = Page.materialColor st.
Proof.
  unfold removeEach.
  induction ls as [|l ls IH]; intros st; cbn [fold_left]; [repeat split|].
  apply (IH (Page.with_objects st
               (Page.Object3D_remove (Page.objects st) (Page.scene st) l))).
Qed.

(** What [loadModel] leaves of the page when a model is loaded: the objects
    after the model and then every line were removed from the scene. *)
Lemma loadModel_objects (st : Page.State) (model : ref) :
  Page.currentModel st = Some model ->
  Page.objects (Page.loadModel st)
  = removeEach (Page.scene st) (model :: Page.boneLines st) (Page.objects st)
  /\ Page.boneDots (Page.loadModel st) = []
  /\ Page.boneLines (Page.loadModel st) = []
  /\ Page.selectedBone (Page.loadModel st) = Page.selectedBone st
  /\ Page.controlsObject (Page.loadModel st) = Page.controlsObject st
  /\ Page.materialColor (Page.loadModel st) = Page.materialColor st.
Proof.
  intros Hmodel. unfold Page.loadModel. rewrite Hmodel. cbv zeta.
  set (st1 := Page.with_boneDots
                (Page.with_objects st
                   (Page.Object3D_remove (Page.objects st) (Page.scene st) model)) []).
  change (Page.boneLines st1) with (Page.boneLines st).
  destruct (removeLines_objects (Page.boneLines st) st1) as (H1 & H2 & H3 & H4 & H5 & H6).
  cbn [Page.objects Page.boneDots Page.boneLines Page.selectedBone Page.controlsObject
         Page.materialColor Page.with_boneLines].
  repeat split; assumption.
Qed.

Lemma children_removeEach (this : ref) (xs : list ref) :
  forall h,
    children (removeEach this xs h this)
    = fold_left (fun cs x => Page.removeFirst x cs) xs (children (h this)).
Proof.
  unfold removeEach. induction xs as [|x xs IH]; intros h; cbn [fold_left]; [reflexivity|].
  now rewrite IH, children_after_remove.
Qed.

Lemma parent_after_remove (h : Scene) (this object : ref) :
  In object (children (h this)) ->
  parent (Page.Object3D_remove h this object object) = None.
Proof.
  intros Hin. unfold Page.Object3D_remove.
  replace (existsb (Nat.eqb object) (children (h this))) with true
    by (symmetry; apply existsb_exists; exists object; split;
        [assumption | apply Nat.eqb_refl]).
  unfold Page.update. rewrite Nat.eqb_refl.
  destruct (Nat.eqb_spec object this) as [-> | Hne]; [|reflexivity].
  now rewrite Nat.eqb_refl.
Qed.

Lemma parent_none_after_remove (h : Scene) (this object x : ref) :
  parent (h x) = None -> parent (Page.Object3D_remove h this object x) = None.
Proof.
  intros Hx. unfold Page.Object3D_remove.
  destruct (existsb (Nat.eqb object) (children (h this))); [|assumption].
  unfold Page.update.
  destruct (Nat.eqb x this) eqn:E1; destruct (Nat.eqb this object) eqn:E2;
    destruct (Nat.eqb x object) eqn:E3;
    cbn [parent Page.setChildren Page.setParent]; try reflexivity; try assumption.
  all: apply Nat.eqb_eq in E1; now subst.
Qed.

Lemma parent_none_removeEach (this : ref) (xs : list ref) (x : ref) :
  forall h, parent (h x) = None -> parent (removeEach this xs h x) = None.
Proof.
  unfold removeEach. induction xs as [|y xs IH]; intros h Hx; cbn [fold_left]; [assumption|].
  apply IH. now apply parent_none_after_remove.
Qed.

(** An object that is a child of [this], or has no parent, has no parent
    once it was removed. *)
Lemma parent_removeEach (this : ref) (xs : list ref) (x : ref) :
  forall h,
    In x (children (h this)) \/ parent (h x) = None ->
    In x xs -> parent (removeEach this xs h x) = None.
Proof.
  induction xs as [|y xs IH]; intros h Hx Hin; [contradiction|].
  change (removeEach this (y :: xs) h) with (removeEach this xs (Page.Object3D_remove h this y)).
  destruct (Nat.eq_dec y x) as [-> | Hne].
  - apply parent_none_removeEach.
    destruct Hx as [Hx | Hx];
      [now apply parent_after_remove | now apply parent_none_after_remove].
  - destruct Hin as [Hin | Hin]; [contradiction|].
    apply IH; [|assumption].
    destruct Hx as [Hx | Hx].
    + left. rewrite children_after_remove. apply removeFirst_keeps; [assumption|].
      intros ->. now apply Hne.
    + right. now apply parent_none_after_remove.
Qed.

Lemma removeFirst_in (x y : ref) (l : list ref) :
  In y (Page.removeFirst x l) -> In y l.
Proof.
  induction l as [|z l IH]; cbn [Page.removeFirst]; [trivial|].
  destruct (Nat.eqb z x); intros H; [now right|].
  destruct H as [<- | H]; [now left | right; now apply IH].
Qed.

Lemma removeFirst_NoDup (x : ref) (l : list ref) :
  NoDup l -> NoDup (Page.removeFirst x l) /\ ~ In x (Page.removeFirst x l).
Proof.
  induction 1 as [|z l Hz Hl IH]; cbn [Page.removeFirst].
  - split; [constructor | intros []].
  - destruct (Nat.eqb z x) eqn:E.
    + apply Nat.eqb_eq in E. subst z. now split.
    + apply Nat.eqb_neq in E. destruct IH as [IH1 IH2]. split.
      * constructor; [|assumption]. intros H. apply Hz. now apply removeFirst_in in H.
      * intros [H | H]; [now apply E | now apply IH2].
Qed.

Lemma removeFirst_each (xs : list ref) :
  forall cs y,
    NoDup cs ->
    (In y (fold_left (fun cs x => Page.removeFirst x cs) xs cs) <-> In y cs /\ ~ In y xs).
Proof.
  induction xs as [|x xs IH]; intros cs y Hcs; cbn [fold_left].
  - split; [intros H; split; [assumption | intros []] | now intros [H _]].
  - destruct (removeFirst_NoDup x cs Hcs) as [Hnd Hx].
    rewrite (IH _ y Hnd). split.
    + intros [Hin Hnot]. split; [now apply removeFirst_in in Hin|].
      intros [-> | H]; [now apply Hx | now apply Hnot].
    + intros [Hin Hnot]. split.
      * apply removeFirst_keeps; [assumption|]. intros ->. apply Hnot. now left.
      * intros H. apply Hnot. now right.
Qed.

(** X9. [loadModel] with a model loaded empties [boneDots] and [boneLines]
    and takes the model and the lines out of the scene, and nothing else.
    The scene's children are the former ones with the first occurrence of
    the model and of each line taken out, and a model or line that was a
    child of the scene has no parent afterwards; when the scene listed no
    child twice, its children afterwards are exactly the former ones other
    than the model and the lines. So the markers stay in the scene. Their
    colors, the selected bone and the object the transform controls are
    attached to are kept. *)
Theorem loadModel_leaves_markers_in_scene (st : Page.State) (model : ref) :
  Page.currentModel st = Some model ->
  let before := children (Page.objects st (Page.scene st)) in
  let after := children (Page.objects (Page.loadModel st) (Page.scene st)) in
  Page.boneDots (Page.loadModel st) = []
  /\ Page.boneLines (Page.loadModel st) = []
  /\ Page.selectedBone (Page.loadModel st) = Page.selectedBone st
  /\ Page.controlsObject (Page.loadModel st) = Page.controlsObject st
  /\ Page.materialColor (Page.loadModel st) = Page.materialColor st
  /\ after
     = fold_left (fun cs x => Page.removeFirst x cs) (model :: Page.boneLines st) before
  /\ (forall x, In x (model :: Page.boneLines st) -> In x before ->
                parent (Page.objects (Page.loadModel st) x) = None)
  /\ (forall child, In child before -> child <> model ->
                    ~ In child (Page.boneLines st) -> In child after)
  /\ (NoDup before ->
      forall child,
        In child after
        <-> (In child before /\ child <> model /\ ~ In child (Page.boneLines st))).
Proof.
  intros Hmodel before after.
  destruct (loadModel_objects st model Hmodel) as (Hobj & Hdots & Hlines & Hsel & Hctl & Hcol).
  assert (Hafter : after
                   = fold_left (fun cs x => Page.removeFirst x cs)
                       (model :: Page.boneLines st) before).
  { subst after before. rewrite Hobj. apply children_removeEach. }
  split; [assumption|]. split; [assumption|]. split; [assumption|].
  split; [assumption|]. split; [assumption|]. split; [assumption|].
  split; [|split].
  - intros x Hx Hin. rewrite Hobj. apply parent_removeEach; [now left | assumption].
  - intros child Hin Hne Hnot. rewrite Hafter.
    clear Hafter Hobj. revert Hin. generalize before.
    assert (Hall : ~ In child (model :: Page.boneLines st))
      by (intros [-> | H]; [now apply Hne | now apply Hnot]).
    induction (model :: Page.boneLines st) as [|x xs IH]; intros cs Hin; [assumption|].
    cbn [fold_left]. apply IH.
    + intros H. apply Hall. now right.
    + apply removeFirst_keeps; [assumption|]. intros ->. apply Hall. now left.
  - intros Hnd child. rewrite Hafter, (removeFirst_each _ _ _ Hnd). cbn [In]. split.
    + intros [Hin Hnot]. split; [assumption|]. split.
      * intros ->. apply Hnot. now left.
      * intros Hl. apply Hnot. now right.
    + intros (Hin & Hne & Hnot). split; [assumption|].
      intros [-> | Hl]; [now apply Hne | now apply Hnot].
Qed.

(** The visualized chain with its model in the scene: the model and the two
    lines leave the scene, the three markers stay. *)
Lemma loadModel_leaves_markers_in_scene_witness :
  Page.currentModel loadedPage = Some 9
  /\ let before := children (Page.objects loadedPage (Page.scene loadedPage)) in
     let after :=
       children (Page.objects (Page.loadModel loadedPage) (Page.scene loadedPage)) in
     Page.boneDots (Page.loadModel loadedPage) = []
     /\ Page.boneLines (Page.loadModel loadedPage) = []
     /\ Page.selectedBone (Page.loadModel loadedPage) = Page.selectedBone loadedPage
     /\ Page.controlsObject (Page.loadModel loadedPage) = Page.controlsObject loadedPage
     /\ Page.materialColor (Page.loadModel loadedPage) = Page.materialColor loadedPage
     /\ after
        = fold_left (fun cs x => Page.removeFirst x cs)
            (9 :: Page.boneLines loadedPage) before
     /\ (forall x, In x (9 :: Page.boneLines loadedPage) -> In x before ->
                   parent (Page.objects (Page.loadModel loadedPage) x) = None)
     /\ (forall child, In child before -> child <> 9 ->
                       ~ In child (Page.boneLines loadedPage) -> In child after)
     /\ (NoDup before ->
         forall child,
           In child after
           <-> (In child before /\ child <> 9 /\ ~ In child (Page.boneLines loadedPage))).
Proof.
  split; [reflexivity|].
  apply (loadModel_leaves_markers_in_scene loadedPage 9). reflexivity.
Defined.

Lemma removeLines_frame (ls : list ref) :
  forall st,
    let st' :=
      fold_left
        (fun st line =>
           Page.with_objects st
             (Page.Object3D_remove (Page.objects st) (Page.scene st) line))
        ls st in
    Page.boneDots st' = Page.boneDots st
    /\ Page.selectedBone st' = Page.selectedBone st
    /\ Page.skeleton st' = Page.skeleton st
    /\ Page.controlsObject st' = Page.controlsObject st.
Proof.
  induction ls as [|l ls IH]; intros st; cbn [fold_left]; [repeat split|].
  apply (IH (Page.with_objects st
               (Page.Object3D_remove (Page.objects st) (Page.scene st) l))).
Qed.

Lemma loadModel_frame (st : Page.State) :
  Page.selectedBone (Page.loadModel st) = Page.selectedBone st
  /\ Page.skeleton (Page.loadModel st) = Page.skeleton st
  /\ Page.controlsObject (Page.loadModel st) = Page.controlsObject st
  /\ (Page.currentModel st <> None -> Page.boneDots (Page.loadModel st) = []).
Proof.
  unfold Page.loadModel. destruct (Page.currentModel st) as [model|].
  - cbv zeta.
    set (st1 := Page.with_boneDots
                  (Page.with_objects st
                     (Page.Object3D_remove (Page.objects st) (Page.scene st) model)) []).
    change (Page.boneLines st1) with (Page.boneLines st).
    destruct (removeLines_frame (Page.boneLines st) st1) as (H1 & H2 & H3 & H4).
    cbn [Page.selectedBone Page.skeleton Page.controlsObject Page.boneDots
           Page.with_boneLines].
    repeat split; try assumption. intros _. exact H1.
  - repeat split. congruence.
Qed.

Lemma visualizeSkeleton_frame (st : Page.State) (m : ref) :
  markedBones (Page.visualizeSkeleton st m)
  = (markedBones st ++ Page.skeleton st m)%list
  /\ Page.selectedBone (Page.visualizeSkeleton st m) = Page.selectedBone st
  /\ Page.skeleton (Page.visualizeSkeleton st m) = Page.skeleton st
  /\ Page.controlsObject (Page.visualizeSkeleton st m) = Page.controlsObject st.
Proof.
  unfold Page.visualizeSkeleton, markedBones.
  destruct (visualizeBones_frame (Page.skeleton st m) st)
    as (H1 & H2 & _ & _ & H5 & _ & H7 & _).
  repeat split; assumption.
Qed.

Lemma visualizeSkeletons_frame (ms : list ref) :
  forall st,
    markedBones (fold_left Page.visualizeSkeleton ms st)
    = (markedBones st ++ flat_map (Page.skeleton st) ms)%list
    /\ Page.selectedBone (fold_left Page.visualizeSkeleton ms st) = Page.selectedBone st
    /\ Page.skeleton (fold_left Page.visualizeSkeleton ms st) = Page.skeleton st
    /\ Page.controlsObject (fold_left Page.visualizeSkeleton ms st)
       = Page.controlsObject st.
Proof.
  induction ms as [|m ms IH]; intros st.
  - cbn [fold_left flat_map]. rewrite app_nil_r. repeat split.
  - rewrite !fold_left_cons. cbn [flat_map].
    destruct (IH (Page.visualizeSkeleton st m)) as (H1 & H2 & H3 & H4).
    destruct (visualizeSkeleton_frame st m) as (F1 & F2 & F3 & F4).
    rewrite H1, H2, H3, H4, F1, F2, F3, F4, <- app_assoc. repeat split.
Qed.

Lemma findDot_unmarked (st : Page.State) (bone : ref) :
  ~ In bone (markedBones st) -> Page.findDot st bone = None.
Proof.
  unfold markedBones, Page.findDot. intros H.
  destruct (find (fun dot => Nat.eqb (snd dot) bone) (Page.boneDots st))
    as [dot|] eqn:E; [|reflexivity].
  apply find_some in E as [Hin Heq]. apply Nat.eqb_eq in Heq.
  exfalso. apply H. rewrite <- Heq. now apply in_map.
Qed.

(** X10. A selection does not survive a change of model. When a bone is
    selected and [loadModel] runs on a loaded model, and the skeletons
    visualized afterwards do not contain the selected bone (the loader builds
    new bones for every model), the selected bone and the transform controls'
    object are still the old bone, and every later [selectBone], whatever the
    bone, throws at its first [find] and changes nothing. *)
Theorem model_change_breaks_selection (st : Page.State) (model selected : ref)
    (meshes : list ref) :
  Page.currentModel st = Some model ->
  Page.selectedBone st = Some selected ->
  (forall m, In m meshes -> ~ In selected (Page.skeleton st m)) ->
  let st' := fold_left Page.visualizeSkeleton meshes (Page.loadModel st) in
  Page.selectedBone st' = Some selected
  /\ Page.controlsObject st' = Page.controlsObject st
  /\ markedBones st' = flat_map (Page.skeleton st) meshes
  /\ forall bone, Page.selectBone st' bone = Page.Threw st'.
Proof.
  intros Hmodel Hsel Hnew st'.
  destruct (loadModel_frame st) as (L1 & L2 & L3 & L4).
  destruct (visualizeSkeletons_frame meshes (Page.loadModel st)) as (V1 & V2 & V3 & V4).
  fold st' in V1, V2, V3, V4.
  assert (Hmarked : markedBones st' = flat_map (Page.skeleton st) meshes).
  { rewrite V1, L2. unfold markedBones at 1. rewrite L4 by congruence. reflexivity. }
  repeat split.
  - congruence.
  - congruence.
  - assumption.
  - intros bone. unfold Page.selectBone.
    replace (Page.selectedBone st') with (Some selected) by congruence.
    rewrite findDot_unmarked; [reflexivity|].
    rewrite Hmarked. intros Hin. apply in_flat_map in Hin as (m & Hm & Hin).
    exact (Hnew m Hm Hin).
Qed.

(** Bone A of the chain is selected; the next model has one skinned mesh,
    with the bones 4 and 5. *)
Lemma model_change_breaks_selection_witness :
  Page.currentModel selectedPage = Some 9
  /\ Page.selectedBone selectedPage = Some 2
  /\ (forall m, In m [8] -> ~ In 2 (Page.skeleton selectedPage m))
  /\ let st' := fold_left Page.visualizeSkeleton [8] (Page.loadModel selectedPage) in
     Page.selectedBone st' = Some 2
     /\ Page.controlsObject st' = Page.controlsObject selectedPage
     /\ markedBones st' = flat_map (Page.skeleton selectedPage) [8]
     /\ forall bone, Page.selectBone st' bone = Page.Threw st'.
Proof.
  assert (H : forall m, In m [8] -> ~ In 2 (Page.skeleton selectedPage m)).
  { intros m [<- | []] Hin. cbn in Hin.
    repeat (destruct Hin as [Hin | Hin]; [discriminate Hin|]). exact Hin. }
  split; [reflexivity|]. split; [reflexivity|]. split; [exact H|].
  apply (model_change_breaks_selection selectedPage 9 2 [8]); [reflexivity | reflexivity | exact H].
Defined.

(** ** Lines *)

Lemma add_new (h : Scene) (this object : ref) :
  object <> this -> parent (h object) = None ->
  forall r,
    Page.Object3D_add h this object r
    = if Nat.eqb r this
      then Page.setChildren (h this) (children (h this) ++ [object])%list
      else if Nat.eqb r object then Page.setParent (h object) (Some this) else h r.
Proof.
  intros Hne Hnew r. unfold Page.Object3D_add.
  apply Nat.eqb_neq in Hne. rewrite Hne, Hnew. unfold Page.update.
  rewrite Nat.eqb_sym in Hne. rewrite Hne. reflexivity.
Qed.

Ltac new_parent :=
  repeat (unfold Page.update; rewrite ?Nat.eqb_refl;
          cbn [parent Page.setPosition Page.setParent Page.setChildren
               Page.newObject3D]);
  reflexivity.

Ltac compare_refs :=
  repeat match goal with
         | |- context [Nat.eqb ?a ?b] => destruct (Nat.eqb_spec a b)
         end.

Ltac object_fields :=
  cbn [parent isBone children position quaternion name id
       Page.setPosition Page.setParent Page.setChildren Page.newObject3D].

Lemma visualizeBone_parents (st : Page.State) (bone : ref) :
  Page.scene st < Page.nextRef st ->
  Page.nextRef st <= Page.nextRef (Page.visualizeBone st bone)
  /\ forall r,
       parent (Page.objects (Page.visualizeBone st bone) r)
       = if (Page.nextRef st <=? r)%nat && (r <? Page.nextRef (Page.visualizeBone st bone))%nat
         then Some (Page.scene st)
         else parent (Page.objects st r).
Proof.
  intros Hlt.
  set (h3 := Page.Object3D_add
               (Page.update
                  (Page.update (Page.objects st) (Page.nextRef st)
                     (Page.newObject3D (Page.nextRef st)))
                  (Page.nextRef st)
                  (Page.setPosition
                     (Page.update (Page.objects st) (Page.nextRef st)
                        (Page.newObject3D (Page.nextRef st)) (Page.nextRef st))
                     (position
                        (Page.update (Page.objects st) (Page.nextRef st)
                           (Page.newObject3D (Page.nextRef st)) bone))))
               (Page.scene st) (Page.nextRef st)).
  assert (H3 : forall r, parent (h3 r)
                         = if Nat.eqb r (Page.nextRef st) then Some (Page.scene st)
                           else parent (Page.objects st r)).
  { intros r. subst h3. rewrite add_new; [|lia|new_parent].
    unfold Page.update. compare_refs; subst; object_fields;
      try reflexivity; try lia. }
  visualize_cases; page_fields; fold h3; (split; [lia|]); intros r'.
  - rewrite add_new; [|lia|new_parent].
    unfold Page.update. rewrite ?Nat.eqb_refl.
    destruct (Nat.leb_spec (Page.nextRef st) r');
      destruct (Nat.ltb_spec r' (S (S (Page.nextRef st))));
      cbn [andb]; compare_refs; object_fields; rewrite ?H3; compare_refs;
      try lia; try reflexivity; try congruence.
  - rewrite H3. destruct (Nat.leb_spec (Page.nextRef st) r');
      destruct (Nat.ltb_spec r' (S (Page.nextRef st)));
      cbn [andb]; compare_refs; try reflexivity; try lia.
  - rewrite H3. destruct (Nat.leb_spec (Page.nextRef st) r');
      destruct (Nat.ltb_spec r' (S (Page.nextRef st)));
      cbn [andb]; compare_refs; try reflexivity; try lia.
Qed.

Lemma visualizeBone_new_lines (st : Page.State) (bone line : ref) :
  In line (Page.boneLines (Page.visualizeBone st bone)) ->
  In line (Page.boneLines st)
  \/ (Page.nextRef st <= line < Page.nextRef (Page.visualizeBone st bone)).
Proof.
  visualize_cases; page_fields; intros H; try (now left).
  apply in_app_or in H as [H | [<- | []]]; [now left | right; lia].
Qed.

Lemma visualizeBone_lines (st : Page.State) (bone : ref) :
  linesInScene st -> Page.scene st < Page.nextRef st ->
  linesInScene (Page.visualizeBone st bone)
  /\ Page.scene (Page.visualizeBone st bone) < Page.nextRef (Page.visualizeBone st bone).
Proof.
  intros [Hscene Hlines] Hlt.
  destruct (visualizeBone_parents st bone Hlt) as [Hle Hparent].
  destruct (visualizeBone_frame st bone) as (_ & _ & _ & Hsc & _).
  unfold linesInScene. rewrite Hsc. repeat split.
  - rewrite Hparent. destruct (Nat.leb_spec (Page.nextRef st) (Page.scene st)); [lia|].
    exact Hscene.
  - destruct (visualizeBone_new_lines st bone line H) as [Hold | Hnew].
    + destruct (Hlines line Hold). lia.
    + lia.
  - rewrite Hparent.
    destruct (visualizeBone_new_lines st bone line H) as [Hold | Hnew].
    + destruct (Hlines line Hold) as [Hl Hp].
      destruct (Nat.leb_spec (Page.nextRef st) line); [lia|]. exact Hp.
    + destruct (Nat.leb_spec (Page.nextRef st) line); [|lia].
      destruct (Nat.ltb_spec line (Page.nextRef (Page.visualizeBone st bone))); [|lia].
      reflexivity.
  - lia.
Qed.

Lemma visualizeBones_lines (bones : list ref) :
  forall st,
    linesInScene st -> Page.scene st < Page.nextRef st ->
    linesInScene (fold_left Page.visualizeBone bones st)
    /\ Page.scene (fold_left Page.visualizeBone bones st)
       < Page.nextRef (fold_left Page.visualizeBone bones st).
Proof.
  induction bones as [|b bones IH]; intros st H Hlt; [now split|].
  rewrite !fold_left_cons.
  destruct (visualizeBone_lines st b H Hlt) as [H' Hlt']. now apply IH.
Qed.

(** X11. The lines stay children of the scene: on a page where the scene has
    no parent and every line of [boneLines] is a child of the scene,
    [visualizeSkeleton] leaves it so, the lines it pushes included. No line
    is ever a child of a bone. *)
Theorem visualizeSkeleton_keeps_lines_in_scene (st : Page.State) (skinnedMesh : ref) :
  linesInScene st -> Page.scene st < Page.nextRef st ->
  linesInScene (Page.visualizeSkeleton st skinnedMesh)
  /\ Page.scene (Page.visualizeSkeleton st skinnedMesh)
     < Page.nextRef (Page.visualizeSkeleton st skinnedMesh).
Proof.
  intros H Hlt. unfold Page.visualizeSkeleton. now apply visualizeBones_lines.
Qed.

Lemma chainPage_linesInScene : linesInScene chainPage.
Proof. split; [reflexivity|]. intros line []. Qed.

(** The chain page, where the skeleton R, A, B gets two lines. *)
Lemma visualizeSkeleton_keeps_lines_in_scene_witness :
  linesInScene chainPage
  /\ Page.scene chainPage < Page.nextRef chainPage
  /\ linesInScene shownPage
  /\ Page.scene shownPage < Page.nextRef shownPage.
Proof.
  assert (Hlt : Page.scene chainPage < Page.nextRef chainPage) by (cbn; lia).
  split; [exact chainPage_linesInScene|]. split; [exact Hlt|].
  apply (visualizeSkeleton_keeps_lines_in_scene chainPage 9 chainPage_linesInScene Hlt).
Defined.

Section Animate.

Variable getWorldPosition : Scene -> ref -> Vector3.t.

Lemma animate_dots_frame (dots : list (ref * ref)) :
  forall st,
    let st' :=
      fold_left
        (fun st dot =>
           Page.with_objects st
             (Page.update (Page.objects st) (fst dot)
                (Page.setPosition (Page.objects st (fst dot))
                   (getWorldPosition (Page.objects st) (snd dot)))))
        dots st in
    (forall r, parent (Page.objects st' r) = parent (Page.objects st r))
    /\ Page.linePositions st' = Page.linePositions st
    /\ Page.needsUpdate st' = Page.needsUpdate st
    /\ Page.boneLines st' = Page.boneLines st
    /\ Page.boneDots st' = Page.boneDots st
    /\ Page.scene st' = Page.scene st
    /\ Page.selectedBone st' = Page.selectedBone st
    /\ Page.nextRef st' = Page.nextRef st.
Proof.
  induction dots as [|d dots IH]; intros st; cbn [fold_left]; [repeat split|].
  destruct (IH (Page.with_objects st
                  (Page.update (Page.objects st) (fst d)
                     (Page.setPosition (Page.objects st (fst d))
                        (getWorldPosition (Page.objects st) (snd d))))))
    as (H1 & H2 & H3 & H4 & H5 & H6 & H7 & H8).
  repeat split; try assumption.
  intros r. rewrite H1. page_fields. unfold Page.update.
  destruct (Nat.eqb r (fst d)) eqn:E; [|reflexivity].
  apply Nat.eqb_eq in E. subst r. reflexivity.
Qed.

Lemma animate_lines_idle (ls : list ref) (st : Page.State) :
  parent (Page.objects st (Page.scene st)) = None ->
  (forall line, In line ls -> parent (Page.objects st line) = Some (Page.scene st)) ->
  fold_left
    (fun acc line =>
       match acc with
       | Page.Returned st =>
           match parent (Page.objects st line) with
           | None => Page.Threw st
           | Some bone =>
               match parent (Page.objects st bone) with
               | Some parentBone =>
                   if isBone (Page.objects st parentBone) then
                     let positions := Page.linePositions st line in
                     let bonePos := getWorldPosition (Page.objects st) bone in
                     let parentPos := getWorldPosition (Page.objects st) parentBone in
                     let positions := Page.writeFloat32 positions 0 (Vector3.x bonePos) in
                     let positions := Page.writeFloat32 positions 1 (Vector3.y bonePos) in
                     let positions := Page.writeFloat32 positions 2 (Vector3.z bonePos) in
                     let positions := Page.writeFloat32 positions 3 (Vector3.x parentPos) in
                     let positions := Page.writeFloat32 positions 4 (Vector3.y parentPos) in
                     let positions := Page.writeFloat32 positions 5 (Vector3.z parentPos) in
                     let st := Page.with_linePositions st
                                 (Page.update (Page.linePositions st) line positions) in
                     Page.Returned
                       (Page.with_needsUpdate st (Page.update (Page.needsUpdate st) line true))
                   else Page.Returned st
               | None => Page.Returned st
               end
           end
       | other => other
       end)
    ls (Page.Returned st)
  = Page.Returned st.
Proof.
  intros Hscene. induction ls as [|l ls IH]; intros Hls; cbn [fold_left]; [reflexivity|].
  rewrite (Hls l (or_introl eq_refl)), Hscene. apply IH.
  intros line Hin. apply Hls. now right.
Qed.

(** X12. [animate] never moves a line. On a page where the scene has no
    parent and every line of [boneLines] is a child of the scene, [animate]
    returns, and the position buffer and the [needsUpdate] flag of every
    line are what they were: the loop over the lines reads the parent of the
    line's parent, which the scene does not have. *)
Theorem animate_never_moves_lines (st : Page.State) :
  linesInScene st ->
  exists st',
    Page.animate getWorldPosition st = Page.Returned st'
    /\ Page.linePositions st' = Page.linePositions st
    /\ Page.needsUpdate st' = Page.needsUpdate st
    /\ Page.boneLines st' = Page.boneLines st
    /\ linesInScene st'.
Proof.
  intros [Hscene Hlines]. unfold Page.animate. cbv zeta.
  destruct (animate_dots_frame (Page.boneDots st) st) as (H1 & H2 & H3 & H4 & H5 & H6 & H7 & H8).
  cbv zeta in H1, H2, H3, H4, H5, H6, H7, H8.
  set (st1 := fold_left _ (Page.boneDots st) st) in *.
  exists st1. rewrite animate_lines_idle.
  - repeat split; try assumption.
    + rewrite H6, H1. exact Hscene.
    + rewrite H4 in H. rewrite H8. now apply Hlines.
    + rewrite H4 in H. rewrite H6, H1. now apply Hlines.
  - rewrite H6, H1. exact Hscene.
  - intros line Hin. rewrite H4 in Hin. rewrite H6, H1. now apply Hlines.
Qed.

End Animate.

(** The visualized chain, with world positions that are the local ones. *)
Lemma animate_never_moves_lines_witness :
  linesInScene shownPage
  /\ exists st',
       Page.animate localPosition shownPage = Page.Returned st'
       /\ Page.linePositions st' = Page.linePositions shownPage
       /\ Page.needsUpdate st' = Page.needsUpdate shownPage
       /\ Page.boneLines st' = Page.boneLines shownPage
       /\ linesInScene st'.
Proof.
  assert (Hlt : Page.scene chainPage < Page.nextRef chainPage) by (cbn; lia).
  assert (H : linesInScene shownPage)
    by exact (proj1 (visualizeBones_lines [1; 2; 3] chainPage chainPage_linesInScene Hlt)).
  split; [exact H|].
  apply (animate_never_moves_lines localPosition shownPage H).
Defined.

(** ** The exporter reads bones only *)

Lemma fold_left_ext_in {A B : Type} (f g : A -> B -> A) (l : list B) :
  (forall a x, In x l -> f a x = g a x) ->
  forall a, fold_left f l a = fold_left g l a.
Proof.
  induction l as [|x l IH]; intros H a; cbn [fold_left]; [reflexivity|].
  rewrite (H a x (or_introl eq_refl)). apply IH.
  intros a' x' Hin. apply H. now right.
Qed.

Lemma find_ext_in {A : Type} (f g : A -> bool) (l : list A) :
  (forall x, In x l -> f x = g x) -> find f l = find g l.
Proof.
  induction l as [|x l IH]; intros H; cbn [find]; [reflexivity|].
  rewrite (H x (or_introl eq_refl)). destruct (g x); [reflexivity|].
  apply IH. intros x' Hin. apply H. now right.
Qed.

Section SameBones.

Variable THREE : Library.
Variables h h' : Scene.

(** The two stores agree on which objects are bones, and on every bone. *)
Hypothesis same_kind : forall r, isBone (h' r) = isBone (h r).
Hypothesis same_bone : forall r, isBone (h r) = true -> h' r = h r.

Lemma buildBVHHierarchy_same (fuel : nat) :
  forall bone level,
    h' bone = h bone ->
    buildBVHHierarchy h' fuel bone level = buildBVHHierarchy h fuel bone level.
Proof.
  induction fuel as [|fuel IH]; intros bone level Hbone; [reflexivity|].
  cbn [buildBVHHierarchy]. rewrite Hbone. cbv zeta.
  replace (filter (fun child => isBone (h' child)) (children (h bone)))
    with (filter (fun child => isBone (h child)) (children (h bone)))
    by (apply filter_ext; intros c; now rewrite same_kind).
  destruct (0 <? List.length (filter (fun child => isBone (h child)) (children (h bone))))%nat;
    [|reflexivity].
  erewrite fold_left_ext_in; [reflexivity|].
  intros acc child Hin. destruct acc as [str|]; [|reflexivity].
  apply filter_In in Hin as [_ Hb]. now rewrite (IH child (level + 1) (same_bone child Hb)).
Qed.

Lemma buildBVHMotion_same (bones : list ref) :
  (forall b, In b bones -> h' b = h b) ->
  buildBVHMotion THREE h' bones = buildBVHMotion THREE h bones.
Proof.
  intros H. unfold buildBVHMotion. cbv zeta. f_equal. f_equal.
  apply fold_left_ext_in. intros motion b Hin. now rewrite (H b Hin).
Qed.

Lemma hasNoBoneParent_same (bone : ref) :
  h' bone = h bone -> hasNoBoneParent h' bone = hasNoBoneParent h bone.
Proof.
  intros H. unfold hasNoBoneParent. rewrite H.
  destruct (parent (h bone)) as [p|]; [|reflexivity]. now rewrite same_kind.
Qed.

Lemma exportToBVH_same (fuel : nat) (boneDots : list Mesh) (w : Browser) :
  (forall b, In b (map userData_bone boneDots) -> h' b = h b) ->
  exportToBVH THREE h' fuel boneDots w = exportToBVH THREE h fuel boneDots w.
Proof.
  intros H. unfold exportToBVH. cbv zeta.
  destruct (map userData_bone boneDots) as [|first rest] eqn:E; [reflexivity|].
  rewrite (find_ext_in (hasNoBoneParent h') (hasNoBoneParent h) (first :: rest))
    by (intros b Hin; apply hasNoBoneParent_same; now apply H).
  rewrite (buildBVHMotion_same (first :: rest) H).
  rewrite buildBVHHierarchy_same; [reflexivity|].
  destruct (find (hasNoBoneParent h) (first :: rest)) as [b|] eqn:F.
  - apply H. now apply find_some in F as [Hin _].
  - apply H. now left.
Qed.

End SameBones.

Lemma visualizeBone_bones (st : Page.State) (bone : ref) :
  bonesAllocated st ->
  bonesAllocated (Page.visualizeBone st bone)
  /\ (forall r, isBone (Page.objects (Page.visualizeBone st bone) r)
                = isBone (Page.objects st r))
  /\ (forall r, isBone (Page.objects st r) = true ->
                Page.objects (Page.visualizeBone st bone) r = Page.objects st r).
Proof.
  intros (Hfresh & Hscene & Hlt).
  set (h3 := Page.Object3D_add
               (Page.update
                  (Page.update (Page.objects st) (Page.nextRef st)
                     (Page.newObject3D (Page.nextRef st)))
                  (Page.nextRef st)
                  (Page.setPosition
                     (Page.update (Page.objects st) (Page.nextRef st)
                        (Page.newObject3D (Page.nextRef st)) (Page.nextRef st))
                     (position
                        (Page.update (Page.objects st) (Page.nextRef st)
                           (Page.newObject3D (Page.nextRef st)) bone))))
               (Page.scene st) (Page.nextRef st)).
  assert (Hdot : isBone (Page.objects st (Page.nextRef st)) = false)
    by (apply Hfresh; lia).
  assert (Hline : isBone (Page.objects st (S (Page.nextRef st))) = false)
    by (apply Hfresh; lia).
  assert (K3 : forall r, isBone (h3 r) = isBone (Page.objects st r)).
  { intros r. subst h3. rewrite add_new; [|lia|new_parent].
    unfold Page.update. rewrite ?Nat.eqb_refl.
    compare_refs; object_fields; congruence. }
  assert (B3 : forall r, isBone (Page.objects st r) = true -> h3 r = Page.objects st r).
  { intros r Hr. subst h3. rewrite add_new; [|lia|new_parent].
    unfold Page.update. rewrite ?Nat.eqb_refl.
    compare_refs; object_fields; try reflexivity; congruence. }
  unfold bonesAllocated.
  visualize_cases; page_fields; fold h3.
  - repeat split.
    + intros r' Hr'. rewrite add_new; [|lia|new_parent].
      unfold Page.update. rewrite ?Nat.eqb_refl.
      compare_refs; object_fields; rewrite ?K3; try reflexivity; try lia;
        try congruence; apply Hfresh; lia.
    + rewrite add_new; [|lia|new_parent].
      unfold Page.update. rewrite ?Nat.eqb_refl.
      compare_refs; object_fields; rewrite ?K3; try lia; congruence.
    + lia.
    + intros r'. rewrite add_new; [|lia|new_parent].
      unfold Page.update. rewrite ?Nat.eqb_refl.
      compare_refs; object_fields; rewrite ?K3; try reflexivity; try lia; congruence.
    + intros r' Hr'. rewrite add_new; [|lia|new_parent].
      unfold Page.update. rewrite ?Nat.eqb_refl.
      compare_refs; object_fields; rewrite ?B3 by assumption;
        try reflexivity; try lia; congruence.
  - repeat split; try assumption; try lia.
    + intros r' Hr'. rewrite K3. apply Hfresh. lia.
    + now rewrite K3.
  - repeat split; try assumption; try lia.
    + intros r' Hr'. rewrite K3. apply Hfresh. lia.
    + now rewrite K3.
Qed.

Lemma visualizeBones_bones (bones : list ref) :
  forall st,
    bonesAllocated st ->
    bonesAllocated (fold_left Page.visualizeBone bones st)
    /\ (forall r, isBone (Page.objects (fold_left Page.visualizeBone bones st) r)
                  = isBone (Page.objects st r))
    /\ (forall r, isBone (Page.objects st r) = true ->
                  Page.objects (fold_left Page.visualizeBone bones st) r
                  = Page.objects st r).
Proof.
  induction bones as [|b bones IH]; intros st H;
    [cbn [fold_left]; split; [exact H | split; [reflexivity | intros; reflexivity]]|].
  rewrite !fold_left_cons.
  destruct (visualizeBone_bones st b H) as (H1 & H2 & H3).
  destruct (IH _ H1) as (I1 & I2 & I3).
  repeat split; try apply I1.
  - intros r. now rewrite I2, H2.
  - intros r Hr. rewrite I3, H3; try reflexivity; try assumption. now rewrite H2.
Qed.

(** X13. Markers and lines never reach the export. On a page whose unused
    references name no bone and whose scene is not a bone, the export that
    follows [visualizeSkeleton] is the export of the bone set (the bones
    marked before, then [skeleton.bones] in order) over the objects as they
    were before the markers and lines were made. *)
Theorem export_after_visualizeSkeleton (THREE : Library) (fuel : nat)
    (st : Page.State) (skinnedMesh : ref) :
  bonesAllocated st ->
  (forall b, In b (markedBones st ++ Page.skeleton st skinnedMesh) ->
             isBone (Page.objects st b) = true) ->
  Page.exportToBVH THREE fuel (Page.visualizeSkeleton st skinnedMesh)
  = match
      exportToBVH THREE (Page.objects st) fuel
        (map Build_Mesh (markedBones st ++ Page.skeleton st skinnedMesh))
        (Page.browser st)
    with
    | Some w => Page.Returned (Page.with_browser (Page.visualizeSkeleton st skinnedMesh) w)
    | None => Page.Unfinished
    end.
Proof.
  intros Halloc Hbones. unfold Page.exportToBVH.
  destruct (visualizeBones_bones (Page.skeleton st skinnedMesh) st Halloc)
    as (_ & Hkind & Hbone).
  destruct (visualizeBones_frame (Page.skeleton st skinnedMesh) st)
    as (Hdots & _ & _ & _ & _ & Hbrowser & _).
  fold (Page.visualizeSkeleton st skinnedMesh) in Hkind, Hbone, Hdots, Hbrowser.
  rewrite <- (map_map snd Build_Mesh), Hdots, Hbrowser.
  fold (markedBones st).
  rewrite (exportToBVH_same THREE (Page.objects st)
             (Page.objects (Page.visualizeSkeleton st skinnedMesh)) Hkind Hbone);
    [reflexivity|].
  intros b Hin. rewrite map_map in Hin. cbn [userData_bone] in Hin.
  rewrite map_id in Hin. apply Hbone. now apply Hbones.
Qed.

(** The chain page: markers for R, A, B, then an export. *)
Lemma export_after_visualizeSkeleton_witness :
  bonesAllocated chainPage
  /\ (forall b, In b (markedBones chainPage ++ Page.skeleton chainPage 9) ->
                isBone (Page.objects chainPage b) = true)
  /\ Page.exportToBVH three 4 shownPage
     = match
         exportToBVH three (Page.objects chainPage) 4
           (map Build_Mesh (markedBones chainPage ++ Page.skeleton chainPage 9))
           (Page.browser chainPage)
       with
       | Some w => Page.Returned (Page.with_browser shownPage w)
       | None => Page.Unfinished
       end.
Proof.
  assert (Halloc : bonesAllocated chainPage).
  { split; [|split; [reflexivity | cbn; lia]].
    intros r Hr. cbn in Hr. do 10 (destruct r as [|r]; [lia|]). reflexivity. }
  assert (Hbones : forall b, In b (markedBones chainPage ++ Page.skeleton chainPage 9) ->
                             isBone (Page.objects chainPage b) = true).
  { intros b Hin. cbn in Hin. destruct Hin as [<- | [<- | [<- | []]]]; reflexivity. }
  split; [exact Halloc|]. split; [exact Hbones|].
  apply (export_after_visualizeSkeleton three 4 chainPage 9 Halloc Hbones).
Defined.

(** ** Selecting *)

Lemma findDot_marked (st : Page.State) (bone : ref) :
  In bone (markedBones st) -> exists dot, Page.findDot st bone = Some dot.
Proof.
  intros Hin. destruct (Page.findDot st bone) as [dot|] eqn:E; [now exists dot|].
  exfalso. unfold markedBones in Hin. apply in_map_iff in Hin as (dot & Hsnd & Hin).
  unfold Page.findDot in E.
  apply (find_none _ _ E) in Hin. cbv beta in Hin. subst bone.
  rewrite Nat.eqb_refl in Hin. discriminate.
Qed.

Lemma findDot_some_marked (st : Page.State) (bone : ref) (dot : ref * ref) :
  Page.findDot st bone = Some dot -> In bone (markedBones st).
Proof.
  intros H. apply findDot_in in H as [Hin <-]. unfold markedBones. now apply in_map.
Qed.

(** X14. [selectBone] returns exactly when the bone has a marker and the
    bone selected so far, if there is one, has a marker too; in every other
    case it throws. *)
Theorem selectBone_returns_iff_marked (st : Page.State) (bone : ref) :
  (exists st', Page.selectBone st bone = Page.Returned st')
  <-> (In bone (markedBones st)
       /\ forall selected, Page.selectedBone st = Some selected ->
                           In selected (markedBones st)).
Proof.
  destruct (selectBone_cases st bone) as [(sel & Hsel & Hnone & Hthrow) | (st1 & Hst1 & Hout)].
  - split.
    + intros (st' & H). congruence.
    + intros (_ & H). destruct (findDot_marked st sel (H sel Hsel)) as (dot & Hdot).
      congruence.
  - destruct Hout as [[Hnone Hthrow] | (dot & Hdot & Hret)].
    + split.
      * intros (st' & H). congruence.
      * intros (H & _). destruct (findDot_marked st bone H) as (dot & Hdot). congruence.
    + split; [intros _ | intros _; eexists; exact Hret].
      split; [exact (findDot_some_marked st bone dot Hdot)|].
      intros selected Hsel.
      destruct Hst1 as [[Hno _] | (sel & d & Hsel' & Hd & _)]; [congruence|].
      replace selected with sel by congruence.
      exact (findDot_some_marked st sel d Hd).
Qed.

(** ** The Collada export *)

(** X15. [exportToDAE] cleans up after itself like the BVH export. In a
    browser whose live object URLs were all handed out earlier, when the
    Collada exporter returns data, exactly one file is saved, named
    deformed_model.dae and of type text/xml, holding that data; the anchor
    appended to the page is removed again, the object URL is revoked, and
    nothing else of the page changes. When the Collada exporter throws,
    nothing was created. *)
Theorem exportToDAE_cleans_up (colladaData : Scene -> option ref -> option string)
    (st : Page.State) :
  urlsInUse (Page.browser st) ->
  match colladaData (Page.objects st) (Page.currentModel st) with
  | Some data =>
      exists st',
        Page.exportToDAE colladaData st = Page.Returned st'
        /\ saved (Page.browser st')
           = (saved (Page.browser st)
              ++ [("deformed_model.dae", {| parts := data; type := "text/xml" |})])%list
        /\ objectURLs (Page.browser st') = objectURLs (Page.browser st)
        /\ body (Page.browser st') = body (Page.browser st)
        /\ nextURL (Page.browser st') = S (nextURL (Page.browser st))
        /\ urlsInUse (Page.browser st')
        /\ st' = Page.with_browser st (Page.browser st')
  | None => Page.exportToDAE colladaData st = Page.Threw st
  end.
Proof.
  intros Hw. unfold Page.exportToDAE.
  destruct (colladaData (Page.objects st) (Page.currentModel st)) as [data|]; [|reflexivity].
  eexists. split; [reflexivity|].
  unfold createObjectURL, appendChild, click, removeChild, revokeObjectURL.
  cbn [href download objectURLs nextURL body saved find fst Page.browser Page.with_browser].
  rewrite Nat.eqb_refl.
  cbn [objectURLs nextURL body saved filter fst Page.browser Page.with_browser].
  rewrite Nat.eqb_refl. cbn [negb].
  rewrite (filter_fresh_url (Page.browser st) Hw), removelast_last.
  repeat split.
  unfold urlsInUse in *. cbn [objectURLs nextURL].
  eapply Forall_impl; [|exact Hw]. cbn. intros u Hu. lia.
Qed.

(** A page with a model loaded, and a Collada exporter that returns a
    document for a model and throws without one. *)
Lemma exportToDAE_cleans_up_witness :
  urlsInUse (Page.browser shownPage)
  /\ exists st',
       Page.exportToDAE
         (fun _ model => match model with Some _ => Some "<COLLADA/>" | None => None end)
         shownPage
       = Page.Returned st'
       /\ saved (Page.browser st')
          = (saved (Page.browser shownPage)
             ++ [("deformed_model.dae", {| parts := "<COLLADA/>"; type := "text/xml" |})])%list
       /\ objectURLs (Page.browser st') = objectURLs (Page.browser shownPage)
       /\ body (Page.browser st') = body (Page.browser shownPage)
       /\ nextURL (Page.browser st') = S (nextURL (Page.browser shownPage))
       /\ urlsInUse (Page.browser st')
       /\ st' = Page.with_browser shownPage (Page.browser st').
Proof.
  split; [constructor|].
  apply (exportToDAE_cleans_up
           (fun _ model => match model with Some _ => Some "<COLLADA/>" | None => None end)
           shownPage).
  constructor.
Defined.

(** ** Keys *)

Lemma toLowerCase_idempotent (s : string) :
  Page.toLowerCase (Page.toLowerCase s) = Page.toLowerCase s.
Proof.
  induction s as [|c s IH]; [reflexivity|].
  cbn [Page.toLowerCase]. cbv zeta. rewrite IH. f_equal.
  assert (Hc : nat_of_ascii c < 256) by apply nat_ascii_bounded.
  destruct ((65 <=? nat_of_ascii c) && (nat_of_ascii c <=? 90))%nat eqn:E.
  - apply andb_true_iff in E as [E1 E2].
    apply Nat.leb_le in E1, E2.
    rewrite nat_ascii_embedding by lia.
    replace (nat_of_ascii c + 32 <=? 90)%nat with false
      by (symmetry; apply Nat.leb_gt; lia).
    now rewrite andb_false_r.
  - now rewrite E.
Qed.

Lemma with_controlsMode_same (st : Page.State) :
  Page.with_controlsMode st (Page.controlsMode st) = st.
Proof. now destruct st. Qed.

(** X16. The keys. [keydown] does not tell upper case from lower case; B
    (or b) runs the export whether or not a bone is selected; every other
    key returns, changes at most the mode of the transform controls, and
    changes nothing at all when no bone is selected. *)
Theorem keydown_keys (THREE : Library) (fuel : nat) (st : Page.State) (key : string) :
  Page.keydown THREE fuel st key = Page.keydown THREE fuel st (Page.toLowerCase key)
  /\ (Page.toLowerCase key = "b" ->
      Page.keydown THREE fuel st key = Page.exportToBVH THREE fuel st)
  /\ (Page.toLowerCase key <> "b" ->
      exists mode,
        Page.keydown THREE fuel st key = Page.Returned (Page.with_controlsMode st mode)
        /\ (Page.selectedBone st = None -> mode = Page.controlsMode st)).
Proof.
  split; [|split].
  - unfold Page.keydown. now rewrite toLowerCase_idempotent.
  - intros Hb. unfold Page.keydown. rewrite Hb. cbn [String.eqb Ascii.eqb Bool.eqb negb andb].
    now rewrite andb_false_r.
  - intros Hb. apply String.eqb_neq in Hb. unfold Page.keydown. rewrite Hb.
    cbn [negb]. rewrite andb_true_r.
    destruct (Page.selectedBone st) as [selected|].
    + destruct (String.eqb (Page.toLowerCase key) "r");
        [eexists; split; [reflexivity | discriminate]|].
      destruct (String.eqb (Page.toLowerCase key) "s");
        [eexists; split; [reflexivity | discriminate]|].
      destruct (String.eqb (Page.toLowerCase key) "t");
        [eexists; split; [reflexivity | discriminate]|].
      exists (Page.controlsMode st). now rewrite with_controlsMode_same.
    + exists (Page.controlsMode st). now rewrite with_controlsMode_same.
Qed.

(** * The joints of a tree-shaped skeleton *)

Section Tree.

Variable scene : Scene.

Lemma boneTree_acyclic (fuel : nat) :
  forall bone t, boneTree scene fuel bone = Some t -> acyclicBelow scene bone.
Proof.
  induction fuel as [|fuel IH]; intros bone t Ht; [discriminate|].
  destruct (boneTree_inv scene _ _ _ Ht) as (nested & _ & Hnested).
  cbn [Nat.sub] in Hnested. rewrite Nat.sub_0_r in Hnested.
  constructor. intros child Hchild.
  destruct (Forall2_in_left _ _ _ _ Hnested Hchild) as (k & _ & Hk).
  exact (IH _ _ Hk).
Qed.

Lemma reachable_last (a x : ref) :
  reachable scene a x ->
  a = x \/ exists p, reachable scene a p /\ boneChild scene p x.
Proof.
  intros H. apply clos_rt_rtn1 in H. destruct H as [|p x Hpx Hap]; [now left|].
  right. exists p. split; [now apply clos_rtn1_rt | assumption].
Qed.

(** Where the recursion returns, no bone is below one of its own bone
    children. *)
Lemma no_cycle (x : ref) :
  acyclicBelow scene x ->
  forall c, boneChild scene x c -> reachable scene c x -> False.
Proof.
  induction 1 as [x _ IH]. intros c Hc Hr.
  apply clos_rt_rt1n in Hr. destruct Hr as [|c' x' Hstep Hrest].
  - exact (IH c Hc c Hc (rt_refl _ _ _)).
  - apply (IH c Hc c' Hstep).
    apply rt_trans with x'; [now apply clos_rt1n_rt | now apply rt_step].
Qed.

(** In a tree, two bones above the same bone are one above the other. *)
Lemma above_one_another (root : ref) :
  treeBelow scene root ->
  forall a x, reachable scene a x -> reachable scene root a ->
  forall b, reachable scene root b -> reachable scene b x ->
    reachable scene a b \/ reachable scene b a.
Proof.
  intros Htree a x Hax. apply clos_rt_rtn1 in Hax.
  induction Hax as [|p x Hpx Hap IH]; intros Hra b Hrb Hbx; [now right|].
  apply clos_rtn1_rt in Hap.
  destruct (reachable_last b x Hbx) as [-> | (q & Hbq & Hqx)].
  - left. apply rt_trans with p; [assumption | now apply rt_step].
  - assert (Hp : parent (scene x) = Some p).
    { apply (Htree p); [|assumption]. now apply rt_trans with a. }
    assert (Hq : parent (scene x) = Some q).
    { apply (Htree q); [|assumption]. now apply rt_trans with b. }
    assert (q = p) by congruence. subst q. now apply IH.
Qed.

Lemma siblings_apart (root c1 c2 : ref) :
  treeBelow scene root -> acyclicBelow scene root ->
  boneChild scene root c1 -> boneChild scene root c2 -> c1 <> c2 ->
  reachable scene c1 c2 -> False.
Proof.
  intros Htree Hacc H1 H2 Hne Hr.
  destruct (reachable_last c1 c2 Hr) as [-> | (p & Hp & Hpc)]; [now apply Hne|].
  assert (Hparent : parent (scene c2) = Some p).
  { apply (Htree p); [|assumption].
    apply rt_trans with c1; [now apply rt_step | assumption]. }
  assert (Hroot : parent (scene c2) = Some root)
    by (apply (Htree root); [apply rt_refl | assumption]).
  assert (p = root) by congruence. subst p.
  exact (no_cycle root Hacc c1 H1 Hp).
Qed.

Lemma treeBelow_child (root child : ref) :
  treeBelow scene root -> boneChild scene root child -> treeBelow scene child.
Proof.
  intros Htree Hchild p Hp. apply Htree.
  apply rt_trans with child; [now apply rt_step | assumption].
Qed.

(** In a tree no bone is emitted twice. *)
Lemma tree_NoDup (fuel : nat) :
  forall root t,
    treeBelow scene root -> boneTree scene fuel root = Some t -> NoDup (preorder t).
Proof.
  induction fuel as [|fuel IH]; intros root t Htree Ht; [discriminate|].
  pose proof (boneTree_acyclic _ _ _ Ht) as Hacc.
  destruct (boneTree_inv scene _ _ _ Ht) as (nested & -> & Hnested).
  cbn [Nat.sub] in Hnested. rewrite Nat.sub_0_r in Hnested.
  cbn [preorder]. constructor.
  - intros Hin. apply in_flat_map in Hin as (k & Hk & Hin).
    destruct (Forall2_in_right _ _ _ _ Hnested Hk) as (child & Hchild & Hck).
    apply (no_cycle root Hacc child Hchild).
    exact (preorder_is_reachable scene fuel child k root Hck Hin).
  - assert (Hapart : forall c1 c2 k1 k2 x,
               boneChild scene root c1 -> boneChild scene root c2 -> c1 <> c2 ->
               boneTree scene fuel c1 = Some k1 -> boneTree scene fuel c2 = Some k2 ->
               In x (preorder k1) -> In x (preorder k2) -> False).
    { intros c1 c2 k1 k2 x H1 H2 Hne Hk1 Hk2 Hx1 Hx2.
      pose proof (preorder_is_reachable scene fuel c1 k1 x Hk1 Hx1) as R1.
      pose proof (preorder_is_reachable scene fuel c2 k2 x Hk2 Hx2) as R2.
      destruct (above_one_another root Htree c1 x R1 (rt_step _ _ _ _ H1)
                  c2 (rt_step _ _ _ _ H2) R2) as [H | H].
      - exact (siblings_apart root c1 c2 Htree Hacc H1 H2 Hne H).
      - apply (siblings_apart root c2 c1 Htree Hacc H2 H1); [congruence | exact H]. }
    pose proof (proj1 (Htree root (rt_refl _ _ _))) as Hkids.
    assert (Haux : forall cs ks,
               Forall2 (fun child k => boneTree scene fuel child = Some k) cs ks ->
               NoDup cs -> (forall c, In c cs -> boneChild scene root c) ->
               NoDup (flat_map preorder ks)).
    { intros cs ks E. induction E as [|c k cs ks Hck E IHn]; intros Hnd Hsub.
      - constructor.
      - inversion Hnd as [|? ? Hc Hcs]; subst. cbn [flat_map].
        apply NoDup_app.
        + apply (IH c k); [|assumption].
          apply (treeBelow_child root c Htree). apply Hsub. now left.
        + apply IHn; [assumption|]. intros c' Hc'. apply Hsub. now right.
        + intros x Hx Hx'. apply in_flat_map in Hx' as (k' & Hk' & Hx').
          destruct (Forall2_in_right _ _ _ _ E Hk') as (c' & Hc' & Hck').
          apply (Hapart c c' k k' x); try assumption.
          * apply Hsub. now left.
          * apply Hsub. now right.
          * intros ->. now apply Hc. }
    apply (Haux _ _ Hnested Hkids). intros c Hc. exact Hc.
Qed.

End Tree.

(** C10. In an exported document the hierarchy is the rendering of the
    root's call tree, whose joints are exactly the bones reachable from the
    selected root through bone-typed child links, and the motion line has
    one group of six values per bone of the bone set. On the input of the
    exporter, where the bones below the root form a tree (no bone is listed
    twice among its parent's children, and that parent is its [parent]) and
    the bone set holds all bones of the model, so every bone reachable from
    the root, each reachable bone has one joint, and a bone of the set that
    is not reachable from the root makes the joints strictly fewer than the
    groups. *)
Theorem hierarchy_joints_are_the_reachable_bones (THREE : Library) (scene : Scene)
    (fuel : nat) (boneDots : list Mesh) (w w' : Browser) :
  boneDots <> [] ->
  exportToBVH THREE scene fuel boneDots w = Some w' ->
  let bones := map userData_bone boneDots in
  exists doc root t,
    w' = downloaded doc w
    /\ rootBone scene bones = Some root
    /\ boneTree scene fuel root = Some t
    /\ doc = document (render scene t 0) (buildBVHMotion THREE scene bones)
    /\ (forall bone, In bone (preorder t) <-> reachable scene root bone)
    /\ List.length (motionTokens doc) = 6 * List.length bones
    /\ (treeBelow scene root -> NoDup (preorder t))
    /\ (treeBelow scene root ->
        (forall bone, reachable scene root bone -> In bone bones) ->
        (exists bone, In bone bones /\ ~ reachable scene root bone) ->
        List.length (preorder t) < List.length bones).
Proof.
  intros Hne Hex bones.
  assert (Hb : bones <> []) by (subst bones; destruct boneDots; [congruence | discriminate]).
  destruct (rootBone_some scene bones Hb) as (root & Hroot).
  rewrite (exportToBVH_eq THREE scene fuel boneDots w root Hroot) in Hex.
  rewrite buildBVHHierarchy_render in Hex.
  destruct (boneTree scene fuel root) as [t|] eqn:Et; [|discriminate].
  cbn [option_map] in Hex. inversion Hex as [Hw]. clear Hex Hw.
  assert (Hiff : forall bone, In bone (preorder t) <-> reachable scene root bone).
  { intros bone. split.
    - now apply (preorder_is_reachable scene fuel).
    - intros H. now apply (reachable_in_preorder scene root bone H fuel). }
  eexists. exists root, t. split; [reflexivity|].
  split; [exact Hroot|]. split; [exact Et|]. split; [reflexivity|].
  split; [exact Hiff|].
  fold bones. rewrite (document_motionTokens THREE scene _ bones Hb).
  split; [apply channelValues_length|].
  split; [intros Htree; exact (tree_NoDup scene fuel root t Htree Et)|].
  intros Htree Hin Hout.
  exact (fewer_joints_than_bones scene root t bones Hiff Hin
           (tree_NoDup scene fuel root t Htree Et) Hout).
Qed.

Lemma forest_reachable (bone : ref) :
  reachable forest 1 bone <-> (bone = 1 \/ bone = 2 \/ bone = 3).
Proof.
  split.
  - intros H. pose proof (reachable_in_preorder forest 1 bone H 2 _ eq_refl) as Hin.
    cbn in Hin. intuition congruence.
  - intros [-> | [-> | ->]].
    + apply rt_refl.
    + apply rt_step. cbn. tauto.
    + apply rt_step. cbn. tauto.
Qed.

Lemma forest_treeBelow : treeBelow forest 1.
Proof.
  intros p Hp. apply forest_reachable in Hp. destruct Hp as [-> | [-> | ->]].
  - split.
    + change (NoDup [2; 3]).
      constructor; [cbn [In]; intuition discriminate|].
      constructor; [intros []|]. constructor.
    + intros c Hc. change (In c [2; 3]) in Hc.
      destruct Hc as [<- | [<- | []]]; reflexivity.
  - split; [constructor | intros c []].
  - split; [constructor | intros c []].
Qed.

(** The bone set R, A, B, X over the forest: the bones below R form a tree
    and are all in the set, X is not reachable from R, and the three joints
    are fewer than the four groups. *)
Lemma hierarchy_joints_are_the_reachable_bones_witness :
  dots [1; 2; 3; 4] <> []
  /\ exists w',
       exportToBVH three forest 2 (dots [1; 2; 3; 4]) emptyBrowser = Some w'
       /\ treeBelow forest 1
       /\ (forall bone, reachable forest 1 bone -> In bone [1; 2; 3; 4])
       /\ (exists bone, In bone [1; 2; 3; 4] /\ ~ reachable forest 1 bone)
       /\ exists t,
            boneTree forest 2 1 = Some t
            /\ NoDup (preorder t)
            /\ List.length (preorder t) < List.length [1; 2; 3; 4].
Proof.
  split; [discriminate|].
  eexists. split; [reflexivity|].
  assert (Hin : forall bone, reachable forest 1 bone -> In bone [1; 2; 3; 4]).
  { intros bone Hb. apply forest_reachable in Hb. cbn [In].
    destruct Hb as [<- | [<- | <-]]; tauto. }
  assert (Hnot : exists bone, In bone [1; 2; 3; 4] /\ ~ reachable forest 1 bone).
  { exists 4. split; [cbn; tauto|]. intros Hb. apply forest_reachable in Hb.
    destruct Hb as [Hb | [Hb | Hb]]; discriminate Hb. }
  split; [exact forest_treeBelow|]. split; [exact Hin|]. split; [exact Hnot|].
  destruct (hierarchy_joints_are_the_reachable_bones three forest 2 (dots [1; 2; 3; 4])
              emptyBrowser _ ltac:(discriminate) eq_refl)
    as (doc & root & t & _ & Hroot & Ht & _ & _ & _ & Hnd & Hlt).
  assert (Er : root = 1) by (vm_compute in Hroot; congruence). subst root.
  exists t. split; [exact Ht|]. split; [exact (Hnd forest_treeBelow)|].
  exact (Hlt forest_treeBelow Hin Hnot).
Defined.

(** * The export as a function of the skeleton and pose *)

(** C8. On a non-empty bone set without infinite descent through bone
    children, the hierarchy serialization of every bone of the set returns a
    string, and the whole export returns: from some recursion depth on, the
    hierarchy of the root is one fixed text, and the export offers one fixed
    document, the header, that hierarchy and the motion section, whatever
    the state of the browser. The document is a function of the bone set
    and pose alone: a scene that holds the same skeleton and pose gives the
    same document. *)
Theorem export_is_total_on_acyclic_skeletons (THREE : Library) (scene : Scene)
    (boneDots : list Mesh) :
  boneDots <> [] ->
  (forall bone, In bone (map userData_bone boneDots) -> acyclicBelow scene bone) ->
  let bones := map userData_bone boneDots in
  (forall bone level, In bone bones ->
     exists fuel0 str, forall fuel, fuel0 <= fuel ->
       buildBVHHierarchy scene fuel bone level = Some str)
  /\ exists fuel0 root hierarchy,
       rootBone scene bones = Some root
       /\ (forall fuel, fuel0 <= fuel ->
             buildBVHHierarchy scene fuel root 0 = Some hierarchy)
       /\ let doc := document hierarchy (buildBVHMotion THREE scene bones) in
          forall fuel, fuel0 <= fuel ->
            (forall w, exportToBVH THREE scene fuel boneDots w = Some (downloaded doc w))
            /\ (forall scene' w,
                  sameSkeleton scene scene' bones ->
                  exportToBVH THREE scene' fuel boneDots w = Some (downloaded doc w)).
Proof.
  intros Hne Hacc bones. split.
  - intros bone level Hin.
    destruct (buildBVHHierarchy_terminates scene bone (Hacc bone Hin)) as (fuel0 & t & Ht).
    exists fuel0, (render scene t level). intros fuel Hle. now apply Ht.
  - assert (Hb : bones <> [])
      by (subst bones; destruct boneDots; [congruence | discriminate]).
    destruct (rootBone_some scene _ Hb) as (root & Hroot).
    pose proof (Hacc root (rootBone_in scene _ _ Hroot)) as Hr.
    destruct (buildBVHHierarchy_terminates scene root Hr) as (fuel0 & t & Ht).
    exists fuel0, root, (render scene t 0).
    split; [exact Hroot|]. split; [intros fuel Hle; now apply Ht|].
    intros doc fuel Hle.
    assert (Hexport : forall w,
               exportToBVH THREE scene fuel boneDots w = Some (downloaded doc w)).
    { intros w. rewrite (exportToBVH_eq THREE scene fuel boneDots w root Hroot).
      destruct (Ht fuel 0 Hle) as [_ ->]. reflexivity. }
    split; [exact Hexport|].
    intros scene' w (Hkind & Hbone & Hset).
    rewrite (exportToBVH_same THREE scene scene' Hkind Hbone fuel boneDots w Hset).
    apply Hexport.
Qed.

(** The chain R, A, B is acyclic, and its export returns. *)
Lemma export_is_total_on_acyclic_skeletons_witness :
  dots [1; 2; 3] <> []
  /\ (forall bone, In bone (map userData_bone (dots [1; 2; 3])) -> acyclicBelow chain bone)
  /\ let bones := map userData_bone (dots [1; 2; 3]) in
     (forall bone level, In bone bones ->
        exists fuel0 str, forall fuel, fuel0 <= fuel ->
          buildBVHHierarchy chain fuel bone level = Some str)
     /\ exists fuel0 root hierarchy,
          rootBone chain bones = Some root
          /\ (forall fuel, fuel0 <= fuel ->
                buildBVHHierarchy chain fuel root 0 = Some hierarchy)
          /\ let doc := document hierarchy (buildBVHMotion three chain bones) in
             forall fuel, fuel0 <= fuel ->
               (forall w,
                  exportToBVH three chain fuel (dots [1; 2; 3]) w = Some (downloaded doc w))
               /\ (forall scene' w,
                     sameSkeleton chain scene' bones ->
                     exportToBVH three scene' fuel (dots [1; 2; 3]) w
                     = Some (downloaded doc w)).
Proof.
  split; [discriminate|].
  split; [intros bone _; apply chain_acyclic|].
  apply (export_is_total_on_acyclic_skeletons three chain (dots [1; 2; 3])).
  - discriminate.
  - intros bone _. apply chain_acyclic.
Defined.
